(** * Print Skew Compensation: skew factors and the G-code transform

    A shallow embedding of [SkewCalculator.py] (the dialog / firmware side)
    and of [scripts/PrintSkewCompensationCKM.py] (the post-processing side),
    with the properties of the specification stated over it.

    Python's [float] is IEEE 754 binary64: it is modelled by Rocq's primitive
    [float], whose operations are the same correctly rounded binary64
    operations.  Python's [int] is [Z], [str] is [string]. *)

From Stdlib Require Import ZArith Lia Bool List Ascii String Floats.
From Stdlib Require Import Numbers.DecimalString.
Import ListNotations.

Set Warnings "-inexact-float".

(** ** The Python runtime *)

Module Py.

(** The exceptions the modelled code can meet. *)
Inductive exn : Set := ValueError | TypeError | ZeroDivisionError | OverflowError.

(** A Python expression either has a value or raises. *)
Inductive result (A : Type) : Type :=
| Ok (a : A)
| Raise (e : exn).
Arguments Ok {A} a.
Arguments Raise {A} e.

Definition bind {A B : Type} (r : result A) (k : A -> result B) : result B :=
  match r with
  | Ok a => k a
  | Raise e => Raise e
  end.

(** How a call ends: it returns, or an exception escapes it. *)
Inductive outcome : Set := Returned | Raised (e : exn).

(** *** Exact arithmetic behind the decimal conversions

    [round], [float(int)], [float(str)], [repr] and the [.8f] format are all
    correctly rounded in CPython (David Gay's dtoa / strtod).  They are
    modelled by exact integer arithmetic on the binary expansion. *)

(** Nearest integer to [p / q], ties to even ([0 <= p], [0 < q]). *)
Definition div_half_even (p q : Z) : Z :=
  let d := (p / q)%Z in
  match (2 * (p mod q) ?= q)%Z with
  | Lt => d
  | Eq => if Z.even d then d else (d + 1)%Z
  | Gt => (d + 1)%Z
  end.

(** The fraction [(p / q) * 2^(-e)] as a pair numerator, denominator. *)
Definition scaled (p q e : Z) : Z * Z :=
  if (e <? 0)%Z then ((p * 2 ^ (- e))%Z, q) else (p, (q * 2 ^ e)%Z).

(** [2^e] as the quotient of two integers, [pow2_num e / pow2_den e]. *)
Definition pow2_num (e : Z) : Z := (2 ^ Z.max e 0)%Z.
Definition pow2_den (e : Z) : Z := (2 ^ Z.max (- e) 0)%Z.

(** [floor (log2 (p / q))] for [0 < p], [0 < q]. *)
Definition log2_floor (p q : Z) : Z :=
  let t := (Z.log2 p - Z.log2 q)%Z in
  let (a, b) := scaled p q t in
  if (b <=? a)%Z then t else (t - 1)%Z.

(** The exponent of the binade of [p / q]: the mantissa [(p / q) / 2^e] lies
    in [[2^52, 2^53)], except in the subnormal range where [e = -1074]. *)
Definition binade (p q : Z) : Z := Z.max (log2_floor p q - 52) (-1074).

Definition signed_zero (s : bool) : float := if s then neg_zero else zero.
Definition signed_infinity (s : bool) : float := if s then neg_infinity else infinity.

(** The binary64 number nearest to [(-1)^s * p / q], ties to even
    ([0 <= p], [0 < q]); overflow gives an infinity. *)
Definition nearest_float (s : bool) (p q : Z) : float :=
  if (p =? 0)%Z then signed_zero s
  else
    let e := binade p q in
    let (a, b) := scaled p q e in
    let m := div_half_even a b in
    let (m, e) := if (m =? 2 ^ 53)%Z then ((2 ^ 52)%Z, (e + 1)%Z) else (m, e) in
    match m with
    | Zpos pm => if (971 <? e)%Z then signed_infinity s else SF2Prim (S754_finite s pm e)
    | _ => signed_zero s
    end.

(** [round(x, ndigits)] for a float [x] and [0 <= ndigits]: the exact value
    is rounded half-even to [ndigits] decimals and the decimal result is
    converted back to the nearest float; zeros, infinities and nan are
    returned unchanged. *)
Definition round (x : float) (ndigits : Z) : float :=
  match Prim2SF x with
  | S754_finite s m e =>
      let (a, b) := scaled (Zpos m * 10 ^ ndigits) 1 (- e) in
      nearest_float s (div_half_even a b) (10 ^ ndigits)
  | _ => x
  end.

(** [float(n)] for an int [n]: correctly rounded, [OverflowError] when the
    result does not fit ("int too large to convert to float"). *)
Definition float_of_int (n : Z) : result float :=
  let f := nearest_float (n <? 0)%Z (Z.abs n) 1 in
  if is_infinity f then Raise OverflowError else Ok f.

(** [x / y] for floats: [ZeroDivisionError] on a zero divisor. *)
Definition truediv (x y : float) : result float :=
  if (y =? 0)%float then Raise ZeroDivisionError else Ok (x / y)%float.

(** [math.sqrt]: [ValueError] below zero. *)
Definition math_sqrt (x : float) : result float :=
  if (x <? 0)%float then Raise ValueError else Ok (sqrt x).

(** A one-argument function of the [math] module over the C library's
    [func], as CPython's [math_1] wraps it: [ValueError] ("math domain
    error") when the result is nan though the argument is not, and when
    the result is an infinity though the argument is finite. *)
Definition math_1 (func : float -> float) (x : float) : result float :=
  let r := func x in
  if is_nan r && negb (is_nan x) then Raise ValueError
  else if is_infinity r && is_finite x then Raise ValueError
  else Ok r.

(** [math.pi], the double nearest to pi. *)
Definition math_pi : float := 0x1.921fb54442d18p+1%float.

(** A number as G-code parsing yields it: an [int] or a [float]. *)
Inductive number : Set :=
| Int (n : Z)
| Float (f : float).

(** The float an arithmetic operator sees for a number operand. *)
Definition to_float (v : number) : result float :=
  match v with
  | Int n => float_of_int n
  | Float f => Ok f
  end.

(** A number that has a float: every float, and the ints within the range
    of a float. *)
Definition converts (v : number) : bool :=
  match to_float v with
  | Ok _ => true
  | Raise _ => false
  end.

(** A number whose float is not an infinity or nan. *)
Definition is_finite_number (v : number) : bool :=
  match to_float v with
  | Ok f => is_finite f
  | Raise _ => false
  end.

(** The same of what [getValue] returned, [None] passing. *)
Definition finite_or_absent (o : option number) : bool :=
  match o with
  | Some v => is_finite_number v
  | None => true
  end.

(** Two floats of one value: the same float, or two zeros. *)
Definition same_value (a b : float) : Prop :=
  a = b \/ ((exists s, Prim2SF a = S754_zero s) /\ (exists t, Prim2SF b = S754_zero t)).

(** *** Strings *)

Local Open Scope string_scope.

Definition newline : string := String (ascii_of_nat 10) EmptyString.

(** [s.startswith(p)]. *)
Definition startswith (s p : string) : bool := String.prefix p s.

(** [s.find(sub)], with [None] for [-1]. *)
Fixpoint find (s sub : string) : option nat :=
  if String.prefix sub s then Some O
  else match s with
       | EmptyString => None
       | String _ s' => option_map S (find s' sub)
       end.

(** [s[n:]]. *)
Fixpoint drop (n : nat) (s : string) : string :=
  match n, s with
  | O, _ => s
  | S n', String _ s' => drop n' s'
  | S _, EmptyString => EmptyString
  end.

(** [s.split("\n")]. *)
Fixpoint split_lines (s : string) : list string :=
  match s with
  | EmptyString => [EmptyString]
  | String c s' =>
      if Ascii.eqb c (ascii_of_nat 10) then EmptyString :: split_lines s'
      else match split_lines s' with
           | l :: ls => String c l :: ls
           | [] => [String c EmptyString]
           end
  end.

(** ["\n".join(lines)]. *)
Definition join_lines (lines : list string) : string := String.concat newline lines.

(** [s.replace(old, new)] for a non-empty [old]: every occurrence, left to
    right, without overlap.  [skip] counts the characters of a matched
    occurrence still to be passed over. *)
Fixpoint replace_from (skip : nat) (s old new : string) : string :=
  match s with
  | EmptyString => EmptyString
  | String c s' =>
      match skip with
      | S k => replace_from k s' old new
      | O =>
          if String.prefix old s
          then new ++ replace_from (String.length old - 1) s' old new
          else String c (replace_from O s' old new)
      end
  end.

Definition replace (s old new : string) : string := replace_from O s old new.

(** *** Decimal text of numbers *)

(** [str(n)] for an int. *)
Definition str_of_int (n : Z) : string := NilZero.string_of_int (Z.to_int n).

(** [n] zeros. *)
Fixpoint zeros (n : nat) : string :=
  match n with O => EmptyString | S k => String "0" (zeros k) end.

(** The decimal digits of [0 <= n], left-padded with zeros to [width]. *)
Definition digits_padded (n : Z) (width : nat) : string :=
  let d := NilZero.string_of_uint (N.to_uint (Z.to_N n)) in
  zeros (width - String.length d) ++ d.

(** [format(x, ".<nd>f")]: the exact value rounded half-even to [nd]
    decimals, always with [nd] digits after the point. *)
Definition format_f (x : float) (nd : nat) : string :=
  let fixed (s : bool) (n : Z) :=
    (if s then "-" else "") ++
    NilZero.string_of_uint (N.to_uint (Z.to_N (n / 10 ^ Z.of_nat nd))) ++
    (match nd with O => "" | _ => "." ++ digits_padded (n mod 10 ^ Z.of_nat nd) nd end) in
  match Prim2SF x with
  | S754_nan => "nan"
  | S754_infinity s => if s then "-inf" else "inf"
  | S754_zero s => fixed s 0%Z
  | S754_finite s m e =>
      let (a, b) := scaled (Zpos m * 10 ^ Z.of_nat nd) 1 (- e) in
      fixed s (div_half_even a b)
  end.

(** [floor (log10 (p / q))] for [0 < p], [0 < q]: an estimate from the
    binary logarithm, corrected by comparison. *)
Definition log10_floor (p q : Z) : Z :=
  let est := (log2_floor p q * 30103 / 100000)%Z in
  let ge10 (c : Z) := if (c <? 0)%Z then (q <=? p * 10 ^ (- c))%Z else (q * 10 ^ c <=? p)%Z in
  if ge10 (est + 1)%Z then (est + 1)%Z
  else if ge10 est then est
  else (est - 1)%Z.

(** [d * 10^c] as a float, correctly rounded. *)
Definition float_of_decimal (s : bool) (d c : Z) : float :=
  if (c <? 0)%Z then nearest_float s d (10 ^ (- c)) else nearest_float s (d * 10 ^ c) 1.

(** The shortest decimal [d * 10^c] that reads back as the float of sign
    [s] and magnitude [p / q], trying [k = 1, 2, ...] significant digits;
    of two that do, the one nearer to [p / q], and the even one when they
    are equally near. *)
Fixpoint shortest_decimal (fuel : nat) (k : Z) (s : bool) (x : float) (p q lg : Z) : Z * Z :=
  let c := (lg - k + 1)%Z in
  let (a, b) := if (c <? 0)%Z then ((p * 10 ^ (- c))%Z, q) else (p, (q * 10 ^ c)%Z) in
  let lo := (a / b)%Z in
  let hi := (lo + 1)%Z in
  let ok (d : Z) := Leibniz.eqb (float_of_decimal s d c) x in
  let lo_nearer :=
    ((2 * (a mod b) <? b) || (2 * (a mod b) =? b) && Z.even lo)%Z in
  match fuel with
  | O => (lo, c)
  | S fuel' =>
      if ok lo && ok hi then (if lo_nearer then (lo, c) else (hi, c))
      else if ok lo then (lo, c)
      else if ok hi then (hi, c)
      else shortest_decimal fuel' (k + 1)%Z s x p q lg
  end.

(** Trailing zeros of the digits moved into the exponent. *)
Fixpoint strip_zeros (fuel : nat) (d c : Z) : Z * Z :=
  match fuel with
  | O => (d, c)
  | S fuel' => if ((d mod 10 =? 0) && (0 <? d))%Z then strip_zeros fuel' (d / 10)%Z (c + 1)%Z else (d, c)
  end.

(** [s[:n]]. *)
Fixpoint take (n : nat) (s : string) : string :=
  match n, s with
  | S n', String c s' => String c (take n' s')
  | _, _ => EmptyString
  end.

(** [repr(x)] (also [str(x)] and the default format) of a float: the
    shortest digits that read back as [x], in positional notation when the
    decimal point falls within [-4 < decpt <= 16], else in exponent
    notation. *)
Definition repr_float (x : float) : string :=
  match Prim2SF x with
  | S754_nan => "nan"
  | S754_infinity s => if s then "-inf" else "inf"
  | S754_zero s => if s then "-0.0" else "0.0"
  | S754_finite s m e =>
      let (p, q) := scaled (Zpos m) 1 (- e) in
      let (d0, c0) := shortest_decimal 17 1 s x p q (log10_floor p q) in
      let (d, c) := strip_zeros 400 d0 c0 in
      let ds := NilZero.string_of_uint (N.to_uint (Z.to_N d)) in
      let k := Z.of_nat (String.length ds) in
      let decpt := (k + c)%Z in
      (if s then "-" else "") ++
      (if ((decpt <=? -4) || (16 <? decpt))%Z then
         let ex := (decpt - 1)%Z in
         take 1 ds ++ (if (1 <? k)%Z then "." ++ drop 1 ds else "") ++ "e" ++
         (if (ex <? 0)%Z then "-" else "+") ++
         digits_padded (Z.abs ex) 2
       else if (decpt <=? 0)%Z then "0." ++ zeros (Z.to_nat (- decpt)) ++ ds
       else if (k <=? decpt)%Z then ds ++ zeros (Z.to_nat (decpt - k)) ++ ".0"
       else take (Z.to_nat decpt) ds ++ "." ++ drop (Z.to_nat decpt) ds)
  end.

(** *** [float(s)] for a string

    The grammar of the language reference: surrounding whitespace is
    dropped; an optional sign; then [inf], [infinity] or [nan] in any case,
    or a decimal number whose digits may be grouped by single underscores,
    with an optional fraction and exponent.  Characters are code points
    below 256; the whitespace is C's, and the two Unicode spaces of that
    range, which CPython maps to a blank first. *)

Definition is_space (c : ascii) : bool :=
  let n := nat_of_ascii c in
  ((9 <=? n) && (n <=? 13) || (n =? 32) || (n =? 133) || (n =? 160))%nat.

Definition is_digit (c : ascii) : bool :=
  let n := nat_of_ascii c in ((48 <=? n) && (n <=? 57))%nat.

Definition digit_value (c : ascii) : Z := Z.of_nat (nat_of_ascii c - 48).

Definition lower (c : ascii) : ascii :=
  let n := nat_of_ascii c in
  if ((65 <=? n) && (n <=? 90))%nat then ascii_of_nat (n + 32) else c.

Fixpoint lowercase (s : string) : string :=
  match s with
  | EmptyString => EmptyString
  | String c s' => String (lower c) (lowercase s')
  end.

Fixpoint lstrip (s : string) : string :=
  match s with
  | String c s' => if is_space c then lstrip s' else s
  | EmptyString => EmptyString
  end.

Fixpoint rstrip (s : string) : string :=
  match s with
  | EmptyString => EmptyString
  | String c s' =>
      match rstrip s' with
      | EmptyString => if is_space c then EmptyString else String c EmptyString
      | r => String c r
      end
  end.

(** The digits that continue a digit part, [(["_"] digit)*]: the value
    with them appended to [acc], their count added to [count], the rest. *)
Fixpoint more_digits (s : string) (acc : Z) (count : nat) : Z * nat * string :=
  match s with
  | String c s' =>
      if is_digit c then more_digits s' (10 * acc + digit_value c)%Z (S count)
      else if Ascii.eqb c "_" then
        match s' with
        | String d s'' =>
            if is_digit d then more_digits s'' (10 * acc + digit_value d)%Z (S count)
            else (acc, count, s)
        | EmptyString => (acc, count, s)
        end
      else (acc, count, s)
  | EmptyString => (acc, count, s)
  end.

(** A digit part at the head of [s], if any: value, count (zero when there
    is none), rest. *)
Definition digitpart (s : string) : Z * nat * string :=
  match s with
  | String c s' => if is_digit c then more_digits s' (digit_value c) 1 else (0%Z, O, s)
  | EmptyString => (0%Z, O, s)
  end.

(** An optional sign at the head of [s]. *)
Definition sign_of (s : string) : bool * string :=
  match s with
  | String "-" s' => (true, s')
  | String "+" s' => (false, s')
  | _ => (false, s)
  end.

Definition float_of_str (text : string) : option float :=
  let (neg, s) := sign_of (rstrip (lstrip text)) in
  let l := lowercase s in
  if String.eqb l "inf" || String.eqb l "infinity" then Some (signed_infinity neg)
  else if String.eqb l "nan" then Some nan
  else
    let '(ip, ni, r1) := digitpart s in
    let '(fp, nf, r2) := match r1 with
                         | String "." r => digitpart r
                         | _ => (0%Z, O, r1)
                         end in
    match (ni + nf)%nat with
    | O => None
    | S _ =>
        let mant := (ip * 10 ^ Z.of_nat nf + fp)%Z in
        match r2 with
        | EmptyString => Some (float_of_decimal neg mant (- Z.of_nat nf))
        | String c r =>
            if Ascii.eqb (lower c) "e" then
              let (eneg, r') := sign_of r in
              match digitpart r' with
              | (ev, S _, EmptyString) =>
                  Some (float_of_decimal neg mant ((if eneg then - ev else ev) - Z.of_nat nf))
              | _ => None
              end
            else None
        end
    end.

(** *** More of [str]

    The methods the start G-code, the settings and the dialog go through.
    A string is a sequence of code points below 256. *)

(** [sub in s]. *)
Definition contains (s sub : string) : bool :=
  match find s sub with Some _ => true | None => false end.

(** [s.endswith(p)]. *)
Definition endswith (s p : string) : bool :=
  (String.length p <=? String.length s)%nat &&
  String.eqb (drop (String.length s - String.length p) s) p.

(** The whitespace of [str.strip()] and [str.isspace()], among the code
    points below 256. *)
Definition is_whitespace (c : ascii) : bool :=
  let n := nat_of_ascii c in
  ((9 <=? n) && (n <=? 13) || (28 <=? n) && (n <=? 32) || (n =? 133) || (n =? 160))%nat.

Fixpoint lstrip_by (p : ascii -> bool) (s : string) : string :=
  match s with
  | String c s' => if p c then lstrip_by p s' else s
  | EmptyString => EmptyString
  end.

Fixpoint rstrip_by (p : ascii -> bool) (s : string) : string :=
  match s with
  | EmptyString => EmptyString
  | String c s' =>
      match rstrip_by p s' with
      | EmptyString => if p c then EmptyString else String c EmptyString
      | r => String c r
      end
  end.

(** [s.strip()]. *)
Definition strip (s : string) : string :=
  rstrip_by is_whitespace (lstrip_by is_whitespace s).

(** [s.strip(c)] for a one-character [c]. *)
Definition strip_char (c : ascii) (s : string) : string :=
  rstrip_by (Ascii.eqb c) (lstrip_by (Ascii.eqb c) s).

(** The line boundaries of [str.splitlines()], among the code points below
    256. *)
Definition is_linebreak (c : ascii) : bool :=
  let n := nat_of_ascii c in
  ((10 <=? n) && (n <=? 13) || (28 <=? n) && (n <=? 30) || (n =? 133))%nat.

(** [s.splitlines()]: a carriage return followed by a line feed is one
    boundary; a boundary at the very end opens no further line. *)
Fixpoint splitlines (s : string) : list string :=
  match s with
  | EmptyString => []
  | String c s' =>
      if is_linebreak c then
        EmptyString ::
        match s' with
        | String d s'' =>
            if ((nat_of_ascii c =? 13) && (nat_of_ascii d =? 10))%nat
            then splitlines s'' else splitlines s'
        | EmptyString => []
        end
      else
        match splitlines s' with
        | l :: ls => String c l :: ls
        | [] => [String c EmptyString]
        end
  end.

(** [c.lower()] for a code point below 256. *)
Definition lower_char (c : ascii) : ascii :=
  let n := nat_of_ascii c in
  if ((65 <=? n) && (n <=? 90) || (192 <=? n) && (n <=? 222) && negb (n =? 215))%nat
  then ascii_of_nat (n + 32) else c.

(** [s.lower()]. *)
Fixpoint str_lower (s : string) : string :=
  match s with
  | EmptyString => EmptyString
  | String c s' => String (lower_char c) (str_lower s')
  end.

(** [str(v)], the text an f-string puts for [{v}]. *)
Definition str (v : number) : string :=
  match v with
  | Int n => str_of_int n
  | Float f => repr_float f
  end.

(** ** Shapes of strings

    What the properties say of strings. *)

(** Every character of [s] satisfies [p]. *)
Fixpoint all_chars (p : ascii -> bool) (s : string) : bool :=
  match s with
  | EmptyString => true
  | String c s' => p c && all_chars p s'
  end.

(** A string that [splitlines] does not break. *)
Definition no_linebreak (s : string) : bool := all_chars (fun c => negb (is_linebreak c)) s.

(** The lines without the empty one at the end, if there is one. *)
Fixpoint drop_last_empty (lines : list string) : list string :=
  match lines with
  | [] => []
  | [l] => if l =? "" then [] else [l]
  | l :: rest => l :: drop_last_empty rest
  end.

(** The characters of a number written by [format]. *)
Definition is_number_char (c : ascii) : bool :=
  is_digit c || Ascii.eqb c "-" || Ascii.eqb c "." ||
  Ascii.eqb c "n" || Ascii.eqb c "a" || Ascii.eqb c "i" || Ascii.eqb c "f".

(** The characters of [repr] of a float. *)
Definition is_repr_char (c : ascii) : bool :=
  is_number_char c || Ascii.eqb c "e" || Ascii.eqb c "+".

(** A string without a line feed, the separator of [split_lines]. *)
Definition no_newline (s : string) : bool :=
  all_chars (fun c => negb (Ascii.eqb c (ascii_of_nat 10))) s.

End Py.

Export Py.

Declare Scope py_scope.
Delimit Scope py_scope with py.
Notation "x <- c1 ;; c2" := (Py.bind c1 (fun x => c2))
  (at level 61, c1 at next level, right associativity) : py_scope.
Open Scope py_scope.

(** ** SkewCalculator.py *)

Module SkewCalculator.

(** [PluginConstants.PLUGIN_ID]. *)
Definition PLUGIN_ID : string := "PrintSkewCompensation".

(** What a measurement attribute may hold.  The callers of this repository
    store floats; [float()] also accepts ints and numeric strings, and
    rejects the rest. *)
Inductive obj : Set :=
| PyFloat (f : float)
| PyInt (n : Z)
| PyStr (s : string)
| PyNone.

(** The object: nine measurements and the three Marlin factors. *)
Record t : Set := mk {
  xy_ac : obj; xy_bd : obj; xy_ad : obj;
  xz_ac : obj; xz_bd : obj; xz_ad : obj;
  yz_ac : obj; yz_bd : obj; yz_ad : obj;
  marlin_I : float; marlin_J : float; marlin_K : float
}.

Definition set_marlin_I (self : t) (v : float) : t :=
  mk (xy_ac self) (xy_bd self) (xy_ad self) (xz_ac self) (xz_bd self) (xz_ad self)
     (yz_ac self) (yz_bd self) (yz_ad self) v (marlin_J self) (marlin_K self).

Definition set_marlin_J (self : t) (v : float) : t :=
  mk (xy_ac self) (xy_bd self) (xy_ad self) (xz_ac self) (xz_bd self) (xz_ad self)
     (yz_ac self) (yz_bd self) (yz_ad self) (marlin_I self) v (marlin_K self).

Definition set_marlin_K (self : t) (v : float) : t :=
  mk (xy_ac self) (xy_bd self) (xy_ad self) (xz_ac self) (xz_bd self) (xz_ad self)
     (yz_ac self) (yz_bd self) (yz_ad self) (marlin_I self) (marlin_J self) v.

(** [except (ValueError, TypeError, ZeroDivisionError)]. *)
Definition caught (e : exn) : bool :=
  match e with
  | ValueError | TypeError | ZeroDivisionError => true
  | OverflowError => false
  end.

(** One [try: ... except (...): factor = 0.0] block: a caught exception
    gives [0.0], any other one escapes. *)
Definition try_except (body : result float) : result float :=
  match body with
  | Ok f => Ok f
  | Raise e => if caught e then Ok 0%float else Raise e
  end.

Section Calculator.

(** The C library's [pow(x, 2.0)].  It need not round correctly, so it is
    not taken to be [x * x]. *)
Variable pow_2 : float -> float.

(** [float(v)]. *)
Definition py_float (v : obj) : result float :=
  match v with
  | PyFloat f => Ok f
  | PyInt n => float_of_int n
  | PyStr s => match float_of_str s with Some f => Ok f | None => Raise ValueError end
  | PyNone => Raise TypeError
  end.

(** The value of [x ** 2] for a float [x], as CPython's [float_pow] finds
    it: nan, infinities, zero and one are answered directly, anything else
    by the C library on the absolute value. *)
Definition sq (x : float) : float :=
  if is_nan x then x
  else if is_infinity x then abs x
  else if (x =? 0)%float then 0%float
  else if (abs x =? 1)%float then 1%float
  else pow_2 (abs x).

(** [x ** 2]: [OverflowError] when the C library returns an infinity for
    a finite operand; underflow to zero passes. *)
Definition pow2 (x : float) : result float :=
  if is_finite x && is_infinity (sq x) then Raise OverflowError else Ok (sq x).

(** [(AC**2 - BD**2) / (4 * AD**2)]. *)
Definition quarter (AC BD AD : float) : result float :=
  ac2 <- pow2 AC ;;
  bd2 <- pow2 BD ;;
  ad2 <- pow2 AD ;;
  truediv (ac2 - bd2)%float (4 * ad2)%float.

(** The body of the XY [try] block (lines 70-74). *)
Definition body_I (ac bd ad : obj) : result float :=
  AC <- py_float ac ;;
  BD <- py_float bd ;;
  AD <- py_float ad ;;
  if (AD <=? 0)%float then Raise ValueError
  else quarter AC BD AD.

(** The body of the XZ and YZ [try] blocks (lines 80-84, 90-94), which end
    in [... if AD != 0 else 0.0]. *)
Definition body_JK (ac bd ad : obj) : result float :=
  AC <- py_float ac ;;
  BD <- py_float bd ;;
  AD <- py_float ad ;;
  if (AD <=? 0)%float then Raise ValueError
  else if negb (AD =? 0)%float then quarter AC BD AD else Ok 0%float.

(** [calculate_skew_factors]: the three blocks in turn, each storing its
    factor; an exception that is not caught ends the call where it stands.
    The result is the object as the call leaves it, and how the call ended. *)
Definition calculate_skew_factors (self : t) : t * outcome :=
  match try_except (body_I (xy_ac self) (xy_bd self) (xy_ad self)) with
  | Raise e => (self, Raised e)
  | Ok i =>
    let self := set_marlin_I self i in
    match try_except (body_JK (xz_ac self) (xz_bd self) (xz_ad self)) with
    | Raise e => (self, Raised e)
    | Ok j =>
      let self := set_marlin_J self j in
      match try_except (body_JK (yz_ac self) (yz_bd self) (yz_ad self)) with
      | Raise e => (self, Raised e)
      | Ok k => (set_marlin_K self k, Returned)
      end
    end
  end.

(** [__init__]. *)
Definition init : t * outcome :=
  calculate_skew_factors
    (mk (PyFloat 141.42) (PyFloat 141.42) (PyFloat 100.0)
        (PyFloat 141.42) (PyFloat 141.42) (PyFloat 100.0)
        (PyFloat 141.42) (PyFloat 141.42) (PyFloat 100.0)
        0.0 0.0 0.0).

(** [set_measurements]. *)
Definition set_measurements (self : t)
    (xy_ac xy_bd xy_ad xz_ac xz_bd xz_ad yz_ac yz_bd yz_ad : obj) : t * outcome :=
  calculate_skew_factors
    (mk xy_ac xy_bd xy_ad xz_ac xz_bd xz_ad yz_ac yz_bd yz_ad
        (marlin_I self) (marlin_J self) (marlin_K self)).

(** [get_skew_factors]. *)
Definition get_skew_factors (self : t) : float * float * float :=
  (marlin_I self, marlin_J self, marlin_K self).

(** [get_marlin_command]. *)
Definition get_marlin_command (self : t) : string :=
  ("M852 I" ++ format_f (marlin_I self) 8 ++ " J" ++ format_f (marlin_J self) 8 ++
   " K" ++ format_f (marlin_K self) 8 ++ " ; " ++ PLUGIN_ID)%string.

(** *** The factor of one plane, as a function of its three stored values

    What the specification says of the quarter formula, with the cases the
    code adds: the factor is [0.0] when a value does not convert, when
    [ad <= 0], and when [4 * ad**2] is zero; else it is the quotient. *)
Definition quarter_factor (ac bd ad : obj) : float :=
  match py_float ac, py_float bd, py_float ad with
  | Ok AC, Ok BD, Ok AD =>
      if (AD <=? 0)%float then 0%float
      else if (4 * sq AD =? 0)%float then 0%float
      else ((sq AC - sq BD) / (4 * sq AD))%float
  | _, _, _ => 0%float
  end.

(** [x ** 2] overflows: the operand is finite and its square is not. *)
Definition square_overflows (x : float) : bool :=
  is_finite x && is_infinity (sq x).

(** The plane lets [OverflowError] escape: the first of [float(ac)],
    [float(bd)], [float(ad)] that fails does so with [OverflowError], or
    the three convert, [ad <= 0] does not hold and one of the three
    squares overflows. *)
Definition overflow_escapes (ac bd ad : obj) : bool :=
  match py_float ac, py_float bd, py_float ad with
  | Raise e, _, _ | Ok _, Raise e, _ | Ok _, Ok _, Raise e =>
      match e with OverflowError => true | _ => false end
  | Ok AC, Ok BD, Ok AD =>
      negb (AD <=? 0)%float &&
      (square_overflows AC || square_overflows BD || square_overflows AD)
  end.

(** The factors agree with the measurements stored beside them. *)
Definition consistent (self : t) : Prop :=
  marlin_I self = quarter_factor (xy_ac self) (xy_bd self) (xy_ad self) /\
  marlin_J self = quarter_factor (xz_ac self) (xz_bd self) (xz_ad self) /\
  marlin_K self = quarter_factor (yz_ac self) (yz_bd self) (yz_ad self).

End Calculator.

(** A C library whose [pow] rounds correctly: at exponent 2 it is the
    rounded product. *)
Definition square (x : float) : float := (x * x)%float.

(** Two calculators with factors 7, 8 and 9 stored from before: one whose
    XY side is negative beside a diagonal too long to square, one whose XY
    diagonal is too long to square beside a sound side. *)
Definition negative_side : t :=
  mk (PyFloat 1e200) (PyInt 130) (PyFloat (-1))
     (PyInt 150) (PyStr "130.0") (PyFloat 100)
     (PyStr "abc") PyNone (PyFloat 1)
     7 8 9.

Definition overflowing_xy : t :=
  mk (PyFloat 1e200) (PyInt 130) (PyFloat 100)
     (PyInt 150) (PyStr "130.0") (PyFloat 100)
     (PyFloat 141.42) (PyFloat 141.42) (PyFloat 100)
     7 8 9.

(** *** The angle of one plane, and the Klipper command *)

(** [except (ValueError, TypeError)]. *)
Definition caught_conversion (e : exn) : bool :=
  match e with
  | ValueError | TypeError => true
  | ZeroDivisionError | OverflowError => false
  end.

(** [max(-1.0, min(1.0, x))].  [min] and [max] keep their first argument
    unless the second compares below it, respectively above it. *)
Definition clamp (x : float) : float :=
  let m := if (x <? 1)%float then x else 1%float in
  if (-1 <? m)%float then m else (-1)%float.

Section Angle.

Variable pow_2 : float -> float.

(** The C library's [acos]. *)
Variable acos : float -> float.

(** The [try] body of [_calculate_skew_factor] (lines 118-123). *)
Definition skew_angle_body (ac bd ad : float) : result float :=
  if (ad =? 0)%float then Ok 0%float
  else
    ac2 <- pow2 pow_2 ac ;;
    bd2 <- pow2 pow_2 bd ;;
    ad2 <- pow2 pow_2 ad ;;
    skew_factor <- truediv (ac2 - bd2)%float (2 * ad2)%float ;;
    angle <- math_1 acos (clamp skew_factor) ;;
    ratio <- truediv angle math_pi ;;
    Ok (ratio * 180)%float.

(** [_calculate_skew_factor]: a [ValueError] or [TypeError] gives [0.0],
    any other exception escapes. *)
Definition _calculate_skew_factor (ac bd ad : float) : result float :=
  match skew_angle_body ac bd ad with
  | Ok f => Ok f
  | Raise e => if caught_conversion e then Ok 0%float else Raise e
  end.

End Angle.

(** One part of the Klipper command, [XY=ac,bd,ad]: the three values are
    converted in turn and written with three decimals. *)
Definition klipper_part (plane : string) (ac bd ad : obj) : result string :=
  a <- py_float ac ;;
  b <- py_float bd ;;
  d <- py_float ad ;;
  Ok (plane ++ "=" ++ format_f a 3 ++ "," ++ format_f b 3 ++ "," ++ format_f d 3)%string.

(** The text returned when a measurement does not convert. *)
Definition klipper_error : string :=
  ("SET_SKEW ; Error: Invalid measurements (" ++ PLUGIN_ID ++ ")")%string.

(** [get_klipper_command]. *)
Definition get_klipper_command (self : t) : result string :=
  match
    xy_part <- klipper_part "XY" (xy_ac self) (xy_bd self) (xy_ad self) ;;
    xz_part <- klipper_part "XZ" (xz_ac self) (xz_bd self) (xz_ad self) ;;
    yz_part <- klipper_part "YZ" (yz_ac self) (yz_bd self) (yz_ad self) ;;
    Ok ("SET_SKEW " ++ xy_part ++ " " ++ xz_part ++ " " ++ yz_part ++ " ; " ++ PLUGIN_ID)%string
  with
  | Ok command => Ok command
  | Raise e => if caught_conversion e then Ok klipper_error else Raise e
  end.

(** The nine measurements are floats, as [__init__] stores them. *)
Definition is_float (v : obj) : bool :=
  match v with
  | PyFloat _ => true
  | PyInt _ | PyStr _ | PyNone => false
  end.

Definition holds_floats (self : t) : bool :=
  is_float (xy_ac self) && is_float (xy_bd self) && is_float (xy_ad self) &&
  is_float (xz_ac self) && is_float (xz_bd self) && is_float (xz_ad self) &&
  is_float (yz_ac self) && is_float (yz_bd self) && is_float (yz_ad self).

End SkewCalculator.

(** ** GCodeManager.py *)

Module GCodeManager.

Import SkewCalculator.

Local Open Scope string_scope.

Definition marlin_prefix : string := "M852".
Definition klipper_prefix : string := "SET_SKEW".
Definition plugin_comment : string := "; " ++ PLUGIN_ID.

(** The command that should be in the start G-code, [None] for none
    (lines 91-95). *)
Definition command_to_ensure (marlin_command klipper_command method : string)
    (marlin_add klipper_add : bool) : option string :=
  if (method =? "marlin") && marlin_add then Some marlin_command
  else if (method =? "klipper") && klipper_add then Some klipper_command
  else None.

(** The truth of [command_to_ensure] in a condition: it is neither [None]
    nor empty. *)
Definition is_set (command : option string) : bool :=
  match command with
  | Some c => negb (c =? "")
  | None => false
  end.

(** [is_marlin_skew or is_klipper_skew] of a stripped line: it starts with
    one of the two prefixes and holds the plugin's comment. *)
Definition is_skew_command (stripped_line : string) : bool :=
  startswith stripped_line marlin_prefix && contains stripped_line plugin_comment ||
  startswith stripped_line klipper_prefix && contains stripped_line plugin_comment.

(** The variables of the loop over the lines (lines 98-101); the two that
    only feed the log, [command_removed] and [command_added], are left
    out. *)
Record scan : Set := mk_scan {
  new_gcode_lines : list string;
  lines_changed : bool;
  existing_command_found_and_correct : bool
}.

(** One turn of the loop (lines 104-120). *)
Definition scan_line (command : option string) (st : scan) (line : string) : scan :=
  let stripped_line := strip line in
  if negb (is_skew_command stripped_line) then
    mk_scan (new_gcode_lines st ++ [line])%list (lines_changed st)
      (existing_command_found_and_correct st)
  else if is_set command && match command with Some c => stripped_line =? c | None => false end
  then mk_scan (new_gcode_lines st ++ [line])%list (lines_changed st) true
  else mk_scan (new_gcode_lines st) true (existing_command_found_and_correct st).

Definition scan_lines (command : option string) (lines : list string) : scan :=
  fold_left (scan_line command) lines (mk_scan [] false false).

(** The command is added at the end unless it is there already
    (lines 124-132). *)
Definition add_command (command : option string) (st : scan) : scan :=
  match command with
  | Some c =>
      if is_set command && negb (existing_command_found_and_correct st) then
        if existsb (fun line => strip line =? c) (new_gcode_lines st) then st
        else mk_scan (new_gcode_lines st ++ [c])%list true
               (existing_command_found_and_correct st)
      else st
  | None => st
  end.

(** The start G-code to be written for [current_start_gcode], or [None]
    when nothing is to be written (lines 103-150). *)
Definition new_start_gcode (current_start_gcode : string) (command : option string)
  : option string :=
  let st := add_command command (scan_lines command (splitlines current_start_gcode)) in
  if lines_changed st then
    let new := join_lines (new_gcode_lines st) in
    if negb (new =? current_start_gcode) then Some new else None
  else None.

(** [sync_start_gcode], from the point where the container stack and the
    settings container are found: [current_start_gcode] is the value of
    [machine_start_gcode] in the stack ([None] counting as empty), and the
    result is the value set in the settings container, [None] when the
    property is not set.  An exception of the calculator ends the call
    with nothing set. *)
Definition sync_start_gcode (current_start_gcode : option string) (skew_calculator : t)
    (method : string) (marlin_add klipper_add : bool) : option string :=
  let current := match current_start_gcode with Some g => g | None => "" end in
  match get_klipper_command skew_calculator with
  | Raise _ => None
  | Ok klipper_command =>
      new_start_gcode current
        (command_to_ensure (get_marlin_command skew_calculator) klipper_command
           method marlin_add klipper_add)
  end.

(** *** What the properties say of the start G-code *)

(** A line that is not a skew command of the plugin. *)
Definition is_other (line : string) : bool := negb (is_skew_command (strip line)).

(** A skew command of the plugin that is the command to ensure. *)
Definition is_correct (command : option string) (line : string) : bool :=
  is_skew_command (strip line) && is_set command &&
  match command with Some c => strip line =? c | None => false end.

(** The lines the loop keeps. *)
Definition is_kept (command : option string) (line : string) : bool :=
  is_other line || is_correct command line.

(** The lines that are neither empty nor a skew command of the plugin. *)
Definition is_foreign (line : string) : bool := is_other line && negb (line =? "").

(** The start G-code after [sync_start_gcode]: the text it has written,
    or the text there was when it has written none. *)
Definition final_gcode (current_start_gcode written : option string) : string :=
  match written, current_start_gcode with
  | Some new, _ => new
  | None, Some g => g
  | None, None => ""
  end.

(** A command without surrounding whitespace and on one line. *)
Definition command_ok (command : option string) : Prop :=
  match command with
  | Some c => strip c = c /\ no_linebreak c = true
  | None => True
  end.

(** A start G-code with a command of the plugin that is out of date. *)
Definition old_start_gcode : string :=
  "G28" ++ newline ++ "M852 I0.1 J0 K0 ; PrintSkewCompensation" ++ newline ++
  "G1 Z5" ++ newline.

End GCodeManager.

(** ** scripts/PrintSkewCompensationCKM.py *)

Module PrintSkewCompensationCKM.

Local Open Scope string_scope.

(** [self._calculated_factors], a dict with the keys "xy", "xz", "yz". *)
Record factors : Set := mk_factors { xy : float; xz : float; yz : float }.

(** The local variables of [cura_compensation].  [cur_x], [cur_y], [cur_z]
    hold what [getValue] returned, [None] being Python's [None];
    [x_input], [y_input], [x_out], [y_out] are unbound ([None]) until the
    first motion line assigns them. *)
Record locals : Set := mk_locals {
  z_input : number;
  cur_x : option number; cur_y : option number; cur_z : option number;
  x_input : option number; y_input : option number;
  x_out : option float; y_out : option float
}.

(** Lines 337-340. *)
Definition initial_locals : locals :=
  mk_locals (Int 0) (Some (Int 0)) (Some (Int 0)) (Some (Int 0)) None None None None.

(** [line.startswith(("G0", "G1"))]. *)
Definition is_motion (line : string) : bool :=
  startswith line "G0" || startswith line "G1".

(** [a - b * f] for numbers [a], [b] and a float [f]: an int operand is
    converted as the operator meets it. *)
Definition shear (a b : number) (f : float) : result float :=
  bf <- to_float b ;;
  af <- to_float a ;;
  Ok (af - bf * f)%float.

Section Script.

(** The C library's [acos] and [tan] behind [math.acos] and [math.tan]. *)
Variable acos tan : float -> float.

(** [math.acos] and [math.tan]. *)
Definition math_acos : float -> result float := math_1 acos.
Definition math_tan : float -> result float := math_1 tan.

(** The [try] body of [calculate_skew_factor] (lines 310-327). *)
Definition skew_factor_body (ac bd ad : float) : result float :=
  let term_sqrt := (2 * ac * ac + 2 * bd * bd - 4 * ad * ad)%float in
  if (term_sqrt <? 0)%float then Ok 0%float
  else
    root <- math_sqrt term_sqrt ;;
    ab <- truediv root 2 ;;
    let denominator_acos := (2 * ab * ad)%float in
    if (denominator_acos =? 0)%float then Ok 0%float
    else
      arg_acos <- truediv (ac * ac - ab * ab - ad * ad)%float denominator_acos ;;
      if negb ((-1 <=? arg_acos)%float && (arg_acos <=? 1)%float) then Ok 0%float
      else
        angle <- math_acos arg_acos ;;
        math_tan (math_pi / 2 - angle)%float.

(** [calculate_skew_factor]: the guard on the three measurements, then the
    body under [try]; both [except] clauses return [0.0]. *)
Definition calculate_skew_factor (ac bd ad : float) : float :=
  if (ac <=? 0)%float || (bd <=? 0)%float || (ad <=? 0)%float then 0%float
  else match skew_factor_body ac bd ad with
       | Ok skew_comp => skew_comp
       | Raise _ => 0%float
       end.

(** [Script.getValue(line, key, None)] of the host application: the number
    that follows [key] on the line, or [None]. *)
Variable getValue : string -> string -> option number.

(** The factors in use during one pass. *)
Variable _calculated_factors : factors.

(** One turn of the inner loop (lines 346-376): the locals and the line
    after it. *)
Definition process_line (layer_index : nat) (fr : locals) (line : string)
  : result (locals * string) :=
  if is_motion line then
    let cx := getValue line "X" in
    let cy := getValue line "Y" in
    let cz := getValue line "Z" in
    let xi := match cx with Some v => v | None => Int 0 end in
    let yi := match cy with Some v => v | None => Int 0 end in
    let zi := match cz with Some v => v | None => z_input fr end in
    x1 <- shear xi yi (xy _calculated_factors) ;;
    x2 <- shear (Float (round x1 3)) zi (xz _calculated_factors) ;;
    y1 <- shear yi zi (yz _calculated_factors) ;;
    let xo := round x2 3 in
    let yo := round y1 3 in
    let fr' := mk_locals zi cx cy cz (Some xi) (Some yi) (Some xo) (Some yo) in
    if (layer_index <? 2)%nat then Ok (fr', line)
    else
      let line1 := match cx with
                   | Some v => replace line ("X" ++ str v) ("X" ++ repr_float xo)
                   | None => line
                   end in
      let line2 := match cy with
                   | Some v => replace line1 ("Y" ++ str v) ("Y" ++ repr_float yo)
                   | None => line1
                   end in
      Ok (fr', line2)
  else Ok (fr, line).

(** The inner loop over the lines of one layer. *)
Fixpoint process_lines (layer_index : nat) (fr : locals) (lines : list string)
  : result (locals * list string) :=
  match lines with
  | [] => Ok (fr, [])
  | line :: rest =>
      r <- process_line layer_index fr line ;;
      let (fr1, line') := r in
      r' <- process_lines layer_index fr1 rest ;;
      let (fr2, rest') := r' in
      Ok (fr2, line' :: rest')
  end.

(** The outer loop from layer [layer_index] on.  A layer is written back
    to the list once all its lines are done, so when an exception escapes
    the layers before it are rewritten and the rest is as it was.  The
    result is the list as the loop leaves it, and the final locals or the
    exception. *)
Fixpoint process_layers (layer_index : nat) (fr : locals) (cura_data : list string)
  : list string * result locals :=
  match cura_data with
  | [] => ([], Ok fr)
  | layer :: rest =>
      match process_lines layer_index fr (split_lines layer) with
      | Raise e => (layer :: rest, Raise e)
      | Ok (fr', lines) =>
          let (rest', r) := process_layers (S layer_index) fr' rest in
          (join_lines lines :: rest', r)
      end
  end.

(** [cura_compensation]: the document as the call leaves it, and how the
    call ended. *)
Definition cura_compensation (cura_data : list string) : list string * outcome :=
  let (doc, r) := process_layers 0 initial_locals cura_data in
  (doc, match r with Ok _ => Returned | Raise e => Raised e end).

(** *** The Z cursor on its own

    What the specification says of it: it changes only where a motion line
    carries a Z, and is otherwise kept, through lines and layers alike. *)
Definition track_z (z : number) (line : string) : number :=
  if is_motion line
  then match getValue line "Z" with Some v => v | None => z end
  else z.

Definition tracked_z (z : number) (lines : list string) : number :=
  fold_left track_z lines z.

(** The operands of a motion line: [x_input] and [y_input] as the lines
    352-359 set them, [z_input] as the lines 360-361 leave it. *)
Definition line_x (line : string) : number :=
  match getValue line "X" with Some v => v | None => Int 0 end.

Definition line_y (line : string) : number :=
  match getValue line "Y" with Some v => v | None => Int 0 end.

Definition line_z (z : number) (line : string) : number :=
  match getValue line "Z" with Some v => v | None => z end.

(** *** Lines the arithmetic goes through on

    The subtractions and products of a motion line convert their int
    operands to floats, which fails with [OverflowError] for an int beyond
    the range of a float.  A line is gone through when its three operands
    convert: its X and Y (or [0]), and its Z or else the cumulative one. *)
Definition numbers_convert (z : number) (line : string) : bool :=
  if is_motion line
  then converts (line_x line) && converts (line_y line) && converts (line_z z line)
  else true.

Fixpoint lines_convert (z : number) (lines : list string) : bool :=
  match lines with
  | [] => true
  | line :: rest => numbers_convert z line && lines_convert (track_z z line) rest
  end.

(** *** The document after the compensation

    What the amended claims say of the text that comes out. *)

(** The corrected coordinates of a motion line, [z] being the cumulative
    z before it. *)
Definition corrected (z : number) (line : string) : option (float * float) :=
  match to_float (line_x line), to_float (line_y line),
        to_float (line_z z line) with
  | Ok x, Ok y, Ok z =>
      Some (round (round (x - y * xy _calculated_factors) 3 - z * xz _calculated_factors) 3,
            round (y - z * yz _calculated_factors) 3)%float
  | _, _, _ => None
  end.

(** The text of a line with [xo] and [yo] written into it: every
    occurrence of ["X" + str(cur_x)] replaced when the line has an X, then
    every occurrence of ["Y" + str(cur_y)] when it has a Y. *)
Definition rewritten (line : string) (xo yo : float) : string :=
  let line1 := match getValue line "X" with
               | Some v => replace line ("X" ++ str v) ("X" ++ repr_float xo)
               | None => line
               end in
  match getValue line "Y" with
  | Some v => replace line1 ("Y" ++ str v) ("Y" ++ repr_float yo)
  | None => line1
  end.

(** A line as it comes out: rewritten when it starts with [G0] or [G1] in
    a layer of index 2 or more, else as it went in. *)
Definition expected_line (layer_index : nat) (z : number) (line : string) : string :=
  if is_motion line && (2 <=? layer_index)%nat then
    match corrected z line with
    | Some (xo, yo) => rewritten line xo yo
    | None => line
    end
  else line.

(** The numbers of the lines are finite: what [lines_convert] asks, and
    no infinity or nan. *)
Definition numbers_finite (z : number) (line : string) : bool :=
  if is_motion line
  then is_finite_number (line_x line) && is_finite_number (line_y line) &&
       is_finite_number (line_z z line)
  else true.

Fixpoint lines_finite (z : number) (lines : list string) : bool :=
  match lines with
  | [] => true
  | line :: rest => numbers_finite z line && lines_finite (track_z z line) rest
  end.
End Script.

(** The lines of a document, in the order the loops meet them. *)
Definition all_lines (cura_data : list string) : list string :=
  List.concat (List.map split_lines cura_data).

(** The cumulative z before the line [j] of the layer [i]: the Z of the
    last motion line before it that has one, [0] when there is none. *)
Definition z_before (getValue : string -> string -> option number)
    (cura_data : list string) (i j : nat) : number :=
  tracked_z getValue (Int 0)
    (all_lines (firstn i cura_data) ++ firstn j (split_lines (nth i cura_data "")))%list.

(** *** The host's [getValue]

    [Script.getValue] belongs to the host application.  This is its text
    there: the key must occur, before any [;]; the number is what the
    regular expression [^-?[0-9]+\.?[0-9]*] matches right after the key,
    read by [int()] and, failing that, by [float()]. *)

(** The leading decimal digits of [s]: their value, their count, the rest. *)
Fixpoint span_digits (s : string) (acc : Z) (count : nat) : Z * nat * string :=
  match s with
  | String c s' =>
      let n := nat_of_ascii c in
      if ((48 <=? n) && (n <=? 57))%nat
      then span_digits s' (10 * acc + Z.of_nat (n - 48))%Z (S count)
      else (acc, count, s)
  | EmptyString => (acc, count, s)
  end.

Definition host_getValue (line key : string) : option number :=
  match find line key with
  | None => None
  | Some k =>
      let in_comment := match find line ";" with
                        | Some c => (c <? k)%nat
                        | None => false
                        end in
      if in_comment then None
      else
        let sub_part := drop (k + 1) line in
        let (neg, body) := match sub_part with
                           | String "-" s' => (true, s')
                           | _ => (false, sub_part)
                           end in
        let '(ip, ni, rest) := span_digits body 0 0 in
        match ni with
        | O => None
        | S _ =>
            match rest with
            | String "." rest' =>
                let '(fp, nf, _) := span_digits rest' 0 0 in
                Some (Float (nearest_float neg (ip * 10 ^ Z.of_nat nf + fp) (10 ^ Z.of_nat nf)))
            | _ => Some (Int (if neg then - ip else ip))
            end
        end
  end.

(** The count of characters after the decimal point of a numeral
    ([None] when it has no point). *)
Definition fraction_digits (s : string) : option nat :=
  match find s "." with
  | Some k => Some (String.length s - k - 1)%nat
  | None => None
  end.

(** A small C library for the runs below: the Taylor polynomials of
    degree three of [acos] and [tan] about zero. *)
Definition acos_3 (x : float) : float := (math_pi / 2 - (x + x * x * x / 6))%float.
Definition tan_3 (x : float) : float := (x + x * x * x / 3)%float.

(** Factors and documents for the runs below. *)
Definition no_skew : factors := mk_factors 0 0 0.
Definition some_skew : factors := mk_factors 0.01 0.002 (-0.003).


Fixpoint nines (n : nat) : string :=
  match n with O => EmptyString | S k => String "9" (nines k) end.

(** A move whose Y has four hundred digits before the point. *)
Definition huge_y_line : string := "G1 X1 Y" ++ nines 400 ++ ".5".

(** A document whose third layer has a move, a [G10] line and a line
    that is no move. *)
Definition sample_layer : string :=
  "G1 X10.50 Y1 Z5" ++ newline ++ "G10 P1 X5 Y5" ++ newline ++ "M104 S200".

Definition sample_document : list string := [";start"; ";skirt"; sample_layer].

(** *** The settings and the factors computed from them *)

(** A value of the settings: the defaults hold bools, floats and strings,
    a configuration file read by [configparser] strings only. *)
Inductive value : Set :=
| VBool (b : bool)
| VFloat (f : float)
| VStr (s : string).

(** The settings, a [dict] with string keys. *)
Definition dict : Set := list (string * value).

(** [d.get(key)]. *)
Fixpoint get (d : dict) (key : string) : option value :=
  match d with
  | [] => None
  | (k, v) :: rest => if k =? key then Some v else get rest key
  end.

(** [str(v)] of what [get] returned, as an f-string writes it. *)
Definition str_of_value (v : option value) : string :=
  match v with
  | None => "None"
  | Some (VBool b) => if b then "True" else "False"
  | Some (VFloat f) => repr_float f
  | Some (VStr s) => s
  end.

Definition _get_default_settings : dict :=
  [ ("compensation_enabled", VBool false);
    ("compensation_method", VStr "none");
    ("marlin_add_to_gcode", VBool false);
    ("klipper_add_to_gcode", VBool false);
    ("xy_ac_measurement", VFloat 141.42);
    ("xy_bd_measurement", VFloat 141.42);
    ("xy_ad_measurement", VFloat 100.0);
    ("xz_ac_measurement", VFloat 141.42);
    ("xz_bd_measurement", VFloat 141.42);
    ("xz_ad_measurement", VFloat 100.0);
    ("yz_ac_measurement", VFloat 141.42);
    ("yz_bd_measurement", VFloat 141.42);
    ("yz_ad_measurement", VFloat 100.0);
    ("pp_script_checkbox_state", VBool false) ].

(** The attributes of the script object that [execute] reads and writes. *)
Record script : Set := mk_script {
  _plugin_enabled : option bool;
  _settings_source : option string;
  _plugin_settings : dict;
  found_in_configuration : bool;
  _calculated_factors : factors
}.

(** [__init__]. *)
Definition init : script :=
  mk_script None None _get_default_settings false (mk_factors 0 0 0).

(** [get_float_setting]: [None] for a missing key and for a string that
    is not a number. *)
Definition get_float_setting (settings : dict) (key_name : string) : option float :=
  match get settings key_name with
  | None => None
  | Some (VFloat f) => Some f
  | Some (VBool b) => Some (if b then 1 else 0)%float
  | Some (VStr s) => float_of_str s
  end.

(** Lines 105-109: the truth of [compensation_enabled]. *)
Definition compensation_enabled (settings : dict) : bool :=
  match get settings "compensation_enabled" with
  | None => false
  | Some (VStr s) => str_lower s =? "true"
  | Some (VBool b) => b
  | Some (VFloat f) => negb (f =? 0)%float
  end.

(** Lines 157-158 and 180-181: the later planes set the source only when
    it is ["configuration"] or [None]. *)
Definition later_source (source : option string) : option string :=
  match source with
  | Some src => if src =? "configuration" then Some "configuration (calculated)" else source
  | None => Some "configuration (calculated)"
  end.

(** The three lines of the appended comment that belong to one plane. *)
Definition plane_lines (settings : dict) (plane label : string) (factor : float) : string :=
  let measurement (name : string) :=
    ";    " ++ plane ++ name ++ ": " ++ str_of_value (get settings (plane ++ name)) ++ newline in
  measurement "_ac_measurement" ++ measurement "_bd_measurement" ++
  measurement "_ad_measurement" ++
  ";        " ++ label ++ " skew factor:    " ++ repr_float (round factor 8) ++ newline.

(** [setting_string] (lines 286-300). *)
Definition setting_string (self : script) : string :=
  ";  Print Skew Compensation Settings:" ++ newline ++
  plane_lines (_plugin_settings self) "xy" "XY" (xy (_calculated_factors self)) ++
  plane_lines (_plugin_settings self) "xz" "XZ" (xz (_calculated_factors self)) ++
  plane_lines (_plugin_settings self) "yz" "YZ" (yz (_calculated_factors self)).

(** How [execute] ends: it returns, [data[0]] fails on an empty list, or
    an exception of the arithmetic escapes. *)
Inductive ending : Set :=
| Done
| IndexError
| Escaped (e : exn).

Section Execute.

Variable acos tan : float -> float.
Variable getValue : string -> string -> option number.

(** The factor of one plane when its three measurements are there, [None]
    when one is missing or no number. *)
Definition plane_factor (settings : dict) (plane : string) : option float :=
  match get_float_setting settings (plane ++ "_ac_measurement"),
        get_float_setting settings (plane ++ "_bd_measurement"),
        get_float_setting settings (plane ++ "_ad_measurement") with
  | Some ac, Some bd, Some ad => Some (calculate_skew_factor acos tan ac bd ad)
  | _, _, _ => None
  end.

(** [_calculate_factors_from_configuration], [settings] being what
    [_read_printer_settings_from_file] returned for the current printer. *)
Definition _calculate_factors_from_configuration (self : script) (settings : dict) : script :=
  let enabled := compensation_enabled settings in
  let '(f_xy, source, found) :=
    match plane_factor settings "xy" with
    | Some f => (f, Some "configuration (calculated)", true)
    | None => (0%float, _settings_source self, found_in_configuration self)
    end in
  let '(f_xz, source, found) :=
    match plane_factor settings "xz" with
    | Some f => (f, later_source source, true)
    | None => (0%float, source, found)
    end in
  let '(f_yz, source, found) :=
    match plane_factor settings "yz" with
    | Some f => (f, later_source source, true)
    | None => (0%float, source, found)
    end in
  if negb found && enabled then
    mk_script (Some false) source settings found (mk_factors f_xy f_xz f_yz)
  else if negb enabled then
    mk_script (Some enabled) source settings found (mk_factors 0 0 0)
  else
    mk_script (Some enabled) source settings found (mk_factors f_xy f_xz f_yz).

(** [factor != 0]. *)
Definition nonzero (f : float) : bool := negb (f =? 0)%float.

(** [execute], from the calls of the host taken to return:
    [enable_print_skew_comp] is the truth of the script's own setting and
    [settings] what the configuration of the current printer holds.  The
    result is the object, the list [data] as the call leaves it (it is
    changed in place) and how the call ended. *)
Definition execute (self : script) (enable_print_skew_comp : bool) (settings : dict)
    (data : list string) : script * list string * ending :=
  match _plugin_enabled self with
  | Some false => (self, data, Done)
  | _ =>
      match data with
      | [] => (self, data, IndexError)
      | first :: rest =>
          if negb enable_print_skew_comp then
            (self,
             (first ++ ";[Print Skew Compensation] not enabled via script setting" ++ newline)
               :: rest,
             Done)
          else if contains first ";POSTPROCESSED" then (self, data, Done)
          else
            let self := _calculate_factors_from_configuration self settings in
            let F := _calculated_factors self in
            if found_in_configuration self && (nonzero (xy F) || nonzero (xz F) || nonzero (yz F))
            then
              let note :=
                ";  [Print Skew Compensation] Applying skew compensation using values from: " ++
                match _settings_source self with Some src => src | None => "None" end ++
                newline in
              match cura_compensation getValue F ((first ++ note) :: rest) with
              | (data, Returned) => (self, (data ++ [setting_string self])%list, Done)
              | (data, Raised e) => (self, data, Escaped e)
              end
            else (self, data, Done)
      end
  end.

End Execute.

(** *** The name of a printer's configuration file *)

(** [[a-zA-Z0-9._-]]. *)
Definition is_name_char (c : ascii) : bool :=
  let n := nat_of_ascii c in
  ((97 <=? n) && (n <=? 122) || (65 <=? n) && (n <=? 90) || (48 <=? n) && (n <=? 57) ||
   (n =? 46) || (n =? 95) || (n =? 45))%nat.

(** [re.sub(r'[^a-zA-Z0-9._-]', '_', s)]. *)
Fixpoint sub_other_chars (s : string) : string :=
  match s with
  | EmptyString => EmptyString
  | String c s' => String (if is_name_char c then c else "_"%char) (sub_other_chars s')
  end.

(** [re.sub(r'_+', '_', s)]. *)
Fixpoint sub_underscores (s : string) : string :=
  match s with
  | EmptyString => EmptyString
  | String c s' =>
      if Ascii.eqb c "_" then
        match s' with
        | String d _ =>
            if Ascii.eqb d "_" then sub_underscores s' else String c (sub_underscores s')
        | EmptyString => String c EmptyString
        end
      else String c (sub_underscores s')
  end.

(** Lines 78-79. *)
Definition safe_name (printer_name : string) : string :=
  strip_char "_" (sub_underscores (sub_other_chars printer_name)).

Section FileName.

(** [hashlib.sha256(s.encode('utf-8')).hexdigest()]. *)
Variable sha256_hexdigest : string -> string.

Definition _sanitized_settings_file_name (printer_name : string) : string :=
  safe_name printer_name ++ "_" ++ take 8 (sha256_hexdigest printer_name) ++ ".cfg".

End FileName.

(** The number of lines of each layer. *)
Definition line_counts (cura_data : list string) : list nat :=
  map (fun layer => List.length (split_lines layer)) cura_data.

(** *** What the properties say of a file name *)

(** No two [_] in a row. *)
Fixpoint no_underscore_run (s : string) : bool :=
  match s with
  | String c (String d _ as t) => negb (Ascii.eqb c "_" && Ascii.eqb d "_") && no_underscore_run t
  | _ => true
  end.

(** The last character of [s] is [c]. *)
Fixpoint last_is (c : ascii) (s : string) : bool :=
  match s with
  | EmptyString => false
  | String d EmptyString => Ascii.eqb d c
  | String _ t => last_is c t
  end.

(** Settings that enable the compensation, with the measurements of a
    skewed XY plane. *)
Definition skewed_settings : dict :=
  [ ("compensation_enabled", VStr "True");
    ("xy_ac_measurement", VStr "141.5");
    ("xy_bd_measurement", VStr "141.3");
    ("xy_ad_measurement", VStr "100.0") ].

End PrintSkewCompensationCKM.

(** ** MeasurementDialogUI.py *)

Module MeasurementDialogUI.

Local Open Scope string_scope.

(** One value per input field, in the order of [measurement_inputs]. *)
Record measurements (A : Type) : Type := mk_measurements {
  xy_ac : A; xy_bd : A; xy_ad : A;
  xz_ac : A; xz_bd : A; xz_ad : A;
  yz_ac : A; yz_bd : A; yz_ad : A
}.
Arguments mk_measurements {A}.
Arguments xy_ac {A}.
Arguments xy_bd {A}.
Arguments xy_ad {A}.
Arguments xz_ac {A}.
Arguments xz_bd {A}.
Arguments xz_ad {A}.
Arguments yz_ac {A}.
Arguments yz_bd {A}.
Arguments yz_ad {A}.

(** One turn of the loop of [_get_input_values] (lines 238-244): [None]
    stands for the [ValueError] that the function turns into [None]. *)
Definition input_value (key text : string) : option float :=
  let text := strip text in
  if text =? "" then None
  else
    match float_of_str text with
    | None => None
    | Some value => if endswith key "_ad" && (value <=? 0)%float then None else Some value
    end.

(** [_get_input_values], [texts] being the texts of the nine fields. *)
Definition _get_input_values (texts : measurements string) : option (measurements float) :=
  match input_value "xy_ac" (xy_ac texts), input_value "xy_bd" (xy_bd texts),
        input_value "xy_ad" (xy_ad texts), input_value "xz_ac" (xz_ac texts),
        input_value "xz_bd" (xz_bd texts), input_value "xz_ad" (xz_ad texts),
        input_value "yz_ac" (yz_ac texts), input_value "yz_bd" (yz_bd texts),
        input_value "yz_ad" (yz_ad texts) with
  | Some a, Some b, Some c, Some d, Some e, Some f, Some g, Some h, Some i =>
      Some (mk_measurements a b c d e f g h i)
  | _, _, _, _, _, _, _, _, _ => None
  end.

(** How [_on_accept] ends. *)
Inductive accept : Set :=
| Accepted
| Prevented
| Failed (e : exn).

Section Dialog.

Variable pow_2 : float -> float.

(** [set_measurements] with the nine values of the dialog. *)
Definition set_values (calculator : SkewCalculator.t) (values : measurements float)
  : SkewCalculator.t * outcome :=
  SkewCalculator.set_measurements pow_2 calculator
    (SkewCalculator.PyFloat (xy_ac values)) (SkewCalculator.PyFloat (xy_bd values))
    (SkewCalculator.PyFloat (xy_ad values)) (SkewCalculator.PyFloat (xz_ac values))
    (SkewCalculator.PyFloat (xz_bd values)) (SkewCalculator.PyFloat (xz_ad values))
    (SkewCalculator.PyFloat (yz_ac values)) (SkewCalculator.PyFloat (yz_bd values))
    (SkewCalculator.PyFloat (yz_ad values)).

(** [_calculate_and_update_display]: the dialog's own calculator after the
    call, and the result.  Any exception of the calculation or of the
    commands is caught and gives [False]; the labels are taken to accept
    their texts. *)
Definition _calculate_and_update_display (_calculator : SkewCalculator.t)
    (texts : measurements string) : SkewCalculator.t * bool :=
  match _get_input_values texts with
  | None => (_calculator, false)
  | Some values =>
      match set_values _calculator values with
      | (calculator, Returned) =>
          let marlin_cmd := SkewCalculator.get_marlin_command calculator in
          match SkewCalculator.get_klipper_command calculator with
          | Ok klipper_cmd => (calculator, true)
          | Raise _ => (calculator, false)
          end
      | (calculator, Raised _) => (calculator, false)
      end
  end.

(** [_on_accept]: the dialog's calculator, the controller's calculator
    ([None] when there is no controller) and how the call ends. *)
Definition _on_accept (_calculator : SkewCalculator.t)
    (_skew_calculator : option SkewCalculator.t) (texts : measurements string)
  : SkewCalculator.t * option SkewCalculator.t * accept :=
  match _calculate_and_update_display _calculator texts with
  | (calculator, true) =>
      match _get_input_values texts with
      | Some values =>
          match _skew_calculator with
          | Some controller =>
              match set_values controller values with
              | (controller, Returned) => (calculator, Some controller, Accepted)
              | (controller, Raised e) => (calculator, Some controller, Failed e)
              end
          | None => (calculator, None, Accepted)
          end
      | None => (calculator, _skew_calculator, Prevented)
      end
  | (calculator, false) => (calculator, _skew_calculator, Prevented)
  end.

End Dialog.

End MeasurementDialogUI.

(** ** PluginController.py *)

Module PluginController.

Local Open Scope string_scope.

(** The attributes of the controller that decide the start G-code. *)
Record t : Set := mk {
  enabled : bool;
  method : string;
  marlin_add_to_gcode : bool;
  klipper_add_to_gcode : bool;
  pp_script_checkbox_state : bool;
  _skew_calculator : SkewCalculator.t
}.

Definition set_enabled (self : t) (v : bool) : t :=
  mk v (method self) (marlin_add_to_gcode self) (klipper_add_to_gcode self)
    (pp_script_checkbox_state self) (_skew_calculator self).

Definition set_method (self : t) (v : string) : t :=
  mk (enabled self) v (marlin_add_to_gcode self) (klipper_add_to_gcode self)
    (pp_script_checkbox_state self) (_skew_calculator self).

Definition set_marlin_add_to_gcode (self : t) (v : bool) : t :=
  mk (enabled self) (method self) v (klipper_add_to_gcode self)
    (pp_script_checkbox_state self) (_skew_calculator self).

Definition set_klipper_add_to_gcode (self : t) (v : bool) : t :=
  mk (enabled self) (method self) (marlin_add_to_gcode self) v
    (pp_script_checkbox_state self) (_skew_calculator self).

Definition set_pp_script_checkbox_state (self : t) (v : bool) : t :=
  mk (enabled self) (method self) (marlin_add_to_gcode self) (klipper_add_to_gcode self)
    v (_skew_calculator self).

(** [_sync_gcode_based_on_state], the start G-code of the stack being
    [current_start_gcode]: what [sync_start_gcode] sets. *)
Definition _sync_gcode_based_on_state (self : t) (current_start_gcode : option string)
  : option string :=
  let '(effective_method, add_marlin, add_klipper) :=
    if enabled self then
      if (method self =? "marlin") && marlin_add_to_gcode self then (method self, true, false)
      else if (method self =? "klipper") && klipper_add_to_gcode self
           then (method self, false, true)
           else (method self, false, false)
    else ("none", false, false) in
  GCodeManager.sync_start_gcode current_start_gcode (_skew_calculator self)
    effective_method add_marlin add_klipper.

(** The call of [sync_start_gcode] in [_on_dialog_settings_saved]
    (lines 526-534). *)
Definition _on_dialog_settings_saved (self : t) (current_start_gcode : option string)
  : option string :=
  if enabled self then
    GCodeManager.sync_start_gcode current_start_gcode (_skew_calculator self)
      (method self) (marlin_add_to_gcode self) (klipper_add_to_gcode self)
  else
    GCodeManager.sync_start_gcode current_start_gcode (_skew_calculator self)
      "none" false false.

(** *** The requests of the menu dialog

    The host's part in them: whether the menu dialog is open, and whether
    a call of [_ensure_pp_script_state] finds the post-processing plugin
    without the script, neither in its active list nor among its loaded
    scripts.  The other calls of the host (messages, the list of active
    scripts, the file of the settings) are taken to return; they leave the
    controller as it is. *)

Section Requests.

(** [self._plugin_menu_dialog_instance] is set. *)
Variable menu_open : bool.

(** The script is missing at the call of [_ensure_pp_script_state] in the
    handler, respectively at the one in
    [_update_plugin_menu_dialog_state]. *)
Variable missing_at_request missing_at_update : bool.

(** [_ensure_pp_script_state] (lines 342-388), as far as the controller
    goes: the one attribute it sets is [method], at line 374, when the
    script is to be added and is not loaded. *)
Definition _ensure_pp_script_state (script_missing : bool) (self : t) (target_state : bool) : t :=
  if target_state && script_missing then set_method self "none" else self.

(** [_update_plugin_menu_dialog_state] (lines 307-325): the controller,
    what [sync_start_gcode] sets ([None] for nothing) and how the call
    ended.  The two commands are made before anything else, outside any
    [try]. *)
Definition _update_plugin_menu_dialog_state (self : t) (current_start_gcode : option string)
  : t * option string * outcome :=
  if menu_open then
    let marlin_command := SkewCalculator.get_marlin_command (_skew_calculator self) in
    match SkewCalculator.get_klipper_command (_skew_calculator self) with
    | Raise e => (self, None, Raised e)
    | Ok klipper_command =>
        let pp_script_active :=
          enabled self && (method self =? "postprocessing") && pp_script_checkbox_state self in
        let self := _ensure_pp_script_state missing_at_update self pp_script_active in
        (self, _sync_gcode_based_on_state self current_start_gcode, Returned)
    end
  else (self, None, Returned).

(** [_save_current_settings] (lines 204-226): the update of the menu
    dialog, then the file. *)
Definition _save_current_settings (self : t) (current_start_gcode : option string)
  : t * option string * outcome :=
  _update_plugin_menu_dialog_state self current_start_gcode.

(** [_handle_add_marlin_gcode_request] (lines 413-442). *)
Definition _handle_add_marlin_gcode_request (self : t) (enable : bool)
    (current_start_gcode : option string) : t * option string * outcome :=
  let self :=
    if negb (enabled self) then self
    else if enable then
      let self := set_method self "marlin" in
      let self := set_marlin_add_to_gcode self true in
      let self := set_klipper_add_to_gcode self false in
      let self := _ensure_pp_script_state missing_at_request self false in
      set_pp_script_checkbox_state self false
    else
      let self := set_method self "none" in
      let self := set_marlin_add_to_gcode self false in
      let self := set_klipper_add_to_gcode self false in
      let self := _ensure_pp_script_state missing_at_request self false in
      set_pp_script_checkbox_state self false in
  _save_current_settings self current_start_gcode.

(** [_handle_add_klipper_gcode_request] (lines 445-472). *)
Definition _handle_add_klipper_gcode_request (self : t) (enable : bool)
    (current_start_gcode : option string) : t * option string * outcome :=
  let self :=
    if negb (enabled self) then self
    else if enable then
      let self := set_method self "klipper" in
      let self := set_marlin_add_to_gcode self false in
      let self := set_klipper_add_to_gcode self true in
      let self := _ensure_pp_script_state missing_at_request self false in
      set_pp_script_checkbox_state self false
    else
      let self := set_method self "none" in
      let self := set_marlin_add_to_gcode self false in
      let self := set_klipper_add_to_gcode self false in
      let self := _ensure_pp_script_state missing_at_request self false in
      set_pp_script_checkbox_state self false in
  _save_current_settings self current_start_gcode.

(** [_handle_toggle_post_processing_script] (lines 475-500). *)
Definition _handle_toggle_post_processing_script (self : t) (enable : bool)
    (current_start_gcode : option string) : t * option string * outcome :=
  let self :=
    if negb (enabled self) then self
    else if enable then
      let self := set_method self "postprocessing" in
      let self := set_marlin_add_to_gcode self false in
      let self := set_klipper_add_to_gcode self false in
      let self := set_pp_script_checkbox_state self true in
      _ensure_pp_script_state missing_at_request self true
    else
      let self := set_method self "none" in
      let self := set_marlin_add_to_gcode self false in
      let self := set_klipper_add_to_gcode self false in
      let self := _ensure_pp_script_state missing_at_request self false in
      set_pp_script_checkbox_state self false in
  _save_current_settings self current_start_gcode.

(** [_handle_enable_compensation_toggle] (lines 502-504). *)
Definition _handle_enable_compensation_toggle (self : t) (enable : bool)
    (current_start_gcode : option string) : t * option string * outcome :=
  _save_current_settings (set_enabled self enable) current_start_gcode.

(** The four requests of the menu dialog, and the handler of each. *)
Inductive request : Set :=
| AddMarlin (enable : bool)
| AddKlipper (enable : bool)
| TogglePostProcessing (enable : bool)
| EnableCompensation (enable : bool).

Definition handle (self : t) (r : request) (current_start_gcode : option string)
  : t * option string * outcome :=
  match r with
  | AddMarlin enable => _handle_add_marlin_gcode_request self enable current_start_gcode
  | AddKlipper enable => _handle_add_klipper_gcode_request self enable current_start_gcode
  | TogglePostProcessing enable =>
      _handle_toggle_post_processing_script self enable current_start_gcode
  | EnableCompensation enable =>
      _handle_enable_compensation_toggle self enable current_start_gcode
  end.

End Requests.

(** The command that belongs in the start G-code for the state of the
    controller, [None] for none. *)
Definition active_command (self : t) (klipper_command : string) : option string :=
  if enabled self then
    GCodeManager.command_to_ensure
      (SkewCalculator.get_marlin_command (_skew_calculator self)) klipper_command
      (method self) (marlin_add_to_gcode self) (klipper_add_to_gcode self)
  else None.

(** *** The state read from the configuration

    The settings are the [dict] of the script: the defaults hold bools,
    floats and strings, a file read by [configparser] strings only. *)

Definition _get_default_settings : PrintSkewCompensationCKM.dict :=
  [ ("compensation_enabled", PrintSkewCompensationCKM.VBool false);
    ("compensation_method", PrintSkewCompensationCKM.VStr "none");
    ("marlin_add_to_gcode", PrintSkewCompensationCKM.VBool false);
    ("klipper_add_to_gcode", PrintSkewCompensationCKM.VBool false);
    ("xy_ac_measurement", PrintSkewCompensationCKM.VFloat 141.42);
    ("xy_bd_measurement", PrintSkewCompensationCKM.VFloat 141.42);
    ("xy_ad_measurement", PrintSkewCompensationCKM.VFloat 100.0);
    ("xz_ac_measurement", PrintSkewCompensationCKM.VFloat 141.42);
    ("xz_bd_measurement", PrintSkewCompensationCKM.VFloat 141.42);
    ("xz_ad_measurement", PrintSkewCompensationCKM.VFloat 100.0);
    ("yz_ac_measurement", PrintSkewCompensationCKM.VFloat 141.42);
    ("yz_bd_measurement", PrintSkewCompensationCKM.VFloat 141.42);
    ("yz_ad_measurement", PrintSkewCompensationCKM.VFloat 100.0);
    ("pp_script_checkbox_state", PrintSkewCompensationCKM.VBool false) ].

(** [d.get(key, default)]. *)
Definition get_default (d : PrintSkewCompensationCKM.dict) (key : string)
    (default : PrintSkewCompensationCKM.value) : PrintSkewCompensationCKM.value :=
  match PrintSkewCompensationCKM.get d key with
  | Some v => v
  | None => default
  end.

(** [get_typed_value] (lines 148-173).  A string is read as the type of
    the default, and gives the default when [float] rejects it; a value of
    the type of the default is returned as it is; any other is cast with
    [bool()], [float()] or [str()], none of which raises here. *)
Definition get_typed_value (current_settings_source : PrintSkewCompensationCKM.dict)
    (key_name : string) (default_typed_value_from_schema : PrintSkewCompensationCKM.value)
  : PrintSkewCompensationCKM.value :=
  let value_from_source :=
    get_default current_settings_source key_name default_typed_value_from_schema in
  match value_from_source, default_typed_value_from_schema with
  | PrintSkewCompensationCKM.VStr s, PrintSkewCompensationCKM.VBool _ =>
      PrintSkewCompensationCKM.VBool (str_lower s =? "true")
  | PrintSkewCompensationCKM.VStr s, PrintSkewCompensationCKM.VFloat _ =>
      match float_of_str s with
      | Some f => PrintSkewCompensationCKM.VFloat f
      | None => default_typed_value_from_schema
      end
  | PrintSkewCompensationCKM.VStr s, PrintSkewCompensationCKM.VStr _ => value_from_source
  | PrintSkewCompensationCKM.VBool _, PrintSkewCompensationCKM.VBool _ => value_from_source
  | PrintSkewCompensationCKM.VFloat _, PrintSkewCompensationCKM.VFloat _ => value_from_source
  | PrintSkewCompensationCKM.VFloat f, PrintSkewCompensationCKM.VBool _ =>
      PrintSkewCompensationCKM.VBool (negb (f =? 0)%float)
  | PrintSkewCompensationCKM.VBool b, PrintSkewCompensationCKM.VFloat _ =>
      PrintSkewCompensationCKM.VFloat (if b then 1 else 0)%float
  | PrintSkewCompensationCKM.VBool _, PrintSkewCompensationCKM.VStr _
  | PrintSkewCompensationCKM.VFloat _, PrintSkewCompensationCKM.VStr _ =>
      PrintSkewCompensationCKM.VStr
        (PrintSkewCompensationCKM.str_of_value (Some value_from_source))
  end.

(** A value of the settings as a measurement of the calculator; to the
    calculator, which only calls [float()] on it, a bool is the int that
    it is. *)
Definition measurement (v : PrintSkewCompensationCKM.value) : SkewCalculator.obj :=
  match v with
  | PrintSkewCompensationCKM.VFloat f => SkewCalculator.PyFloat f
  | PrintSkewCompensationCKM.VStr s => SkewCalculator.PyStr s
  | PrintSkewCompensationCKM.VBool b => SkewCalculator.PyInt (if b then 1 else 0)
  end.

(** What [_update_internal_state_from_printer_config] assigns: the five
    attributes, and the calculator with how its [set_measurements] ended. *)
Record assigned : Set := mk_assigned {
  new_enabled : PrintSkewCompensationCKM.value;
  new_method : PrintSkewCompensationCKM.value;
  new_marlin_add_to_gcode : PrintSkewCompensationCKM.value;
  new_klipper_add_to_gcode : PrintSkewCompensationCKM.value;
  new_pp_script_checkbox_state : PrintSkewCompensationCKM.value;
  new_skew_calculator : SkewCalculator.t * outcome
}.

(** [_update_internal_state_from_printer_config] (lines 147-201),
    [current_settings_source] being the defaults when no printer is
    selected and else what [_read_printer_settings_from_file] returned.
    The default of a key is [default_settings[key_name]]; the fourteen
    keys are all in the defaults. *)
Definition _update_internal_state_from_printer_config (pow_2 : float -> float)
    (_skew_calculator : SkewCalculator.t)
    (current_settings_source : PrintSkewCompensationCKM.dict) : assigned :=
  let default_settings := _get_default_settings in
  let typed (key_name : string) :=
    get_typed_value current_settings_source key_name
      (get_default default_settings key_name (PrintSkewCompensationCKM.VStr "")) in
  mk_assigned
    (typed "compensation_enabled") (typed "compensation_method")
    (typed "marlin_add_to_gcode") (typed "klipper_add_to_gcode")
    (typed "pp_script_checkbox_state")
    (SkewCalculator.set_measurements pow_2 _skew_calculator
       (measurement (typed "xy_ac_measurement")) (measurement (typed "xy_bd_measurement"))
       (measurement (typed "xy_ad_measurement")) (measurement (typed "xz_ac_measurement"))
       (measurement (typed "xz_bd_measurement")) (measurement (typed "xz_ad_measurement"))
       (measurement (typed "yz_ac_measurement")) (measurement (typed "yz_bd_measurement"))
       (measurement (typed "yz_ad_measurement"))).

(** A controller with the Marlin command switched on, and one with the
    compensation disabled; their calculator is a new one. *)
Definition marlin_on : t :=
  mk true "marlin" true false false (fst (SkewCalculator.init SkewCalculator.square)).

Definition switched_off : t :=
  mk false "marlin" true false false (fst (SkewCalculator.init SkewCalculator.square)).

End PluginController.

(** * Properties *)

(** ** Comparisons of floats *)

Lemma eqb_leb (x y : float) : (x =? y)%float = true -> (x <=? y)%float = true.
Proof.
  rewrite FloatAxioms.eqb_spec, leb_spec. unfold SFeqb, SFleb.
  destruct (SFcompare (Prim2SF x) (Prim2SF y)) as [[ | | ]|]; congruence.
Qed.

(** ** The quarter formula of SkewCalculator *)

Section CalculatorProperties.

Import SkewCalculator.

Variable pow_2 : float -> float.

Lemma pow2_cases (x : float) :
  pow2 pow_2 x = Ok (sq pow_2 x) \/ pow2 pow_2 x = Raise OverflowError.
Proof.
  unfold pow2. destruct (is_finite x && is_infinity (sq pow_2 x)); auto.
Qed.

(** The quotient of the formula, once the three values are floats. *)
Lemma quarter_cases (AC BD AD : float) :
  quarter pow_2 AC BD AD = Raise OverflowError \/
  quarter pow_2 AC BD AD =
    (if (4 * sq pow_2 AD =? 0)%float then Raise ZeroDivisionError
     else Ok ((sq pow_2 AC - sq pow_2 BD) / (4 * sq pow_2 AD))%float).
Proof.
  unfold quarter.
  destruct (pow2_cases AC) as [-> | ->]; [ | now left ].
  destruct (pow2_cases BD) as [-> | ->]; [ | now left ].
  destruct (pow2_cases AD) as [-> | ->]; [ | now left ].
  right. reflexivity.
Qed.

(** A block that stores a factor stores the one the measurements name. *)
Lemma try_except_body_I (ac bd ad : obj) (f : float) :
  try_except (body_I pow_2 ac bd ad) = Ok f -> f = quarter_factor pow_2 ac bd ad.
Proof.
  unfold body_I, quarter_factor.
  destruct (py_float ac) as [AC | e1]; simpl;
    [ | destruct (caught e1); congruence ].
  destruct (py_float bd) as [BD | e2]; simpl;
    [ | destruct (caught e2); congruence ].
  destruct (py_float ad) as [AD | e3]; simpl;
    [ | destruct (caught e3); congruence ].
  destruct (AD <=? 0)%float; simpl; [ congruence | ].
  destruct (quarter_cases AC BD AD) as [-> | ->]; simpl; [ congruence | ].
  destruct (4 * sq pow_2 AD =? 0)%float; simpl; congruence.
Qed.

Lemma try_except_body_JK (ac bd ad : obj) (f : float) :
  try_except (body_JK pow_2 ac bd ad) = Ok f -> f = quarter_factor pow_2 ac bd ad.
Proof.
  unfold body_JK, quarter_factor.
  destruct (py_float ac) as [AC | e1]; simpl;
    [ | destruct (caught e1); congruence ].
  destruct (py_float bd) as [BD | e2]; simpl;
    [ | destruct (caught e2); congruence ].
  destruct (py_float ad) as [AD | e3]; simpl;
    [ | destruct (caught e3); congruence ].
  destruct (AD <=? 0)%float eqn:Hle; simpl; [ congruence | ].
  destruct (AD =? 0)%float eqn:Hz; simpl.
  - apply eqb_leb in Hz. congruence.
  - destruct (quarter_cases AC BD AD) as [-> | ->]; simpl; [ congruence | ].
    destruct (4 * sq pow_2 AD =? 0)%float; simpl; congruence.
Qed.

(** One block: [OverflowError] escapes exactly when [overflow_escapes]
    says so, and the factor is else the one [quarter_factor] names. *)
Lemma block_cases (JK : bool) (ac bd ad : obj) :
  try_except (if JK then body_JK pow_2 ac bd ad else body_I pow_2 ac bd ad) =
  if overflow_escapes pow_2 ac bd ad then Raise OverflowError
  else Ok (quarter_factor pow_2 ac bd ad).
Proof.
  assert (Q : forall AC BD AD : float,
            try_except (quarter pow_2 AC BD AD) =
            if square_overflows pow_2 AC || square_overflows pow_2 BD ||
               square_overflows pow_2 AD
            then Raise OverflowError
            else Ok (if (4 * sq pow_2 AD =? 0)%float then 0%float
                     else ((sq pow_2 AC - sq pow_2 BD) / (4 * sq pow_2 AD))%float)).
  { intros AC BD AD. unfold quarter, pow2, square_overflows.
    destruct (is_finite AC && is_infinity (sq pow_2 AC)); [ reflexivity | ].
    destruct (is_finite BD && is_infinity (sq pow_2 BD)); [ reflexivity | ].
    destruct (is_finite AD && is_infinity (sq pow_2 AD)); [ reflexivity | ].
    cbn [bind orb]. unfold truediv.
    destruct (4 * sq pow_2 AD =? 0)%float; reflexivity. }
  unfold overflow_escapes, quarter_factor, body_I, body_JK.
  destruct (py_float ac) as [AC | e1]; [ | destruct JK, e1; reflexivity ].
  destruct (py_float bd) as [BD | e2]; [ | destruct JK, e2; reflexivity ].
  destruct (py_float ad) as [AD | e3]; [ | destruct JK, e3; reflexivity ].
  cbn [bind].
  destruct (AD <=? 0)%float eqn:Hle; [ destruct JK; reflexivity | ].
  cbn [negb andb].
  assert (Hz : (AD =? 0)%float = false).
  { destruct (AD =? 0)%float eqn:Hz; [ | reflexivity ].
    apply eqb_leb in Hz. congruence. }
  rewrite Hz. cbn [negb].
  replace (if JK then quarter pow_2 AC BD AD else quarter pow_2 AC BD AD)
    with (quarter pow_2 AC BD AD) by now destruct JK.
  rewrite Q.
  destruct (square_overflows pow_2 AC || square_overflows pow_2 BD ||
            square_overflows pow_2 AD); reflexivity.
Qed.

(** C2 (as amended).  [calculate_skew_factors] takes the planes in the
    order XY, XZ, YZ.  A plane lets [OverflowError] escape exactly when
    [overflow_escapes] holds of its three stored values: the first of
    [float(ac)], [float(bd)], [float(ad)] that fails is the conversion of
    an int too large, or the three convert, [ad <= 0] does not hold and a
    square overflows.  The call then ends there: the factor of that plane
    and those of the later planes stay as they were.  A plane that is
    reached and lets nothing escape gets the factor [quarter_factor]
    names: [0.0] when a value does not convert, when [ad <= 0] and when
    [4 * ad**2] is zero, the quotient [(ac**2 - bd**2) / (4 * ad**2)]
    otherwise.  The measurements stay as they are. *)
Theorem quarter_formula_planes (self : t) :
  let self' := fst (calculate_skew_factors pow_2 self) in
  let XY := overflow_escapes pow_2 (xy_ac self) (xy_bd self) (xy_ad self) in
  let XZ := overflow_escapes pow_2 (xz_ac self) (xz_bd self) (xz_ad self) in
  let YZ := overflow_escapes pow_2 (yz_ac self) (yz_bd self) (yz_ad self) in
  snd (calculate_skew_factors pow_2 self) =
    (if XY || XZ || YZ then Raised OverflowError else Returned) /\
  marlin_I self' =
    (if XY then marlin_I self
     else quarter_factor pow_2 (xy_ac self) (xy_bd self) (xy_ad self)) /\
  marlin_J self' =
    (if XY || XZ then marlin_J self
     else quarter_factor pow_2 (xz_ac self) (xz_bd self) (xz_ad self)) /\
  marlin_K self' =
    (if XY || XZ || YZ then marlin_K self
     else quarter_factor pow_2 (yz_ac self) (yz_bd self) (yz_ad self)) /\
  (xy_ac self', xy_bd self', xy_ad self') = (xy_ac self, xy_bd self, xy_ad self) /\
  (xz_ac self', xz_bd self', xz_ad self') = (xz_ac self, xz_bd self, xz_ad self) /\
  (yz_ac self', yz_bd self', yz_ad self') = (yz_ac self, yz_bd self, yz_ad self).
Proof.
  intros self' XY XZ YZ. unfold self', calculate_skew_factors.
  rewrite (block_cases false). fold XY.
  destruct XY; [ repeat split | ].
  cbn [set_marlin_I xz_ac xz_bd xz_ad].
  rewrite (block_cases true). fold XZ.
  destruct XZ; [ repeat split | ].
  cbn [set_marlin_J set_marlin_I yz_ac yz_bd yz_ad].
  rewrite (block_cases true). fold YZ.
  destruct YZ; repeat split.
Qed.

(** The first block's factor stays in [marlin_I] whatever the later
    blocks do. *)
Lemma marlin_I_stored (self : t) (i : float) :
  try_except (body_I pow_2 (xy_ac self) (xy_bd self) (xy_ad self)) = Ok i ->
  marlin_I (fst (calculate_skew_factors pow_2 self)) = i.
Proof.
  intros H. unfold calculate_skew_factors. rewrite H. simpl.
  destruct (try_except (body_JK pow_2 (xz_ac self) (xz_bd self) (xz_ad self))); simpl; auto.
  destruct (try_except (body_JK pow_2 (yz_ac self) (yz_bd self) (yz_ad self))); simpl; auto.
Qed.

(** C6 (as amended).  With the XY measurements 150, 130 and 100 (stored as
    ints, floats or strings) and a C library that squares them exactly,
    the factor stored in [marlin_I] is [(150**2 - 130**2) / (4 * 100**2)],
    the float nearest to 0.14. *)
Theorem scenario_150_130_100 (self : t) :
  pow_2 150 = 22500%float -> pow_2 130 = 16900%float -> pow_2 100 = 10000%float ->
  py_float (xy_ac self) = Ok 150%float ->
  py_float (xy_bd self) = Ok 130%float ->
  py_float (xy_ad self) = Ok 100%float ->
  marlin_I (fst (calculate_skew_factors pow_2 self)) = 0.14%float.
Proof.
  intros P150 P130 P100 Hac Hbd Had.
  apply marlin_I_stored.
  unfold body_I. rewrite Hac, Hbd, Had. simpl.
  unfold quarter, pow2, sq. simpl.
  change (abs 150) with 150%float. change (abs 130) with 130%float.
  change (abs 100) with 100%float.
  rewrite P150, P130, P100. reflexivity.
Qed.

(** A call that returns has kept the measurements and stored, plane by
    plane, the factor they name. *)
Lemma calculate_skew_factors_returned (self self' : t) :
  calculate_skew_factors pow_2 self = (self', Returned) ->
  (xy_ac self' = xy_ac self /\ xy_bd self' = xy_bd self /\ xy_ad self' = xy_ad self /\
   xz_ac self' = xz_ac self /\ xz_bd self' = xz_bd self /\ xz_ad self' = xz_ad self /\
   yz_ac self' = yz_ac self /\ yz_bd self' = yz_bd self /\ yz_ad self' = yz_ad self) /\
  consistent pow_2 self'.
Proof.
  unfold calculate_skew_factors, consistent.
  destruct (try_except (body_I pow_2 _ _ _)) as [i | e1] eqn:HI; [ | discriminate ].
  simpl.
  destruct (try_except (body_JK pow_2 (xz_ac self) _ _)) as [j | e2] eqn:HJ; [ | discriminate ].
  simpl.
  destruct (try_except (body_JK pow_2 (yz_ac self) _ _)) as [k | e3] eqn:HK; [ | discriminate ].
  intros H. injection H as <-. simpl.
  apply try_except_body_I in HI. apply try_except_body_JK in HJ.
  apply try_except_body_JK in HK.
  repeat split; assumption.
Qed.

(** C10 (as amended).  After a construction and after every
    [set_measurements] call that returns (no [OverflowError] escapes), the
    object holds the measurements just set and, for each plane, the
    factor [quarter_factor] names for them; [get_skew_factors] and
    [get_marlin_command] give these factors. *)
Theorem factors_follow_measurements :
  (snd (init pow_2) = Returned -> consistent pow_2 (fst (init pow_2))) /\
  (forall (self : t) (a b c d e f g h i : obj),
     snd (set_measurements pow_2 self a b c d e f g h i) = Returned ->
     let self' := fst (set_measurements pow_2 self a b c d e f g h i) in
     let I := quarter_factor pow_2 a b c in
     let J := quarter_factor pow_2 d e f in
     let K := quarter_factor pow_2 g h i in
     consistent pow_2 self' /\
     (xy_ac self', xy_bd self', xy_ad self') = (a, b, c) /\
     (xz_ac self', xz_bd self', xz_ad self') = (d, e, f) /\
     (yz_ac self', yz_bd self', yz_ad self') = (g, h, i) /\
     get_skew_factors self' = (I, J, K) /\
     get_marlin_command self' =
       ("M852 I" ++ format_f I 8 ++ " J" ++ format_f J 8 ++ " K" ++ format_f K 8 ++
        " ; PrintSkewCompensation")%string).
Proof.
  split.
  - unfold init. intros H.
    destruct (calculate_skew_factors pow_2 _) as [self' o] eqn:E.
    simpl in H. subst o.
    apply calculate_skew_factors_returned in E. apply E.
  - intros self a b c d e f g h i. unfold set_measurements.
    destruct (calculate_skew_factors pow_2 _) as [self' o] eqn:E.
    simpl. intros ->.
    apply calculate_skew_factors_returned in E. simpl in E.
    destruct E as [(Ea & Eb & Ec & Ed & Ee & Ef & Eg & Eh & Ei) HC].
    split; [ exact HC | ].
    destruct HC as (HI & HJ & HK).
    unfold get_skew_factors, get_marlin_command, PLUGIN_ID.
    rewrite HI, HJ, HK, Ea, Eb, Ec, Ed, Ee, Ef, Eg, Eh, Ei.
    repeat split.
Qed.

End CalculatorProperties.

(** The witnesses and counterexamples run with [square], a C library whose
    [pow] rounds correctly. *)

Import SkewCalculator.

Lemma quarter_formula_planes_witness :
  (snd (calculate_skew_factors square negative_side) = Returned /\
   marlin_I (fst (calculate_skew_factors square negative_side)) = 0%float /\
   marlin_J (fst (calculate_skew_factors square negative_side)) = 0.14%float /\
   marlin_K (fst (calculate_skew_factors square negative_side)) = 0%float) /\
  (snd (calculate_skew_factors square overflowing_xy) = Raised OverflowError /\
   marlin_I (fst (calculate_skew_factors square overflowing_xy)) = 7%float /\
   marlin_J (fst (calculate_skew_factors square overflowing_xy)) = 8%float /\
   marlin_K (fst (calculate_skew_factors square overflowing_xy)) = 9%float).
Proof.
  split.
  - destruct (quarter_formula_planes square negative_side) as (E & I & J & K & _).
    exact (conj E (conj I (conj J K))).
  - destruct (quarter_formula_planes square overflowing_xy) as (E & I & J & K & _).
    exact (conj E (conj I (conj J K))).
Defined.

(** C2, as stated, fails twice.  [ad = 1e-200] converts and is above
    zero, yet the factor stored is [0.0], because [ad**2] underflows to
    zero and the [ZeroDivisionError] of the quotient is caught; the
    quotient of the formula is not [0.0] (in binary64 it is an infinity).
    And with [ac = 1e200] beside a sound [ad] the factor is neither [0.0]
    nor the quotient: [ac**2] raises [OverflowError], which escapes and
    leaves the three factors as they were. *)
Lemma quarter_formula_counterexample :
  py_float (PyFloat 150) = Ok 150%float /\
  py_float (PyFloat 130) = Ok 130%float /\
  py_float (PyFloat 1e-200) = Ok 1e-200%float /\
  (1e-200 <=? 0)%float = false /\
  quarter square 150 130 1e-200 = Raise ZeroDivisionError /\
  try_except (body_I square (PyFloat 150) (PyFloat 130) (PyFloat 1e-200)) = Ok 0%float /\
  try_except (body_JK square (PyFloat 150) (PyFloat 130) (PyFloat 1e-200)) = Ok 0%float /\
  ((150 * 150 - 130 * 130) / (4 * (1e-200 * 1e-200)))%float = infinity /\
  calculate_skew_factors square overflowing_xy = (overflowing_xy, Raised OverflowError).
Proof. repeat split. Qed.

Lemma scenario_150_130_100_witness :
  marlin_I
    (fst (calculate_skew_factors square
            (mk (PyInt 150) (PyInt 130) (PyInt 100)
                (PyFloat 141.42) (PyFloat 141.42) (PyFloat 100)
                (PyFloat 141.42) (PyFloat 141.42) (PyFloat 100) 0 0 0)))
  = 0.14%float.
Proof.
  exact (scenario_150_130_100 square
           (mk (PyInt 150) (PyInt 130) (PyInt 100)
               (PyFloat 141.42) (PyFloat 141.42) (PyFloat 100)
               (PyFloat 141.42) (PyFloat 141.42) (PyFloat 100) 0 0 0)
           eq_refl eq_refl eq_refl eq_refl eq_refl eq_refl).
Defined.

(** C6, as stated, fails: the factor computed for 150, 130, 100 is the
    float nearest to 0.14, which is not 0.014. *)
Lemma scenario_150_130_100_counterexample :
  get_skew_factors
    (fst (set_measurements square (fst (init square))
            (PyInt 150) (PyInt 130) (PyInt 100)
            (PyFloat 141.42) (PyFloat 141.42) (PyFloat 100)
            (PyFloat 141.42) (PyFloat 141.42) (PyFloat 100)))
  = (0.14, 0, 0)%float /\
  (0.14 =? 0.014)%float = false /\
  ((150 * 150 - 130 * 130) / (4 * (100 * 100)))%float = 0.14%float.
Proof. repeat split. Qed.

Lemma factors_follow_measurements_witness :
  snd (set_measurements square (fst (init square))
         (PyFloat 150) (PyFloat 130) (PyFloat 100)
         (PyFloat 141.42) (PyFloat 141.42) (PyFloat 100)
         (PyStr "abc") PyNone (PyFloat 0)) = Returned /\
  get_marlin_command
    (fst (set_measurements square (fst (init square))
            (PyFloat 150) (PyFloat 130) (PyFloat 100)
            (PyFloat 141.42) (PyFloat 141.42) (PyFloat 100)
            (PyStr "abc") PyNone (PyFloat 0)))
  = "M852 I0.14000000 J0.00000000 K0.00000000 ; PrintSkewCompensation"%string.
Proof.
  split; [ reflexivity | ].
  exact (proj2 (proj2 (proj2 (proj2 (proj2
           (proj2 (factors_follow_measurements square) (fst (init square))
              (PyFloat 150) (PyFloat 130) (PyFloat 100)
              (PyFloat 141.42) (PyFloat 141.42) (PyFloat 100)
              (PyStr "abc") PyNone (PyFloat 0) eq_refl)))))).
Defined.

(** C10, as stated, fails: after this [set_measurements] call the YZ
    values all convert and [float(ad) > 0], yet [marlin_K] is [0.0] and
    not the quotient of the formula. *)
Lemma factors_follow_measurements_counterexample :
  let self' := fst (set_measurements square (fst (init square))
                      (PyFloat 141.42) (PyFloat 141.42) (PyFloat 100)
                      (PyFloat 141.42) (PyFloat 141.42) (PyFloat 100)
                      (PyFloat 150) (PyFloat 130) (PyFloat 1e-200)) in
  py_float (yz_ac self') = Ok 150%float /\
  py_float (yz_bd self') = Ok 130%float /\
  py_float (yz_ad self') = Ok 1e-200%float /\
  (0 <? 1e-200)%float = true /\
  marlin_K self' = 0%float /\
  ((150 * 150 - 130 * 130) / (4 * (1e-200 * 1e-200)))%float = infinity.
Proof. repeat split. Qed.

(** When an [OverflowError] escapes [set_measurements] the measurements
    are the new ones and the factors the old ones. *)
Example factors_stale_after_overflow :
  let self := fst (set_measurements square (fst (init square))
                     (PyFloat 141.42) (PyFloat 141.42) (PyFloat 100)
                     (PyFloat 141.42) (PyFloat 141.42) (PyFloat 100)
                     (PyFloat 150) (PyFloat 130) (PyFloat 100)) in
  let r := set_measurements square self
             (PyFloat 1e200) (PyFloat 141.42) (PyFloat 100)
             (PyFloat 141.42) (PyFloat 141.42) (PyFloat 100)
             (PyFloat 141.42) (PyFloat 141.42) (PyFloat 100) in
  snd r = Raised OverflowError /\
  yz_ac (fst r) = PyFloat 141.42 /\
  marlin_K (fst r) = 0.14%float /\
  quarter_factor square (yz_ac (fst r)) (yz_bd (fst r)) (yz_ad (fst r)) = 0%float.
Proof. repeat split. Qed.

(** ** The geometric formula of the post-processing script *)

Section SkewFactorProperties.

Import PrintSkewCompensationCKM.

Variable acos tan : float -> float.

(** A finite result passes through [math_1]. *)
Lemma math_1_finite (func : float -> float) (x : float) :
  is_finite (func x) = true -> math_1 func x = Ok (func x).
Proof.
  unfold math_1, is_finite. intros H.
  apply negb_true_iff, orb_false_elim in H. destruct H as [-> ->]. reflexivity.
Qed.

(** C1.  [calculate_skew_factor] returns exactly [0.0] when a measurement
    is [<= 0], when the radicand is negative, when [2*ab*ad] is zero and
    when the argument of the arc cosine is not within [-1, 1] (it is
    rejected, not clamped); in every other case it returns
    [tan(pi/2 - acos(arg))], [acos] and [tan] being the C library's, which
    give finite values there. *)
Theorem calculate_skew_factor_cases (ac bd ad : float) :
  let radicand := (2 * ac * ac + 2 * bd * bd - 4 * ad * ad)%float in
  let ab := (sqrt radicand / 2)%float in
  let arg := ((ac * ac - ab * ab - ad * ad) / (2 * ab * ad))%float in
  let rejected :=
    (ac <=? 0)%float = true \/ (bd <=? 0)%float = true \/ (ad <=? 0)%float = true \/
    (radicand <? 0)%float = true \/
    (2 * ab * ad =? 0)%float = true \/
    ((-1 <=? arg)%float && (arg <=? 1)%float) = false in
  (rejected -> calculate_skew_factor acos tan ac bd ad = 0%float) /\
  (~ rejected ->
   is_finite (acos arg) = true ->
   is_finite (tan (math_pi / 2 - acos arg)) = true ->
   calculate_skew_factor acos tan ac bd ad = tan (math_pi / 2 - acos arg)%float).
Proof.
  intros radicand ab arg rejected.
  unfold calculate_skew_factor, skew_factor_body, math_sqrt, truediv, math_acos, math_tan.
  fold radicand.
  destruct (ac <=? 0)%float eqn:Hac; simpl.
  { split; [ reflexivity | intros H; exfalso; apply H; unfold rejected; auto ]. }
  destruct (bd <=? 0)%float eqn:Hbd; simpl.
  { split; [ reflexivity | intros H; exfalso; apply H; unfold rejected; auto ]. }
  destruct (ad <=? 0)%float eqn:Had; simpl.
  { split; [ reflexivity | intros H; exfalso; apply H; unfold rejected; auto ]. }
  destruct (radicand <? 0)%float eqn:Hrad; simpl.
  { split; [ reflexivity | intros H; exfalso; apply H; unfold rejected; auto 6 ]. }
  change (2 =? 0)%float with false. simpl. fold ab.
  destruct (2 * ab * ad =? 0)%float eqn:Hden; simpl.
  { split; [ reflexivity | intros H; exfalso; apply H; unfold rejected; auto 6 ]. }
  fold arg.
  destruct ((-1 <=? arg)%float && (arg <=? 1)%float) eqn:Harg; simpl.
  - split.
    + unfold rejected.
      intros [H | [H | [H | [H | [H | H]]]]]; congruence.
    + intros _ Ha Ht.
      rewrite (math_1_finite acos arg Ha). simpl.
      rewrite (math_1_finite tan _ Ht). reflexivity.
  - split; [ reflexivity | intros H; exfalso; apply H; unfold rejected; auto 7 ].
Qed.

End SkewFactorProperties.

Lemma calculate_skew_factor_cases_witness :
  PrintSkewCompensationCKM.calculate_skew_factor
    PrintSkewCompensationCKM.acos_3 PrintSkewCompensationCKM.tan_3 150 130 100
  = 0.14359430780728019%float.
Proof.
  rewrite (proj2 (calculate_skew_factor_cases
                    PrintSkewCompensationCKM.acos_3 PrintSkewCompensationCKM.tan_3
                    150 130 100)).
  - reflexivity.
  - intros [H | [H | [H | [H | [H | H]]]]]; vm_compute in H; discriminate.
  - reflexivity.
  - reflexivity.
Defined.

(** ** Lines and layers as text *)

Lemma split_lines_not_nil (s : string) : split_lines s <> [].
Proof.
  destruct s as [ | c s]; simpl; [ discriminate | ].
  destruct (Ascii.eqb c (ascii_of_nat 10)); [ discriminate | ].
  destruct (split_lines s); discriminate.
Qed.

Lemma join_lines_cons (l : string) (ls : list string) :
  ls <> [] -> join_lines (l :: ls) = (l ++ newline ++ join_lines ls)%string.
Proof. destruct ls; [ congruence | reflexivity ]. Qed.

(** Splitting a layer into lines and joining them back gives the layer. *)
Lemma join_split_lines (s : string) : join_lines (split_lines s) = s.
Proof.
  induction s as [ | c s IH]; [ reflexivity | ].
  simpl. destruct (Ascii.eqb c (ascii_of_nat 10)) eqn:E.
  - apply Ascii.eqb_eq in E. subst c.
    rewrite join_lines_cons by apply split_lines_not_nil.
    rewrite IH. reflexivity.
  - destruct (split_lines s) as [ | l ls] eqn:Es.
    + now destruct (split_lines_not_nil s).
    + destruct ls as [ | l' ls'].
      * unfold join_lines in *. simpl in *. congruence.
      * rewrite join_lines_cons by discriminate.
        rewrite join_lines_cons in IH by discriminate.
        rewrite <- IH. reflexivity.
Qed.

(** ** The coordinate compensator *)

Section CompensationProperties.

Import PrintSkewCompensationCKM.

Variable getValue : string -> string -> option number.
Variable F : factors.

Local Open Scope string_scope.

Lemma shear_Ok (a b : number) (f v : float) :
  shear a b f = Ok v ->
  exists af bf, to_float a = Ok af /\ to_float b = Ok bf /\ v = (af - bf * f)%float.
Proof.
  unfold shear. destruct (to_float b) as [bf | ]; simpl; [ | discriminate ].
  destruct (to_float a) as [af | ]; simpl; [ | discriminate ].
  intros H. injection H as <-. eauto.
Qed.

(** What one turn of the loop does on a motion line. *)
Lemma process_line_motion (i : nat) (fr fr' : locals) (line line' : string) :
  is_motion line = true ->
  process_line getValue F i fr line = Ok (fr', line') ->
  let cx := getValue line "X" in
  let cy := getValue line "Y" in
  let cz := getValue line "Z" in
  let xi := match cx with Some v => v | None => Int 0 end in
  let yi := match cy with Some v => v | None => Int 0 end in
  let zi := match cz with Some v => v | None => z_input fr end in
  exists x1 x2 y1,
    shear xi yi (xy F) = Ok x1 /\
    shear (Float (round x1 3)) zi (xz F) = Ok x2 /\
    shear yi zi (yz F) = Ok y1 /\
    fr' = mk_locals zi cx cy cz (Some xi) (Some yi) (Some (round x2 3)) (Some (round y1 3)) /\
    line' =
      if (i <? 2)%nat then line
      else
        let line1 := match cx with
                     | Some v => replace line ("X" ++ str v) ("X" ++ repr_float (round x2 3))
                     | None => line
                     end in
        match cy with
        | Some v => replace line1 ("Y" ++ str v) ("Y" ++ repr_float (round y1 3))
        | None => line1
        end.
Proof.
  intros Hm. unfold process_line. rewrite Hm. cbv zeta.
  destruct (shear _ _ (xy F)) as [x1 | ] eqn:H1; simpl; [ | discriminate ].
  destruct (shear _ _ (xz F)) as [x2 | ] eqn:H2; simpl; [ | discriminate ].
  destruct (shear _ _ (yz F)) as [y1 | ] eqn:H3; simpl; [ | discriminate ].
  intros H. exists x1, x2, y1.
  destruct (i <? 2)%nat; injection H as <- <-; auto.
Qed.

Lemma process_line_other (i : nat) (fr : locals) (line : string) :
  is_motion line = false -> process_line getValue F i fr line = Ok (fr, line).
Proof. intros Hm. unfold process_line. now rewrite Hm. Qed.

Lemma converts_Ok (v : number) : converts v = true -> exists f, to_float v = Ok f.
Proof. unfold converts. destruct (to_float v); [ eauto | discriminate ]. Qed.

(** A motion line whose three operands convert is gone through. *)
Lemma process_line_operands (i : nat) (fr : locals) (line : string) (x y z : float) :
  is_motion line = true ->
  to_float (line_x getValue line) = Ok x ->
  to_float (line_y getValue line) = Ok y ->
  to_float (line_z getValue (z_input fr) line) = Ok z ->
  exists fr' line', process_line getValue F i fr line = Ok (fr', line').
Proof.
  unfold line_x, line_y, line_z, process_line. intros -> Hx Hy Hz.
  cbv zeta. unfold shear. rewrite Hx, Hy, Hz. simpl.
  destruct (i <? 2)%nat; eauto.
Qed.

(** A line whose numbers convert is gone through. *)
Lemma process_line_returns (i : nat) (fr : locals) (line : string) :
  numbers_convert getValue (z_input fr) line = true ->
  exists fr' line', process_line getValue F i fr line = Ok (fr', line').
Proof.
  unfold numbers_convert. destruct (is_motion line) eqn:Hm.
  - intros H. apply andb_prop in H. destruct H as [H Hz].
    apply andb_prop in H. destruct H as [Hx Hy].
    apply converts_Ok in Hx, Hy, Hz.
    destruct Hx as [x Hx], Hy as [y Hy], Hz as [z Hz].
    now apply (process_line_operands i fr line x y z).
  - intros _. rewrite (process_line_other i fr line Hm). eauto.
Qed.

(** C3.  Every motion line whose operands [x_input], [y_input] and the
    cumulative [z_input] have the floats [x], [y], [z] is processed, and
    its corrected coordinates are [x_out = round(x - y*xy, 3)] followed by
    [x_out = round(x_out - z*xz, 3)], and [y_out = round(y - z*yz, 3)]. *)
Theorem corrected_coordinates (i : nat) (fr : locals) (line : string) (x y z : float) :
  is_motion line = true ->
  to_float (line_x getValue line) = Ok x ->
  to_float (line_y getValue line) = Ok y ->
  to_float (line_z getValue (z_input fr) line) = Ok z ->
  exists (fr' : locals) (line' : string),
    process_line getValue F i fr line = Ok (fr', line') /\
    x_input fr' = Some (line_x getValue line) /\
    y_input fr' = Some (line_y getValue line) /\
    z_input fr' = line_z getValue (z_input fr) line /\
    x_out fr' = Some (round (round (x - y * xy F) 3 - z * xz F) 3) /\
    y_out fr' = Some (round (y - z * yz F) 3).
Proof.
  intros Hm Hx Hy Hz.
  destruct (process_line_operands i fr line x y z Hm Hx Hy Hz) as (fr' & line' & H).
  exists fr', line'. split; [ exact H | ].
  destruct (process_line_motion i fr fr' line line' Hm H)
    as (x1 & x2 & y1 & H1 & H2 & H3 & -> & _).
  unfold line_x, line_y, line_z in *.
  apply shear_Ok in H1. destruct H1 as (x' & y' & Hx' & Hy' & ->).
  apply shear_Ok in H2. destruct H2 as (r & z' & Hr & Hz' & ->).
  apply shear_Ok in H3. destruct H3 as (y'' & z'' & Hy'' & Hz'' & ->).
  simpl in Hr. injection Hr as <-.
  assert (x' = x) by congruence. assert (y' = y) by congruence.
  assert (y'' = y) by congruence. assert (z' = z) by congruence.
  assert (z'' = z) by congruence. subst x' y' y'' z' z''.
  simpl. repeat split.
Qed.


(** The locals after a line do not depend on the layer the line is in. *)
Lemma process_line_locals (i j : nat) (fr : locals) (line : string) :
  match process_line getValue F i fr line, process_line getValue F j fr line with
  | Ok (fr1, _), Ok (fr2, _) => fr1 = fr2
  | Raise e1, Raise e2 => e1 = e2
  | _, _ => False
  end.
Proof.
  unfold process_line. destruct (is_motion line); [ | reflexivity ].
  destruct (shear _ _ (xy F)) as [x1 | ]; simpl; [ | reflexivity ].
  destruct (shear _ _ (xz F)) as [x2 | ]; simpl; [ | reflexivity ].
  destruct (shear _ _ (yz F)) as [y1 | ]; simpl; [ | reflexivity ].
  destruct (i <? 2)%nat, (j <? 2)%nat; reflexivity.
Qed.

(** In the layers 0 and 1 a line comes out as it went in. *)
Lemma process_line_skipped (i : nat) (fr fr' : locals) (line line' : string) :
  (i < 2)%nat -> process_line getValue F i fr line = Ok (fr', line') -> line' = line.
Proof.
  intros Hi H. destruct (is_motion line) eqn:Hm.
  - destruct (process_line_motion i fr fr' line line' Hm H)
      as (x1 & x2 & y1 & _ & _ & _ & _ & ->).
    apply Nat.ltb_lt in Hi. now rewrite Hi.
  - rewrite (process_line_other i fr line Hm) in H. congruence.
Qed.

Lemma process_lines_skipped (i : nat) (lines : list string) :
  (i < 2)%nat ->
  forall (fr fr' : locals) (lines' : list string),
    process_lines getValue F i fr lines = Ok (fr', lines') -> lines' = lines.
Proof.
  intros Hi. induction lines as [ | line rest IH]; intros fr fr' lines'; simpl.
  - intros H. now injection H as _ <-.
  - destruct (process_line getValue F i fr line) as [[fr1 l1] | ] eqn:E1; simpl;
      [ | discriminate ].
    destruct (process_lines getValue F i fr1 rest) as [[fr2 r2] | ] eqn:E2; simpl;
      [ | discriminate ].
    intros H. injection H as _ <-.
    apply (process_line_skipped i fr fr1 line l1 Hi) in E1.
    apply IH in E2. congruence.
Qed.

(** A layer of index 0 or 1 is written back as it was. *)
Lemma process_layers_skipped (i : nat) (fr : locals) (layer : string) (rest : list string) :
  (i < 2)%nat ->
  exists rest' r, process_layers getValue F i fr (layer :: rest) = (layer :: rest', r) /\
    (rest' = rest \/
     exists fr', rest' = fst (process_layers getValue F (S i) fr' rest)).
Proof.
  intros Hi. simpl.
  destruct (process_lines getValue F i fr (split_lines layer)) as [[fr' lines] | e] eqn:E.
  - apply (process_lines_skipped i _ Hi) in E. subst lines.
    rewrite join_split_lines.
    destruct (process_layers getValue F (S i) fr' rest) as [rest' r] eqn:E'.
    exists rest', r. split; [ reflexivity | ]. right. exists fr'. now rewrite E'.
  - exists rest, (Raise e). auto.
Qed.

(** C4.  Whatever the document, [cura_compensation] leaves the text of
    the layers 0 and 1 as it was: a document of at most two layers comes
    out unchanged, and only layers of index [>= 2] are rewritten.  The
    position is tracked all the same: the locals after a line are those
    the line gives in any other layer. *)
Theorem first_two_layers_kept (cura_data : list string) :
  firstn 2 (fst (cura_compensation getValue F cura_data)) = firstn 2 cura_data /\
  ((List.length cura_data <= 2)%nat ->
   fst (cura_compensation getValue F cura_data) = cura_data) /\
  (forall (i : nat) (fr : locals) (line : string),
     match process_line getValue F i fr line, process_line getValue F 2 fr line with
     | Ok (fr1, _), Ok (fr2, _) => fr1 = fr2
     | Raise e1, Raise e2 => e1 = e2
     | _, _ => False
     end).
Proof.
  assert (K : firstn 2 (fst (process_layers getValue F 0 initial_locals cura_data))
              = firstn 2 cura_data /\
              ((List.length cura_data <= 2)%nat ->
               fst (process_layers getValue F 0 initial_locals cura_data) = cura_data)).
  { destruct cura_data as [ | l0 rest0]; [ now split | ].
    destruct (process_layers_skipped 0 initial_locals l0 rest0) as (r0 & o0 & E0 & H0);
      [ lia | ].
    rewrite E0. simpl fst.
    destruct H0 as [-> | [fr1 ->]]; [ now split | ].
    destruct rest0 as [ | l1 rest1]; [ now split | ].
    destruct (process_layers_skipped 1 fr1 l1 rest1) as (r1 & o1 & E1 & H1); [ lia | ].
    rewrite E1. simpl fst.
    split; [ reflexivity | ].
    simpl. intros Hlen. destruct rest1; [ | simpl in Hlen; lia ].
    destruct H1 as [-> | [fr2 ->]]; reflexivity. }
  unfold cura_compensation.
  destruct (process_layers getValue F 0 initial_locals cura_data) as [doc r].
  simpl in *. destruct K as [K1 K2]. split; [ exact K1 | ]. split; [ exact K2 | ].
  intros i fr line. apply process_line_locals.
Qed.

(** *** The Z cursor through lines and layers *)

Lemma process_line_z (i : nat) (fr fr' : locals) (line line' : string) :
  process_line getValue F i fr line = Ok (fr', line') ->
  z_input fr' = track_z getValue (z_input fr) line.
Proof.
  intros H. unfold track_z. destruct (is_motion line) eqn:Hm.
  - destruct (process_line_motion i fr fr' line line' Hm H)
      as (x1 & x2 & y1 & _ & _ & _ & -> & _).
    reflexivity.
  - rewrite (process_line_other i fr line Hm) in H. congruence.
Qed.





Lemma process_lines_z (i : nat) (lines : list string) :
  forall (fr fr' : locals) (out : list string),
    process_lines getValue F i fr lines = Ok (fr', out) ->
    z_input fr' = tracked_z getValue (z_input fr) lines.
Proof.
  unfold tracked_z.
  induction lines as [ | line rest IH]; intros fr fr' out; simpl.
  - intros H. now injection H as <- _.
  - destruct (process_line getValue F i fr line) as [[fr1 l1] | ] eqn:E1; simpl;
      [ | discriminate ].
    destruct (process_lines getValue F i fr1 rest) as [[fr2 r2] | ] eqn:E2; simpl;
      [ | discriminate ].
    intros H. injection H as <- _.
    rewrite (IH _ _ _ E2). now rewrite (process_line_z _ _ _ _ _ E1).
Qed.


(** Lines whose numbers convert are all gone through. *)
Lemma process_lines_returns (i : nat) (lines : list string) :
  forall fr : locals,
    lines_convert getValue (z_input fr) lines = true ->
    exists fr' out, process_lines getValue F i fr lines = Ok (fr', out).
Proof.
  induction lines as [ | line rest IH]; intros fr; simpl; [ eauto | ].
  intros H. apply andb_prop in H. destruct H as [H1 H2].
  destruct (process_line_returns i fr line H1) as (fr1 & l1 & E1).
  rewrite E1. simpl.
  rewrite <- (process_line_z _ _ _ _ _ E1) in H2.
  destruct (IH fr1 H2) as (fr2 & out & E2).
  rewrite E2. simpl. eauto.
Qed.

Lemma lines_convert_app (a b : list string) :
  forall z : number,
    lines_convert getValue z (a ++ b)%list =
    lines_convert getValue z a && lines_convert getValue (tracked_z getValue z a) b.
Proof.
  induction a as [ | line a IH]; intros z; simpl; [ reflexivity | ].
  rewrite IH, andb_assoc. reflexivity.
Qed.

(** A document whose numbers convert is gone through to its end. *)
Lemma process_layers_returns (cura_data : list string) :
  forall (i : nat) (fr : locals),
    lines_convert getValue (z_input fr) (all_lines cura_data) = true ->
    exists doc fr', process_layers getValue F i fr cura_data = (doc, Ok fr').
Proof.
  induction cura_data as [ | layer rest IH]; intros i fr; simpl; [ eauto | ].
  unfold all_lines. simpl. rewrite lines_convert_app.
  intros H. apply andb_prop in H. destruct H as [H1 H2].
  destruct (process_lines_returns i _ fr H1) as (fr1 & out & E1).
  rewrite E1.
  rewrite <- (process_lines_z _ _ _ _ _ E1) in H2.
  destruct (IH (S i) fr1 H2) as (doc & fr' & E2).
  rewrite E2. eauto.
Qed.


End CompensationProperties.

(** ** Rounding to three decimals *)

Section Rounding.

Local Open Scope Z_scope.

(** *** Rounding a quotient to the nearest integer *)

Lemma div_half_even_bound (a b : Z) :
  0 < b ->
  2 * b * div_half_even a b - b <= 2 * a <= 2 * b * div_half_even a b + b.
Proof.
  intros Hb. unfold div_half_even.
  pose proof (Z.div_mod a b ltac:(lia)) as E.
  pose proof (Z.mod_pos_bound a b Hb) as R.
  generalize dependent (a / b). generalize dependent (a mod b). intros r R q E.
  destruct (2 * r ?= b) eqn:C.
  - apply Z.compare_eq in C. destruct (Z.even q); lia.
  - rewrite Z.compare_lt_iff in C. lia.
  - rewrite Z.compare_gt_iff in C. lia.
Qed.

Lemma div_half_even_unique (a b k : Z) :
  0 < b -> 2 * b * k - b < 2 * a < 2 * b * k + b -> div_half_even a b = k.
Proof.
  intros Hb Hk. pose proof (div_half_even_bound a b Hb) as B.
  nia.
Qed.

Lemma div_half_even_same (a1 b1 a2 b2 : Z) :
  0 < b1 -> 0 < b2 -> a1 * b2 = a2 * b1 -> div_half_even a1 b1 = div_half_even a2 b2.
Proof.
  intros H1 H2 E.
  assert (S : forall a b c, 0 < b -> 0 < c -> div_half_even (a * c) (b * c) = div_half_even a b).
  { intros a b c Hb Hc. unfold div_half_even.
    rewrite Z.div_mul_cancel_r by lia.
    rewrite Zmult_mod_distr_r.
    replace (2 * (a mod b * c)) with (2 * (a mod b) * c) by ring.
    rewrite <- (Zmult_compare_compat_r (2 * (a mod b)) b c) by lia.
    reflexivity. }
  rewrite <- (S a1 b1 b2 H1 H2), <- (S a2 b2 b1 H2 H1).
  rewrite E. f_equal. ring.
Qed.

(** *** Powers of two as numerator and denominator *)

Local Notation "'num' e" := (pow2_num e) (at level 10, e at level 9).
Local Notation "'den' e" := (pow2_den e) (at level 10, e at level 9).

Lemma num_pos (e : Z) : 0 < num e.
Proof. apply Z.pow_pos_nonneg; lia. Qed.

Lemma den_pos (e : Z) : 0 < den e.
Proof. apply Z.pow_pos_nonneg; lia. Qed.

Lemma scaled_eq (p q e : Z) : scaled p q e = (p * den e, q * num e).
Proof.
  unfold scaled, pow2_num, pow2_den. destruct (e <? 0) eqn:E.
  - apply Z.ltb_lt in E.
    rewrite (Z.max_l (- e) 0), (Z.max_r e 0) by lia. now rewrite Z.mul_1_r.
  - apply Z.ltb_ge in E.
    rewrite (Z.max_r (- e) 0), (Z.max_l e 0) by lia. now rewrite Z.mul_1_r.
Qed.

(** [2^e2 = 2^(e2 - e1) * 2^e1], as a relation between fractions. *)
Lemma pow2_ratio (e1 e2 : Z) :
  e1 <= e2 -> num e2 * den e1 = 2 ^ (e2 - e1) * (num e1 * den e2).
Proof.
  intros H. unfold pow2_num, pow2_den. rewrite <- !Z.pow_add_r by lia. f_equal. lia.
Qed.

Lemma pow2_ge_1 (k : Z) : 0 <= k -> 1 <= 2 ^ k.
Proof. intros H. pose proof (Z.pow_pos_nonneg 2 k). lia. Qed.

Lemma pow2_mono (j k : Z) : 0 <= j <= k -> 2 ^ j <= 2 ^ k.
Proof. intros H. apply Z.pow_le_mono_r; lia. Qed.

(** [2^L <= p / q < 2^(L + 1)] for [L = log2_floor p q]. *)
Lemma log2_floor_spec (p q : Z) :
  0 < p -> 0 < q ->
  let L := log2_floor p q in
  q * num L <= p * den L < 2 * (q * num L).
Proof.
  intros Hp Hq. unfold log2_floor.
  pose proof (Z.log2_spec p Hp) as [Pl Pu].
  pose proof (Z.log2_spec q Hq) as [Ql Qu].
  pose proof (Z.log2_nonneg p) as Pn. pose proof (Z.log2_nonneg q) as Qn.
  set (lp := Z.log2 p) in *. set (lq := Z.log2 q) in *.
  rewrite scaled_eq.
  (* p < 2^(lp+1), q >= 2^lq, so p / q < 2^(lp - lq + 1);
     p >= 2^lp, q < 2^(lq+1), so p / q > 2^(lp - lq - 1) *)
  assert (U : p * den (lp - lq) < 2 * (q * num (lp - lq))).
  { assert (E : 2 ^ lp * den (lp - lq) = 2 ^ lq * num (lp - lq)).
    { unfold pow2_num, pow2_den. rewrite <- !Z.pow_add_r by lia. f_equal. lia. }
    rewrite Z.pow_succ_r in Pu by lia.
    pose proof (den_pos (lp - lq)). pose proof (num_pos (lp - lq)). nia. }
  assert (Lw : q * num (lp - lq - 1) <= p * den (lp - lq - 1)).
  { assert (E : 2 ^ (lq + 1) * num (lp - lq - 1) = 2 ^ lp * den (lp - lq - 1)).
    { unfold pow2_num, pow2_den. rewrite <- !Z.pow_add_r by lia. f_equal. lia. }
    pose proof (den_pos (lp - lq - 1)). pose proof (num_pos (lp - lq - 1)). nia. }
  destruct (q * num (lp - lq) <=? p * den (lp - lq)) eqn:C.
  - apply Z.leb_le in C. cbv zeta. lia.
  - apply Z.leb_gt in C. cbv zeta. split; [ exact Lw | ].
    pose proof (pow2_ratio (lp - lq - 1) (lp - lq) ltac:(lia)) as R.
    replace (lp - lq - (lp - lq - 1)) with 1 in R by lia. change (2 ^ 1) with 2 in R.
    pose proof (den_pos (lp - lq - 1)). pose proof (num_pos (lp - lq - 1)).
    pose proof (den_pos (lp - lq)). pose proof (num_pos (lp - lq)).
    (* p * den(t-1) * num t  <  q * num(t-1) * ... *)
    nia.
Qed.

(** *** The mantissa and exponent [nearest_float] finds *)

Lemma digits2_pos_bounds (p : positive) :
  2 ^ (Zpos (digits2_pos p) - 1) <= Zpos p < 2 ^ Zpos (digits2_pos p).
Proof.
  induction p as [p IH | p IH | ]; simpl digits2_pos.
  - rewrite Pos2Z.inj_succ.
    replace (Z.succ (Zpos (digits2_pos p)) - 1) with (Z.succ (Zpos (digits2_pos p) - 1)) by lia.
    rewrite !Z.pow_succ_r by lia. lia.
  - rewrite Pos2Z.inj_succ.
    replace (Z.succ (Zpos (digits2_pos p)) - 1) with (Z.succ (Zpos (digits2_pos p) - 1)) by lia.
    rewrite !Z.pow_succ_r by lia. lia.
  - simpl. lia.
Qed.

Lemma digits2_pos_53 (p : positive) :
  2 ^ 52 <= Zpos p < 2 ^ 53 -> Zpos (digits2_pos p) = 53.
Proof.
  intros [Hl Hu]. pose proof (digits2_pos_bounds p) as [Bl Bu].
  set (d := Zpos (digits2_pos p)) in *.
  assert (Hd : 0 < d) by (unfold d; lia).
  destruct (Z.lt_trichotomy d 53) as [C | [C | C]]; [ exfalso | exact C | exfalso ].
  - pose proof (pow2_mono d 52 ltac:(lia)). lia.
  - pose proof (pow2_mono 53 (d - 1) ltac:(lia)). lia.
Qed.

(** A mantissa of 53 bits with an exponent in range is a binary64 number. *)
Lemma bounded_normal (M : positive) (E : Z) :
  2 ^ 52 <= Zpos M < 2 ^ 53 -> -1074 <= E <= 971 -> bounded prec emax M E = true.
Proof.
  intros HM HE. unfold bounded, canonical_mantissa, fexp, emin, prec, emax.
  rewrite (digits2_pos_53 M HM).
  apply andb_true_intro. split; [ apply Z.eqb_eq | apply Z.leb_le ]; lia.
Qed.

(** In the normal range the quotient, scaled to the binade, lies in
    [[2^52, 2^53)], and so its rounding in [[2^52, 2^53]]. *)
Lemma mantissa_range (p q : Z) :
  0 < p -> 0 < q -> -1022 <= log2_floor p q ->
  let E0 := binade p q in
  E0 = log2_floor p q - 52 /\
  2 ^ 52 * (q * num E0) <= p * den E0 < 2 ^ 53 * (q * num E0) /\
  2 ^ 52 <= div_half_even (p * den E0) (q * num E0) <= 2 ^ 53.
Proof.
  intros Hp Hq HL. unfold binade.
  pose proof (log2_floor_spec p q Hp Hq) as S. cbv zeta in S.
  set (L := log2_floor p q) in *.
  rewrite Z.max_l by lia. cbv zeta. split; [ reflexivity | ].
  pose proof (pow2_ratio (L - 52) L ltac:(lia)) as R.
  replace (L - (L - 52)) with 52 in R by lia.
  pose proof (num_pos L). pose proof (den_pos L).
  pose proof (num_pos (L - 52)). pose proof (den_pos (L - 52)).
  set (nL := num L) in *. set (dL := den L) in *.
  set (nE := num (L - 52)) in *. set (dE := den (L - 52)) in *.
  assert (A : 2 ^ 52 * (q * nE) <= p * dE < 2 ^ 53 * (q * nE)).
  { change (2 ^ 53) with (2 * 2 ^ 52). split.
    - apply (Z.mul_le_mono_pos_r _ _ dL); [ lia | ].
      replace (2 ^ 52 * (q * nE) * dL) with (q * (2 ^ 52 * (nE * dL))) by ring.
      rewrite <- R. nia.
    - apply (Z.mul_lt_mono_pos_r dL); [ lia | ].
      replace (2 * 2 ^ 52 * (q * nE) * dL) with (2 * q * (2 ^ 52 * (nE * dL))) by ring.
      rewrite <- R. nia. }
  split; [ exact A | ].
  assert (Hb : 0 < q * nE) by nia.
  pose proof (div_half_even_bound (p * dE) (q * nE) Hb) as B.
  set (M0 := div_half_even (p * dE) (q * nE)) in *.
  change (2 ^ 52) with 4503599627370496 in *.
  change (2 ^ 53) with 9007199254740992 in *.
  nia.
Qed.

(** What [nearest_float] returns in the normal range: an infinity, or the
    binary64 number of a mantissa [M] and exponent [E] worth
    [M0 * 2^E0]. *)
Lemma nearest_float_normal (s : bool) (p q : Z) :
  0 < p -> 0 < q -> -1022 <= log2_floor p q ->
  let E0 := binade p q in
  let M0 := div_half_even (p * den E0) (q * num E0) in
  nearest_float s p q = signed_infinity s \/
  exists (M : positive) (E : Z),
    Prim2SF (nearest_float s p q) = S754_finite s M E /\
    Zpos M * num E * den E0 = M0 * num E0 * den E.
Proof.
  intros Hp Hq HL E0 M0.
  destruct (mantissa_range p q Hp Hq HL) as (HE & _ & HM).
  fold E0 in HE, HM. fold M0 in HM.
  unfold nearest_float. replace (p =? 0) with false by (symmetry; apply Z.eqb_neq; lia).
  fold E0. rewrite scaled_eq. fold M0.
  destruct (M0 =? 2 ^ 53) eqn:C.
  - destruct (971 <? E0 + 1) eqn:O; [ now left | right ].
    apply Z.ltb_ge in O. apply Z.eqb_eq in C.
    change (2 ^ 52) with (Zpos 4503599627370496).
    exists 4503599627370496%positive, (E0 + 1). split.
    + apply Prim2SF_SF2Prim. apply bounded_normal; [ now vm_compute | lia ].
    + pose proof (pow2_ratio E0 (E0 + 1) ltac:(lia)) as R.
      replace (E0 + 1 - E0) with 1 in R by lia.
      rewrite C. change (2 ^ 1) with 2 in R. change (2 ^ 53) with 9007199254740992.
      nia.
  - apply Z.eqb_neq in C.
    destruct M0 as [ | M | M ]; try (change (2 ^ 52) with 4503599627370496 in HM; lia).
    destruct (971 <? E0) eqn:O; [ now left | right ].
    apply Z.ltb_ge in O. exists M, E0. split; [ | reflexivity ].
    apply Prim2SF_SF2Prim. apply bounded_normal; lia.
Qed.

(** *** Rounding to three decimals twice *)

Lemma log2_floor_1000 (n : Z) : 0 < n -> -10 <= log2_floor n 1000.
Proof.
  intros Hn. unfold log2_floor. change (Z.log2 1000) with 9.
  pose proof (Z.log2_nonneg n).
  destruct (scaled n 1000 (Z.log2 n - 9)) as [a b].
  destruct (b <=? a); lia.
Qed.

(** For [E0 >= -9] the powers of two are at least [1/512]. *)
Lemma den_le_512 (E0 : Z) : -9 <= E0 -> den E0 <= 512 * num E0.
Proof.
  intros H. pose proof (num_pos E0). unfold pow2_den.
  assert (2 ^ Z.max (- E0) 0 <= 2 ^ 9) by (apply pow2_mono; lia).
  change (2 ^ 9) with 512 in *. nia.
Qed.

(** For [E0 <= -10] they are below [1/1000]. *)
Lemma den_ge_1024 (E0 : Z) : E0 <= -10 -> num E0 = 1 /\ 1024 <= den E0.
Proof.
  intros H. unfold pow2_num, pow2_den. rewrite Z.max_r by lia. split; [ reflexivity | ].
  assert (2 ^ 10 <= 2 ^ Z.max (- E0) 0) by (apply pow2_mono; lia).
  now change (2 ^ 10) with 1024 in *.
Qed.

(** The heart of the matter.  Let [n] be [m * 2^e] times 1000, rounded to
    an integer, and [M0 * 2^E0] the float nearest to [n / 1000]; then
    [M0 * 2^E0] times 1000 rounds to [n] again. *)
Lemma round_again (m e : Z) :
  0 < m < 2 ^ 53 ->
  let n := div_half_even (m * 1000 * num e) (den e) in
  0 < n ->
  let E0 := binade n 1000 in
  let M0 := div_half_even (n * den E0) (1000 * num E0) in
  div_half_even (M0 * 1000 * num E0) (den E0) = n.
Proof.
  intros Hm n Hn E0 M0.
  pose proof (log2_floor_1000 n Hn) as HL.
  destruct (mantissa_range n 1000 Hn ltac:(lia) ltac:(lia)) as (HE & HA & HM).
  fold E0 in HE, HA, HM. fold M0 in HM.
  pose proof (num_pos E0) as PnE. pose proof (den_pos E0) as PdE.
  pose proof (num_pos e) as Pne. pose proof (den_pos e) as Pde.
  pose proof (div_half_even_bound (n * den E0) (1000 * num E0) ltac:(lia)) as BM.
  fold M0 in BM.
  pose proof (div_half_even_bound (m * 1000 * num e) (den e) Pde) as Bn.
  fold n in Bn.
  destruct (Z_le_gt_dec E0 (-10)) as [Hlow | Hhigh].
  - (* the float grid is finer than 1/1000 *)
    destruct (den_ge_1024 E0 Hlow) as [N1 D1].
    apply div_half_even_unique; [ exact PdE | ].
    rewrite N1 in *. lia.
  - (* the float grid is coarser: the nearest float is [m * 2^e] itself *)
    pose proof (den_le_512 E0 ltac:(lia)) as D5.
    assert (Hee : E0 <= e).
    { destruct (Z_le_gt_dec E0 e) as [ | Hgt ]; [ assumption | exfalso ].
      pose proof (pow2_ratio e E0 ltac:(lia)) as R.
      assert (T2 : 2 <= 2 ^ (E0 - e)).
      { change 2 with (2 ^ 1) at 1. apply pow2_mono. lia. }
      set (T := 2 ^ (E0 - e)) in *.
      set (nE := num E0) in *. set (dE := den E0) in *.
      set (ne := num e) in *. set (de := den e) in *.
      change (2 ^ 52) with 4503599627370496 in *.
      change (2 ^ 53) with 9007199254740992 in *.
      (* de <= 512 * T * ne *)
      assert (K1 : de <= 512 * T * ne) by nia.
      (* 2 n dE de >= 2^53 * 1000 * nE * de = 2^53 * 1000 * T * ne * dE *)
      assert (K2 : 9007199254740992 * 1000 * (T * ne) <= 2 * n * de).
      { apply (Z.mul_le_mono_pos_r _ _ dE); [ lia | ].
        replace (9007199254740992 * 1000 * (T * ne) * dE)
          with (9007199254740992 * 1000 * (T * (ne * dE))) by ring.
        rewrite <- R. nia. }
      nia. }
    pose proof (pow2_ratio E0 e Hee) as R.
    assert (T1 : 1 <= 2 ^ (e - E0)) by (apply pow2_ge_1; lia).
    set (T := 2 ^ (e - E0)) in *.
    assert (HM0 : M0 = m * T).
    { apply div_half_even_unique; [ lia | ].
      set (nE := num E0) in *. set (dE := den E0) in *.
      set (ne := num e) in *. set (de := den e) in *.
      (* |2000 * m * ne - 2 * n * de| <= de, times dE, is
         |2000 * m * T * nE * de - 2 * n * de * dE| <= de * dE *)
      assert (K : 2 * (1000 * nE) * (m * T) * de - dE * de <= 2 * (n * dE) * de
                  <= 2 * (1000 * nE) * (m * T) * de + dE * de).
      { replace (2 * (1000 * nE) * (m * T) * de) with (2000 * m * (T * (nE * de))) by ring.
        rewrite <- R. nia. }
      nia. }
    transitivity (div_half_even (m * 1000 * num e) (den e)); [ | reflexivity ].
    apply div_half_even_same; [ exact PdE | exact Pde | ].
    rewrite HM0.
    replace (m * T * 1000 * num E0 * den e) with (m * 1000 * (T * (num E0 * den e))) by ring.
    rewrite <- R. ring.
Qed.

Lemma div_half_even_nonneg (a b : Z) : 0 <= a -> 0 < b -> 0 <= div_half_even a b.
Proof.
  intros Ha Hb. pose proof (div_half_even_bound a b Hb). nia.
Qed.

(** [round(x, 3)] of a finite float, in terms of its mantissa and exponent. *)
Lemma round_finite (x : float) (s : bool) (m : positive) (e : Z) :
  Prim2SF x = S754_finite s m e ->
  round x 3 = nearest_float s (div_half_even (Zpos m * 1000 * num e) (den e)) 1000.
Proof.
  intros H. unfold round. rewrite H. change (10 ^ 3) with 1000.
  rewrite scaled_eq. unfold pow2_den at 1. rewrite Z.opp_involutive.
  fold (pow2_num e). unfold pow2_num at 2. fold (pow2_den e).
  now rewrite Z.mul_1_l.
Qed.

(** The mantissa of a binary64 number has at most 53 bits. *)
Lemma mantissa_lt (x : float) (s : bool) (m : positive) (e : Z) :
  Prim2SF x = S754_finite s m e -> 0 < Zpos m < 2 ^ 53.
Proof.
  intros H. pose proof (Prim2SF_valid x) as V. rewrite H in V.
  unfold valid_binary, bounded, canonical_mantissa, fexp, emin, prec, emax in V.
  apply andb_prop in V. destruct V as [V _]. apply Z.eqb_eq in V.
  pose proof (digits2_pos_bounds m) as [_ B].
  assert (D : Zpos (digits2_pos m) <= 53) by lia.
  pose proof (pow2_mono (Zpos (digits2_pos m)) 53 ltac:(lia)). lia.
Qed.

Lemma round_not_finite (x : float) :
  (forall s m e, Prim2SF x <> S754_finite s m e) -> round x 3 = x.
Proof.
  intros H. unfold round. destruct (Prim2SF x); try reflexivity. now destruct (H s m e).
Qed.

Lemma Prim2SF_signed_zero (s : bool) : Prim2SF (signed_zero s) = S754_zero s.
Proof. now destruct s. Qed.

Lemma Prim2SF_signed_infinity (s : bool) : Prim2SF (signed_infinity s) = S754_infinity s.
Proof. now destruct s. Qed.

(** Rounding to three decimals a second time changes nothing. *)
Lemma round_idempotent (x : float) : round (round x 3) 3 = round x 3.
Proof.
  destruct (Prim2SF x) as [s | s | | s m e] eqn:Hx;
    try (rewrite (round_not_finite x) by (intros; congruence);
         apply round_not_finite; intros; congruence).
  rewrite (round_finite x s m e Hx).
  pose proof (mantissa_lt x s m e Hx) as Hm.
  set (n := div_half_even (Zpos m * 1000 * num e) (den e)).
  assert (Hn : 0 <= n).
  { apply div_half_even_nonneg; [ | apply den_pos ].
    pose proof (num_pos e). nia. }
  destruct (Z.eq_dec n 0) as [Z0 | NZ].
  - rewrite Z0. change (nearest_float s 0 1000) with (signed_zero s).
    apply round_not_finite. intros. rewrite Prim2SF_signed_zero. discriminate.
  - assert (Hp : 0 < n) by lia.
    pose proof (log2_floor_1000 n Hp) as HL.
    destruct (nearest_float_normal s n 1000 Hp ltac:(lia) ltac:(lia)) as [I | (M & E & HP & HV)].
    + rewrite I. apply round_not_finite. intros.
      rewrite Prim2SF_signed_infinity. discriminate.
    + rewrite (round_finite _ s M E HP). f_equal.
      pose proof (round_again (Zpos m) e Hm) as RA. cbv zeta in RA. fold n in RA.
      set (E0 := binade n 1000) in *.
      set (M0 := div_half_even (n * den E0) (1000 * num E0)) in *.
      transitivity (div_half_even (M0 * 1000 * num E0) (den E0)); [ | exact (RA Hp) ].
      apply div_half_even_same; [ apply den_pos | apply den_pos | ].
      nia.
Qed.

End Rounding.

(** ** Arithmetic with a zero factor *)

Section ZeroFactor.

Local Open Scope Z_scope.
Local Open Scope float_scope.
Local Notation "'num' e" := (pow2_num e) (at level 10, e at level 9).
Local Notation "'den' e" := (pow2_den e) (at level 10, e at level 9).

Lemma finite_cases (y : float) :
  is_finite y = true ->
  (exists s, Prim2SF y = S754_zero s) \/ (exists s m e, Prim2SF y = S754_finite s m e).
Proof.
  unfold is_finite, is_nan, is_infinity.
  rewrite !FloatAxioms.eqb_spec, abs_spec.
  change (Prim2SF infinity) with (S754_infinity false).
  destruct (Prim2SF y) as [s | s | | s m e]; simpl; try discriminate; eauto.
  unfold SFeqb. simpl. destruct s; discriminate.
Qed.

Lemma mul_zero (y : float) :
  is_finite y = true -> exists s, Prim2SF (y * 0) = S754_zero s.
Proof.
  intros H. rewrite mul_spec. change (Prim2SF 0) with (S754_zero false).
  destruct (finite_cases y H) as [[s ->] | (s & m & e & ->)]; simpl; eauto.
Qed.

Lemma sub_zero (x w : float) :
  (exists s, Prim2SF w = S754_zero s) -> same_value (x - w) x.
Proof.
  intros [t Hw]. unfold same_value.
  assert (E : Prim2SF (x - w) = SF64sub (Prim2SF x) (S754_zero t))
    by (rewrite sub_spec; now rewrite Hw).
  destruct (Prim2SF x) as [s | s | | s m e] eqn:Hx; simpl in E.
  - right. split; [ | eauto ]. destruct s, t; simpl in E; eauto.
  - left. apply Prim2SF_inj. congruence.
  - left. apply Prim2SF_inj. congruence.
  - left. apply Prim2SF_inj. congruence.
Qed.

Lemma round_same_value (a b : float) :
  same_value a b -> same_value (round a 3) (round b 3).
Proof.
  intros [-> | [[s Ha] [t Hb]]]; [ now left | ].
  rewrite (round_not_finite a), (round_not_finite b) by (intros; congruence).
  right. eauto.
Qed.

Lemma same_value_trans (a b c : float) :
  same_value a b -> same_value b c -> same_value a c.
Proof.
  intros [-> | [Ha Hb]] [-> | [Hb' Hc]]; unfold same_value; auto.
Qed.

Lemma SFcompare_refl (u : spec_float) : u <> S754_nan -> SFcompare u u = Some Eq.
Proof.
  destruct u as [s | s | | s m e]; simpl; try congruence.
  - now destruct s.
  - intros _. rewrite Z.compare_refl.
    change (Pos.compare_cont Eq m m) with (Pos.compare m m).
    rewrite Pos.compare_refl. now destruct s.
Qed.

(** Floats of one value compare equal, unless they are nan. *)
Lemma same_value_eqb (a b : float) :
  same_value a b -> Prim2SF b <> S754_nan -> (a =? b) = true.
Proof.
  intros [-> | [[s Ha] [t Hb]]] N; rewrite FloatAxioms.eqb_spec; unfold SFeqb.
  - now rewrite SFcompare_refl.
  - now rewrite Ha, Hb.
Qed.

(** [round(x, 3)] is not nan unless [x] is. *)
Lemma round_not_nan (x : float) : Prim2SF x <> S754_nan -> Prim2SF (round x 3) <> S754_nan.
Proof.
  intros N. destruct (Prim2SF x) as [s | s | | s m e] eqn:Hx;
    try (rewrite (round_not_finite x) by (intros; congruence); congruence).
  rewrite (round_finite x s m e Hx).
  set (n := div_half_even (Z.pos m * 1000 * pow2_num e) (pow2_den e)).
  assert (Hn : (0 <= n)%Z).
  { apply div_half_even_nonneg; [ | apply den_pos ].
    pose proof (num_pos e). nia. }
  destruct (Z.eq_dec n 0) as [Z0 | NZ].
  - rewrite Z0. change (nearest_float s 0 1000) with (signed_zero s).
    rewrite Prim2SF_signed_zero. discriminate.
  - assert (Hp : (0 < n)%Z) by lia.
    pose proof (log2_floor_1000 n Hp) as HL.
    destruct (nearest_float_normal s n 1000 Hp ltac:(lia) ltac:(lia)) as [I | (M & E & HP & _)].
    + rewrite I, Prim2SF_signed_infinity. discriminate.
    + rewrite HP. discriminate.
Qed.

(** With zero factors the two shears of X and the shear of Y leave the
    value rounded to three decimals. *)
Lemma zero_shear_x (x y z : float) :
  is_finite x = true -> is_finite y = true -> is_finite z = true ->
  (round (round (x - y * 0) 3 - z * 0) 3 =? round x 3) = true.
Proof.
  intros Hx Hy Hz. apply same_value_eqb.
  - rewrite <- (round_idempotent x).
    apply round_same_value.
    apply same_value_trans with (round (x - y * 0) 3).
    + apply sub_zero, mul_zero, Hz.
    + apply round_same_value, sub_zero, mul_zero, Hy.
  - apply round_not_nan.
    destruct (finite_cases x Hx) as [[s E] | (s & m & e & E)]; rewrite E; discriminate.
Qed.

Lemma zero_shear_y (y z : float) :
  is_finite y = true -> is_finite z = true ->
  (round (y - z * 0) 3 =? round y 3) = true.
Proof.
  intros Hy Hz. apply same_value_eqb.
  - apply round_same_value, sub_zero, mul_zero, Hz.
  - apply round_not_nan.
    destruct (finite_cases y Hy) as [[s E] | (s & m & e & E)]; rewrite E; discriminate.
Qed.

End ZeroFactor.

(** ** The compensator with zero factors *)

Section ZeroFactorProperties.

Import PrintSkewCompensationCKM.

Variable getValue : string -> string -> option number.

Local Open Scope string_scope.

Lemma not_nan_is_nan (f : float) : Prim2SF f <> S754_nan -> is_nan f = false.
Proof.
  intros N. unfold is_nan. rewrite FloatAxioms.eqb_spec. unfold SFeqb.
  now rewrite SFcompare_refl.
Qed.

(** An int that converts gives a finite float. *)
Lemma float_of_int_finite (n : Z) (f : float) :
  float_of_int n = Ok f -> is_finite f = true.
Proof.
  unfold float_of_int.
  set (s := (n <? 0)%Z). set (p := Z.abs n).
  destruct (is_infinity (nearest_float s p 1)) eqn:I; [ discriminate | ].
  intros H. injection H as <-. unfold is_finite. rewrite I, orb_false_r.
  apply negb_true_iff, not_nan_is_nan.
  destruct (Z.eq_dec p 0) as [-> | NZ].
  - change (nearest_float s 0 1) with (signed_zero s).
    rewrite Prim2SF_signed_zero. discriminate.
  - assert (Hp : (0 < p)%Z) by (unfold p; lia).
    assert (HL : (-1022 <= log2_floor p 1)%Z).
    { unfold log2_floor. change (Z.log2 1) with 0%Z.
      pose proof (Z.log2_nonneg p).
      destruct (scaled p 1 (Z.log2 p - 0)) as [a b]. destruct (b <=? a)%Z; lia. }
    destruct (nearest_float_normal s p 1 Hp ltac:(lia) HL) as [E | (M & E & HP & _)].
    + rewrite E, Prim2SF_signed_infinity. discriminate.
    + rewrite HP. discriminate.
Qed.

(** So an int is a finite number as soon as it converts. *)
Lemma is_finite_number_Int (n : Z) : is_finite_number (Int n) = converts (Int n).
Proof.
  unfold is_finite_number, converts. simpl.
  destruct (float_of_int n) as [f | ] eqn:E; [ | reflexivity ].
  exact (float_of_int_finite n f E).
Qed.

Lemma to_float_finite (v : number) :
  is_finite_number v = true -> exists f, to_float v = Ok f /\ is_finite f = true.
Proof.
  unfold is_finite_number. destruct (to_float v) as [f | ]; [ eauto | discriminate ].
Qed.

End ZeroFactorProperties.

(** The witnesses and counterexamples of the compensator run with the
    host's [getValue]. *)

Import PrintSkewCompensationCKM.
Open Scope string_scope.

Lemma corrected_coordinates_witness :
  exists (fr' : locals) (line' : string),
    process_line host_getValue some_skew 2 initial_locals "G1 X10.1234 Y-3.00049 Z0.2"
      = Ok (fr', line') /\
    line' = "G1 X10.153 Y-3.0 Z0.2"%string /\
    x_out fr' = Some (round (round (10.1234 - -3.00049 * 0.01) 3 - 0.2 * 0.002) 3) /\
    y_out fr' = Some (round (-3.00049 - 0.2 * -0.003) 3).
Proof.
  destruct (corrected_coordinates host_getValue some_skew 2 initial_locals
              "G1 X10.1234 Y-3.00049 Z0.2" 10.1234 (-3.00049) 0.2
              eq_refl eq_refl eq_refl eq_refl)
    as (fr' & line' & E & _ & _ & _ & Hx & Hy).
  exists fr', line'. split; [ exact E | ].
  split; [ | split; [ exact Hx | exact Hy ] ].
  vm_compute in E. now injection E as _ <-.
Defined.




(** ** The angle of [_calculate_skew_factor] *)

Section AngleProperties.
Import SkewCalculator.
Variable pow_2 : float -> float.
Variable acos : float -> float.

Lemma ltb_leb (x y : float) : (x <? y)%float = true -> (x <=? y)%float = true.
Proof.
  rewrite ltb_spec, leb_spec. unfold SFltb, SFleb.
  destruct (SFcompare (Prim2SF x) (Prim2SF y)) as [[ | | ]|]; congruence.
Qed.

Lemma clamp_range (x : float) :
  (-1 <=? clamp x)%float = true /\ (clamp x <=? 1)%float = true.
Proof.
  unfold clamp. destruct (x <? 1)%float eqn:H1.
  - destruct (-1 <? x)%float eqn:H2.
    + split; now apply ltb_leb.
    + split; reflexivity.
  - split; reflexivity.
Qed.

Lemma SFcompare_antisym (a b : SpecFloat.spec_float) :
  SFcompare b a = option_map CompOpp (SFcompare a b).
Proof.
  destruct a as [sa | sa | | sa ma ea], b as [sb | sb | | sb mb eb];
    try reflexivity; try (destruct sa; reflexivity); try (destruct sb; reflexivity);
    try (destruct sa, sb; reflexivity).
  simpl. destruct sa, sb; try reflexivity.
  - rewrite (Z.compare_antisym ea eb). destruct (ea ?= eb)%Z; try reflexivity.
    change (Pos.compare_cont Eq mb ma) with (mb ?= ma)%positive.
    change (Pos.compare_cont Eq ma mb) with (ma ?= mb)%positive.
    rewrite (Pos.compare_antisym ma mb). now destruct (ma ?= mb)%positive.
  - rewrite (Z.compare_antisym ea eb). destruct (ea ?= eb)%Z; try reflexivity.
    change (Pos.compare_cont Eq mb ma) with (mb ?= ma)%positive.
    change (Pos.compare_cont Eq ma mb) with (ma ?= mb)%positive.
    rewrite (Pos.compare_antisym ma mb). now destruct (ma ?= mb)%positive.
Qed.

(** The comparisons of a float with a float that is no nan. *)
Lemma compare_cases (x y : float) :
  is_nan y = false ->
  (x <? y)%float = negb (is_nan x || (y <=? x)%float) /\
  (y <? x)%float = negb (is_nan x || (x <=? y)%float).
Proof.
  intros Ny.
  assert (Nx : is_nan x = match Prim2SF x with S754_nan => true | _ => false end).
  { unfold is_nan. rewrite FloatAxioms.eqb_spec. unfold SFeqb.
    destruct (Prim2SF x) as [s | s | | s m e] eqn:E; try reflexivity.
    - now destruct s.
    - simpl. destruct s; rewrite Z.compare_refl, Pos.compare_cont_refl; reflexivity. }
  assert (Ny' : Prim2SF y <> S754_nan).
  { intros E. unfold is_nan in Ny. rewrite FloatAxioms.eqb_spec in Ny. unfold SFeqb in Ny.
    rewrite E in Ny. discriminate. }
  rewrite !ltb_spec, !leb_spec, Nx. unfold SFltb, SFleb.
  rewrite (SFcompare_antisym (Prim2SF x) (Prim2SF y)).
  destruct (Prim2SF x) as [sx | sx | | sx mx ex] eqn:Ex;
    [ | | destruct (Prim2SF y); try congruence; split; reflexivity | ].
  all: assert (C : exists c, SFcompare (Prim2SF x) (Prim2SF y) = Some c)
         by (rewrite Ex; destruct (Prim2SF y); try congruence; simpl; eauto).
  all: destruct C as [c C]; rewrite Ex in C; rewrite C; cbn [orb negb option_map];
    destruct c; split; reflexivity.
Qed.

Lemma clamp_spec (q : float) :
  clamp q = if is_nan q || (1 <=? q)%float then 1%float
            else if (q <=? -1)%float then (-1)%float else q.
Proof.
  unfold clamp.
  destruct (compare_cases q 1 eq_refl) as [L1 _].
  destruct (compare_cases q (-1) eq_refl) as [_ L2].
  rewrite L1. destruct (is_nan q || (1 <=? q)%float) eqn:C; cbn [negb].
  - reflexivity.
  - apply orb_false_elim in C. destruct C as [C _].
    rewrite L2, C. cbn [orb]. now destruct (q <=? -1)%float.
Qed.

Lemma unit_range_finite (c : float) :
  (-1 <=? c)%float = true -> (c <=? 1)%float = true ->
  is_nan c = false /\ is_finite c = true.
Proof.
  intros L U.
  assert (N : Prim2SF c <> S754_nan).
  { intros E. rewrite leb_spec in U. unfold SFleb in U. rewrite E in U. discriminate. }
  assert (I : is_infinity c = false).
  { unfold is_infinity. rewrite FloatAxioms.eqb_spec, abs_spec.
    rewrite leb_spec in L, U. unfold SFleb, SFeqb in *.
    change (Prim2SF 1) with (S754_finite false 4503599627370496 (-52)) in U.
    change (Prim2SF (-1)) with (S754_finite true 4503599627370496 (-52)) in L.
    change (Prim2SF infinity) with (S754_infinity false).
    destruct (Prim2SF c) as [s | s | | s m e]; try reflexivity.
    destruct s; simpl in *; discriminate. }
  split; [ now apply not_nan_is_nan | ].
  unfold is_finite. rewrite (not_nan_is_nan c N), I. reflexivity.
Qed.

(** X1.  [_calculate_skew_factor] on float measurements.  With [ad == 0]
    it returns [0.0].  Else [OverflowError] escapes when one of the three
    squares overflows, and [ZeroDivisionError] when [2 * ad**2] is zero.
    Else the quotient [q = (ac**2 - bd**2) / (2 * ad**2)] is clamped to
    [c]: [1.0] for a nan and for [q >= 1], [-1.0] for [q <= -1], [q]
    itself between; [c] lies within [-1, 1], and the result is the angle
    [acos(c) / pi * 180], or [0.0] when the C library's [acos] gives no
    finite number there. *)
Theorem skew_angle_cases (ac bd ad : float) :
  let r := _calculate_skew_factor pow_2 acos ac bd ad in
  let overflows (x : float) := is_finite x && is_infinity (sq pow_2 x) in
  let q := ((sq pow_2 ac - sq pow_2 bd) / (2 * sq pow_2 ad))%float in
  let c := if is_nan q || (1 <=? q)%float then 1%float
           else if (q <=? -1)%float then (-1)%float else q in
  if (ad =? 0)%float then r = Ok 0%float
  else if overflows ac || overflows bd || overflows ad then r = Raise OverflowError
  else if (2 * sq pow_2 ad =? 0)%float then r = Raise ZeroDivisionError
  else
    (-1 <=? c)%float = true /\ (c <=? 1)%float = true /\
    r = if is_nan (acos c) || is_infinity (acos c) then Ok 0%float
        else Ok (acos c / math_pi * 180)%float.
Proof.
  intros r overflows q c.
  assert (E : r = _calculate_skew_factor pow_2 acos ac bd ad) by reflexivity.
  clearbody r. unfold _calculate_skew_factor, skew_angle_body in E.
  destruct (ad =? 0)%float; [ exact E | ].
  unfold pow2 in E. fold (overflows ac) in E. fold (overflows bd) in E.
  fold (overflows ad) in E.
  destruct (overflows ac); [ exact E | ]. cbn [bind orb] in E |- *.
  destruct (overflows bd); [ exact E | ]. cbn [bind orb] in E |- *.
  destruct (overflows ad); [ exact E | ]. cbn [bind orb] in E |- *.
  unfold truediv at 1 in E.
  destruct (2 * sq pow_2 ad =? 0)%float; [ exact E | ]. cbn [bind] in E.
  fold q in E. rewrite clamp_spec in E. fold c in E.
  destruct (clamp_range q) as [L U]. rewrite clamp_spec in L, U. fold c in L, U.
  split; [ exact L | ]. split; [ exact U | ].
  destruct (unit_range_finite c L U) as [Nc Fc].
  unfold math_1 in E. rewrite Nc, Fc, !andb_true_r in E.
  destruct (is_nan (acos c)); [ exact E | ].
  destruct (is_infinity (acos c)); [ exact E | ].
  cbn [bind orb] in E |- *. unfold truediv in E.
  change (math_pi =? 0)%float with false in E. exact E.
Qed.

End AngleProperties.

(** ** [splitlines] and the joined lines *)

Section Text.

Lemma splitlines_no_linebreak (s : string) :
  Forall (fun l => no_linebreak l = true) (splitlines s).
Proof.
  assert (G : forall n s, (String.length s <= n)%nat ->
              Forall (fun l => no_linebreak l = true) (splitlines s)).
  { induction n as [ | n IH]; intros [ | c t] Hn; simpl in *; try constructor; try lia.
    - destruct (is_linebreak c) eqn:Hc.
      + constructor; [ reflexivity | ].
        destruct t as [ | d u]; [ constructor | ].
        destruct ((nat_of_ascii c =? 13)%nat && (nat_of_ascii d =? 10)%nat).
        * apply IH. simpl in Hn. lia.
        * apply IH. lia.
      + assert (H : Forall (fun l => no_linebreak l = true) (splitlines t))
          by (apply IH; lia).
        destruct (splitlines t) as [ | l ls].
        * constructor; [ | constructor ]. unfold no_linebreak. simpl. now rewrite Hc.
        * inversion H as [ | ? ? Hl Hls]; subst. constructor; [ | assumption ].
          unfold no_linebreak in *. simpl. now rewrite Hc. }
  apply (G (String.length s)). lia.
Qed.

(** A line and a line feed before more text. *)
Lemma splitlines_line (l rest : string) :
  no_linebreak l = true ->
  splitlines (l ++ newline ++ rest) = l :: splitlines rest.
Proof.
  unfold no_linebreak. induction l as [ | c l IH]; simpl; intros H.
  - destruct rest; reflexivity.
  - apply andb_prop in H. destruct H as [Hc Hl].
    apply negb_true_iff in Hc. rewrite Hc.
    unfold newline in IH. simpl in IH. rewrite (IH Hl). reflexivity.
Qed.

Lemma splitlines_last (l : string) :
  no_linebreak l = true -> splitlines l = if l =? "" then [] else [l].
Proof.
  unfold no_linebreak. induction l as [ | c l IH]; simpl; intros H; [ reflexivity | ].
  apply andb_prop in H. destruct H as [Hc Hl].
  apply negb_true_iff in Hc. rewrite Hc, (IH Hl).
  destruct l; reflexivity.
Qed.

(** Reading back lines that were joined: they are the same lines, but for
    an empty last one. *)
Lemma splitlines_join_lines (lines : list string) :
  Forall (fun l => no_linebreak l = true) lines ->
  splitlines (join_lines lines) = drop_last_empty lines.
Proof.
  induction 1 as [ | l rest Hl _ IH]; [ reflexivity | ].
  destruct rest as [ | l' rest'].
  - unfold join_lines. simpl. now apply splitlines_last.
  - change (join_lines (l :: l' :: rest')) with (l ++ newline ++ join_lines (l' :: rest')).
    rewrite (splitlines_line _ _ Hl), IH. reflexivity.
Qed.
End Text.

(** ** The scan of the start G-code *)

Section SyncProperties.
Import GCodeManager.

Lemma scan_lines_from (command : option string) (lines : list string) :
  forall st : scan,
    fold_left (scan_line command) lines st =
    mk_scan (new_gcode_lines st ++ filter (is_kept command) lines)%list
      (lines_changed st || existsb (fun l => negb (is_kept command l)) lines)
      (existing_command_found_and_correct st || existsb (is_correct command) lines).
Proof.
  induction lines as [ | line rest IH]; intros [new changed found]; simpl.
  - now rewrite app_nil_r, !orb_false_r.
  - rewrite IH. unfold scan_line, is_kept, is_correct, is_other. simpl.
    destruct (is_skew_command (strip line)); simpl.
    + destruct (is_set command &&
                match command with Some c => strip line =? c | None => false end) eqn:E;
        simpl.
      * rewrite <- app_assoc. simpl. now rewrite orb_true_r.
      * now rewrite orb_true_r.
    + rewrite <- app_assoc. reflexivity.
Qed.

Lemma scan_lines_spec (command : option string) (lines : list string) :
  scan_lines command lines =
  mk_scan (filter (is_kept command) lines)
    (existsb (fun l => negb (is_kept command l)) lines)
    (existsb (is_correct command) lines).
Proof. unfold scan_lines. now rewrite scan_lines_from. Qed.



Lemma filter_all {A : Type} (p : A -> bool) (l : list A) :
  Forall (fun x => p x = true) l -> filter p l = l.
Proof.
  induction 1 as [ | x l Hx _ IH]; simpl; [ reflexivity | ]. now rewrite Hx, IH.
Qed.

Lemma existsb_none {A : Type} (p : A -> bool) (l : list A) :
  Forall (fun x => p x = true) l -> existsb (fun x => negb (p x)) l = false.
Proof.
  induction 1 as [ | x l Hx _ IH]; simpl; [ reflexivity | ]. now rewrite Hx, IH.
Qed.

Lemma existsb_none_inv {A : Type} (p : A -> bool) (l : list A) :
  existsb (fun x => negb (p x)) l = false -> Forall (fun x => p x = true) l.
Proof.
  induction l as [ | x l IH]; simpl; intros H; constructor.
  - apply orb_false_elim in H. destruct H as [H _]. now apply negb_false_iff in H.
  - apply IH. apply orb_false_elim in H. tauto.
Qed.

Lemma Forall_filter {A : Type} (P : A -> Prop) (p : A -> bool) (l : list A) :
  Forall P l -> Forall P (filter p l).
Proof.
  induction 1 as [ | x l Hx _ IH]; simpl; [ constructor | ].
  destruct (p x); [ constructor | ]; assumption.
Qed.

Lemma Forall_filter_true {A : Type} (p : A -> bool) (l : list A) :
  Forall (fun x => p x = true) (filter p l).
Proof.
  induction l as [ | x l IH]; simpl; [ constructor | ].
  destruct (p x) eqn:E; [ constructor | ]; assumption.
Qed.

Lemma Forall_drop_last_empty (P : string -> Prop) (l : list string) :
  Forall P l -> Forall P (drop_last_empty l).
Proof.
  induction 1 as [ | x l Hx Hl IH]; simpl; [ constructor | ].
  destruct l as [ | y l'].
  - destruct (x =? ""); [ constructor | now constructor ].
  - now constructor.
Qed.

Lemma In_drop_last_empty (x : string) (l : list string) :
  In x l -> x <> "" -> In x (drop_last_empty l).
Proof.
  intros H Hx. induction l as [ | y l IH]; simpl in *; [ contradiction | ].
  destruct l as [ | z l'].
  - destruct H as [-> | []]. destruct (x =? "") eqn:E.
    + apply String.eqb_eq in E. contradiction.
    + now left.
  - destruct H as [-> | H]; [ now left | right; now apply IH ].
Qed.

Lemma strip_empty : strip "" = "".
Proof. reflexivity. Qed.

(** A start G-code in which every plugin command is the one to ensure,
    and which holds that one, is left alone. *)
Lemma new_start_gcode_stable (g : string) (command : option string) :
  Forall (fun l => is_kept command l = true) (splitlines g) ->
  (is_set command = true ->
   exists l c, command = Some c /\ In l (splitlines g) /\ strip l = c) ->
  new_start_gcode g command = None.
Proof.
  intros K P. unfold new_start_gcode. rewrite scan_lines_spec.
  rewrite (filter_all _ _ K), (existsb_none _ _ K).
  unfold add_command. simpl.
  destruct command as [c | ]; [ | reflexivity ].
  destruct (is_set (Some c)) eqn:S; simpl; [ | reflexivity ].
  destruct (existsb (is_correct (Some c)) (splitlines g)); simpl; [ reflexivity | ].
  destruct (P eq_refl) as (l & c' & E & Hin & Hl). injection E as <-.
  assert (X : existsb (fun line => strip line =? c) (splitlines g) = true).
  { apply existsb_exists. exists l. split; [ assumption | ]. now apply String.eqb_eq. }
  now rewrite X.
Qed.

(** What [sync_start_gcode] leaves: every plugin command still there is
    the one to ensure, and that one is there. *)
Lemma new_start_gcode_final (current : string) (command : option string) :
  command_ok command ->
  let final := match new_start_gcode current command with
               | Some new => new
               | None => current
               end in
  Forall (fun l => is_kept command l = true) (splitlines final) /\
  (is_set command = true ->
   exists l c, command = Some c /\ In l (splitlines final) /\ strip l = c).
Proof.
  intros Hok.
  pose proof (splitlines_no_linebreak current) as NL.
  set (lines := splitlines current) in *.
  set (K := filter (is_kept command) lines).
  assert (KK : Forall (fun l => is_kept command l = true) K)
    by apply Forall_filter_true.
  assert (KN : Forall (fun l => no_linebreak l = true) K)
    by now apply Forall_filter.
  (* the lines after the loop and the addition *)
  assert (R : exists L,
             Forall (fun l => is_kept command l = true) L /\
             Forall (fun l => no_linebreak l = true) L /\
             (is_set command = true ->
              exists l c, command = Some c /\ In l L /\ strip l = c) /\
             (new_start_gcode current command = Some (join_lines L) \/
              new_start_gcode current command = None /\
              (join_lines L = current \/ L = lines))).
  { unfold new_start_gcode. fold lines. rewrite scan_lines_spec. fold K.
    unfold add_command.
    destruct command as [c | ]; simpl.
    - destruct Hok as [Hs Hn].
      destruct (negb (c =? "")) eqn:S; simpl.
      + destruct (existsb (is_correct (Some c)) lines) eqn:F; simpl.
        * (* found and correct *)
          exists K. split; [ exact KK | ]. split; [ exact KN | ]. split.
          -- intros _. apply existsb_exists in F. destruct F as (l & Hin & Hc).
             exists l, c. split; [ reflexivity | ]. split.
             ++ apply filter_In. split; [ assumption | ].
                unfold is_kept. now rewrite Hc, orb_true_r.
             ++ unfold is_correct in Hc. apply andb_prop in Hc. destruct Hc as [_ Hc].
                now apply String.eqb_eq.
          -- destruct (existsb (fun l => negb (is_kept (Some c) l)) lines) eqn:C.
             ++ destruct (join_lines K =? current) eqn:E; simpl; [ | now left ].
                right. apply String.eqb_eq in E. auto.
             ++ right. split; [ reflexivity | ]. right.
                apply filter_all. now apply existsb_none_inv.
        * destruct (existsb (fun line => strip line =? c) K) eqn:P.
          -- (* there already *)
             exists K. split; [ exact KK | ]. split; [ exact KN | ]. split.
             ++ intros _. apply existsb_exists in P. destruct P as (l & Hin & Hc).
                exists l, c. split; [ reflexivity | ]. split; [ assumption | ].
                now apply String.eqb_eq.
             ++ simpl.
                destruct (existsb (fun l => negb (is_kept (Some c) l)) lines) eqn:C.
                ** destruct (join_lines K =? current) eqn:E; simpl; [ | now left ].
                   right. apply String.eqb_eq in E. auto.
                ** right. split; [ reflexivity | ]. right.
                   apply filter_all. now apply existsb_none_inv.
          -- (* added *)
             exists (K ++ [c])%list. split.
             { apply Forall_app. split; [ exact KK | ]. constructor; [ | constructor ].
               unfold is_kept, is_other, is_correct. rewrite Hs. simpl. rewrite S.
               rewrite String.eqb_refl. simpl.
               now destruct (is_skew_command c). }
             split.
             { apply Forall_app. split; [ exact KN | ]. now repeat constructor. }
             split.
             { intros _. exists c, c. split; [ reflexivity | ]. split; [ | exact Hs ].
               apply in_or_app. right. now left. }
             simpl.
             destruct (join_lines (K ++ [c]) =? current) eqn:E; simpl; [ | now left ].
             right. apply String.eqb_eq in E. auto.
      + (* an empty command counts as none *)
        exists K. split; [ exact KK | ]. split; [ exact KN | ]. split; [ discriminate | ].
        destruct (existsb (fun l => negb (is_kept (Some c) l)) lines) eqn:C.
        * destruct (join_lines K =? current) eqn:E; simpl; [ | now left ].
          right. apply String.eqb_eq in E. auto.
        * right. split; [ reflexivity | ]. right.
          apply filter_all. now apply existsb_none_inv.
    - exists K. split; [ exact KK | ]. split; [ exact KN | ]. split; [ discriminate | ].
      destruct (existsb (fun l => negb (is_kept None l)) lines) eqn:C.
      + destruct (join_lines K =? current) eqn:E; simpl; [ | now left ].
        right. apply String.eqb_eq in E. auto.
      + right. split; [ reflexivity | ]. right.
        apply filter_all. now apply existsb_none_inv. }
  destruct R as (L & LK & LN & LP & R).
  assert (J : Forall (fun l => is_kept command l = true) (splitlines (join_lines L)) /\
              (is_set command = true ->
               exists l c, command = Some c /\ In l (splitlines (join_lines L)) /\
                           strip l = c)).
  { rewrite (splitlines_join_lines _ LN). split.
    - now apply Forall_drop_last_empty.
    - intros S. destruct (LP S) as (l & c & E & Hin & Hl).
      exists l, c. split; [ assumption | ]. split; [ | assumption ].
      apply In_drop_last_empty; [ assumption | ].
      intros ->. rewrite strip_empty in Hl. subst c command. discriminate. }
  destruct R as [-> | [-> [E | E]]]; simpl.
  - exact J.
  - rewrite <- E. exact J.
  - fold lines. rewrite <- E. split; [ exact LK | exact LP ].
Qed.

Lemma new_start_gcode_idempotent (current new : string) (command : option string) :
  command_ok command ->
  new_start_gcode current command = Some new ->
  new_start_gcode new command = None.
Proof.
  intros Hok H. pose proof (new_start_gcode_final current command Hok) as F.
  rewrite H in F. simpl in F. destruct F as [K P].
  now apply new_start_gcode_stable.
Qed.

End SyncProperties.

(** ** The text of the firmware commands *)

Section CommandText.

Import SkewCalculator GCodeManager.

Lemma all_chars_app (p : ascii -> bool) (a b : string) :
  all_chars p (a ++ b) = all_chars p a && all_chars p b.
Proof.
  induction a as [ | c a IH]; simpl; [ reflexivity | ]. now rewrite IH, andb_assoc.
Qed.

Lemma all_chars_weaken (p q : ascii -> bool) (s : string) :
  (forall c, p c = true -> q c = true) -> all_chars p s = true -> all_chars q s = true.
Proof.
  intros W. induction s as [ | c s IH]; simpl; [ reflexivity | ].
  intros H. apply andb_prop in H. destruct H as [Hc Hs].
  now rewrite (W c Hc), IH.
Qed.

Lemma string_of_uint_digits (d : Decimal.uint) :
  all_chars is_digit (NilEmpty.string_of_uint d) = true.
Proof. induction d; simpl; auto. Qed.

Lemma nilzero_string_of_uint_digits (d : Decimal.uint) :
  all_chars is_digit (NilZero.string_of_uint d) = true.
Proof.
  destruct d; try reflexivity; apply (string_of_uint_digits (_ d)).
Qed.

Lemma zeros_digits (n : nat) : all_chars is_digit (zeros n) = true.
Proof. induction n; simpl; auto. Qed.


Lemma digits_number_chars (s : string) :
  all_chars is_digit s = true -> all_chars is_number_char s = true.
Proof.
  apply all_chars_weaken. intros c H. unfold is_number_char. now rewrite H.
Qed.

Lemma format_f_chars (x : float) (nd : nat) :
  all_chars is_number_char (format_f x nd) = true.
Proof.
  assert (F : forall (s : bool) (n : Z),
            all_chars is_number_char
              ((if s then "-" else "") ++
               NilZero.string_of_uint (N.to_uint (Z.to_N (n / 10 ^ Z.of_nat nd))) ++
               match nd with
               | O => ""
               | S _ => "." ++ digits_padded (n mod 10 ^ Z.of_nat nd) nd
               end) = true).
  { intros s n. rewrite !all_chars_app.
    rewrite (digits_number_chars _ (nilzero_string_of_uint_digits _)).
    assert (T : all_chars is_number_char
                  match nd with
                  | O => ""
                  | S _ => "." ++ digits_padded (n mod 10 ^ Z.of_nat nd) nd
                  end = true).
    { destruct nd; [ reflexivity | ]. rewrite all_chars_app. simpl.
      unfold digits_padded. rewrite all_chars_app.
      rewrite (digits_number_chars _ (zeros_digits _)).
      now rewrite (digits_number_chars _ (nilzero_string_of_uint_digits _)). }
    rewrite T. now destruct s. }
  unfold format_f.
  destruct (Prim2SF x) as [s | s | | s m e].
  - apply F.
  - now destruct s.
  - reflexivity.
  - destruct (scaled (Z.pos m * 10 ^ Z.of_nat nd) 1 (- e)) as [a b]. apply F.
Qed.

Lemma number_char_plain (c : ascii) :
  is_number_char c = true -> is_linebreak c = false /\ is_whitespace c = false.
Proof.
  unfold is_number_char, is_digit, is_linebreak, is_whitespace.
  destruct c as [[] [] [] [] [] [] [] []]; vm_compute; intros H; try discriminate; auto.
Qed.

Lemma format_f_no_linebreak (x : float) (nd : nat) :
  no_linebreak (format_f x nd) = true.
Proof.
  unfold no_linebreak. apply (all_chars_weaken is_number_char); [ | apply format_f_chars ].
  intros c H. apply number_char_plain in H. destruct H as [H _]. now rewrite H.
Qed.


Lemma prefix_app (a b : string) : String.prefix a (a ++ b) = true.
Proof.
  induction a as [ | c a IH]; simpl; [ now destruct b | ].
  destruct (ascii_dec c c); [ exact IH | congruence ].
Qed.

Lemma find_prefix (s sub : string) : String.prefix sub s = true -> find s sub = Some O.
Proof.
  intros H. destruct s as [ | c s].
  - change (find "" sub) with (if String.prefix sub "" then Some O else None).
    now rewrite H.
  - change (find (String c s) sub)
      with (if String.prefix sub (String c s) then Some O else option_map S (find s sub)).
    now rewrite H.
Qed.

Lemma find_cons (c : ascii) (s sub : string) :
  find (String c s) sub =
  if String.prefix sub (String c s) then Some O else option_map S (find s sub).
Proof. reflexivity. Qed.

Lemma contains_app (pre sub post : string) : contains (pre ++ sub ++ post) sub = true.
Proof.
  unfold contains. induction pre as [ | c pre IH].
  - change ("" ++ sub ++ post) with (sub ++ post).
    now rewrite (find_prefix _ _ (prefix_app sub post)).
  - change (String c pre ++ sub ++ post) with (String c (pre ++ sub ++ post)).
    rewrite find_cons.
    destruct (String.prefix sub (String c (pre ++ sub ++ post))); [ reflexivity | ].
    destruct (find (pre ++ sub ++ post) sub); [ reflexivity | discriminate ].
Qed.

(** Text that ends in a character [p] rejects is not stripped on the
    right. *)
Lemma rstrip_by_app (p : ascii -> bool) (a b : string) :
  rstrip_by p b = b -> b <> "" -> rstrip_by p (a ++ b) = a ++ b /\ a ++ b <> "".
Proof.
  intros Hb Nb. induction a as [ | c a [IH N]]; simpl; [ auto | ].
  split; [ | discriminate ].
  rewrite IH. destruct (a ++ b); [ congruence | reflexivity ].
Qed.

Lemma append_assoc (a b c : string) : (a ++ b) ++ c = a ++ b ++ c.
Proof. induction a as [ | x a IH]; simpl; [ reflexivity | now rewrite IH ]. Qed.

(** A command that ends in the plugin's comment. *)
Lemma command_with_comment (body : string) :
  rstrip_by is_whitespace (body ++ " ; " ++ PLUGIN_ID) = body ++ " ; " ++ PLUGIN_ID /\
  contains (body ++ " ; " ++ PLUGIN_ID) plugin_comment = true.
Proof.
  split.
  - apply rstrip_by_app; [ reflexivity | discriminate ].
  - replace (body ++ " ; " ++ PLUGIN_ID) with ((body ++ " ") ++ plugin_comment ++ "")
      by (rewrite append_assoc; reflexivity).
    apply contains_app.
Qed.

(** The Marlin command is recognised by [sync_start_gcode] as a skew
    command of the plugin, whatever the factors. *)
Lemma marlin_command_text (self : t) :
  let c := get_marlin_command self in
  strip c = c /\ no_linebreak c = true /\ is_skew_command c = true /\ c <> "".
Proof.
  unfold get_marlin_command.
  set (body := "M852 I" ++ format_f (marlin_I self) 8 ++ " J" ++
               format_f (marlin_J self) 8 ++ " K" ++ format_f (marlin_K self) 8).
  replace ("M852 I" ++ format_f (marlin_I self) 8 ++ " J" ++ format_f (marlin_J self) 8 ++
           " K" ++ format_f (marlin_K self) 8 ++ " ; " ++ PLUGIN_ID)
    with (body ++ " ; " ++ PLUGIN_ID)
    by (unfold body; rewrite !append_assoc; reflexivity).
  destruct (command_with_comment body) as [R C].
  assert (L : lstrip_by is_whitespace (body ++ " ; " ++ PLUGIN_ID) = body ++ " ; " ++ PLUGIN_ID)
    by reflexivity.
  split; [ | split; [ | split ] ].
  - unfold strip. now rewrite L.
  - pose proof (format_f_no_linebreak (marlin_I self) 8) as HI.
    pose proof (format_f_no_linebreak (marlin_J self) 8) as HJ.
    pose proof (format_f_no_linebreak (marlin_K self) 8) as HK.
    unfold no_linebreak, body in *.
    repeat (rewrite all_chars_app || rewrite all_chars_cons).
    rewrite HI, HJ, HK. reflexivity.
  - unfold is_skew_command. rewrite C.
    replace (startswith (body ++ " ; " ++ PLUGIN_ID) marlin_prefix) with true; reflexivity.
  - discriminate.
Qed.


Lemma all_chars_cons (p : ascii -> bool) (c : ascii) (s : string) :
  all_chars p (String c s) = p c && all_chars p s.
Proof. reflexivity. Qed.

Lemma klipper_part_text (plane part : string) (ac bd ad : obj) :
  klipper_part plane ac bd ad = Ok part ->
  no_linebreak plane = true -> no_linebreak part = true.
Proof.
  unfold klipper_part.
  destruct (py_float ac) as [a | ]; simpl; [ | discriminate ].
  destruct (py_float bd) as [b | ]; simpl; [ | discriminate ].
  destruct (py_float ad) as [d | ]; simpl; [ | discriminate ].
  intros H Hp. injection H as <-.
  pose proof (format_f_no_linebreak a 3) as Ha.
  pose proof (format_f_no_linebreak b 3) as Hb.
  pose proof (format_f_no_linebreak d 3) as Hd.
  unfold no_linebreak in *.
  repeat (rewrite all_chars_app || rewrite all_chars_cons).
  rewrite Hp, Ha, Hb, Hd. reflexivity.
Qed.

(** The Klipper command is recognised by [sync_start_gcode] as a skew
    command of the plugin, except for the text returned on an error. *)
Lemma klipper_command_text (self : t) (c : string) :
  get_klipper_command self = Ok c ->
  strip c = c /\ no_linebreak c = true /\ c <> "" /\
  is_skew_command c = negb (c =? klipper_error).
Proof.
  unfold get_klipper_command.
  destruct (klipper_part "XY" (xy_ac self) (xy_bd self) (xy_ad self)) as [xy | e1] eqn:E1;
    simpl.
  2: { destruct (caught_conversion e1); [ | discriminate ].
       intros H. injection H as <-. repeat split; discriminate. }
  destruct (klipper_part "XZ" (xz_ac self) (xz_bd self) (xz_ad self)) as [xz | e2] eqn:E2;
    simpl.
  2: { destruct (caught_conversion e2); [ | discriminate ].
       intros H. injection H as <-. repeat split; discriminate. }
  destruct (klipper_part "YZ" (yz_ac self) (yz_bd self) (yz_ad self)) as [yz | e3] eqn:E3;
    simpl.
  2: { destruct (caught_conversion e3); [ | discriminate ].
       intros H. injection H as <-. repeat split; discriminate. }
  intros H. injection H as <-.
  assert (X : exists r, xy = "XY" ++ r).
  { unfold klipper_part in E1.
    destruct (py_float (xy_ac self)); simpl in E1; [ | discriminate ].
    destruct (py_float (xy_bd self)); simpl in E1; [ | discriminate ].
    destruct (py_float (xy_ad self)); simpl in E1; [ | discriminate ].
    injection E1 as <-. eexists. reflexivity. }
  apply klipper_part_text in E1, E2, E3; try reflexivity.
  set (body := "SET_SKEW " ++ xy ++ " " ++ xz ++ " " ++ yz).
  replace (String "S" (String "E" (String "T" (String "_" (String "S" (String "K"
             (String "E" (String "W" (String " "
                (xy ++ String " " (xz ++ String " " (yz ++ String " " (String ";"
                   (String " " PLUGIN_ID))))))))))))))
    with (body ++ " ; " ++ PLUGIN_ID)
    by (unfold body; rewrite !append_assoc; reflexivity).
  destruct (command_with_comment body) as [R C].
  split; [ | split; [ | split ] ].
  - unfold strip.
    replace (lstrip_by is_whitespace (body ++ " ; " ++ PLUGIN_ID))
      with (body ++ " ; " ++ PLUGIN_ID) by reflexivity.
    exact R.
  - unfold no_linebreak, body in *.
    repeat (rewrite all_chars_app || rewrite all_chars_cons).
    rewrite E1, E2, E3. reflexivity.
  - discriminate.
  - unfold is_skew_command. rewrite C.
    replace (startswith (body ++ " ; " ++ PLUGIN_ID) klipper_prefix) with true by reflexivity.
    rewrite andb_true_r, orb_true_r.
    destruct X as [r ->]. reflexivity.
Qed.

End CommandText.

(** ** [sync_start_gcode] *)

Section SyncStartGcode.

Import SkewCalculator GCodeManager.

(** The commands of the calculator are on one line and stripped. *)
Lemma command_to_ensure_ok (self : t) (k method : string) (marlin_add klipper_add : bool) :
  get_klipper_command self = Ok k ->
  let command := command_to_ensure (get_marlin_command self) k method marlin_add klipper_add in
  command_ok command /\ (forall c, command = Some c -> is_set command = true).
Proof.
  intros Hk. unfold command_to_ensure.
  destruct (marlin_command_text self) as (M1 & M2 & _ & M4).
  destruct (klipper_command_text self k Hk) as (K1 & K2 & K3 & _).
  destruct ((method =? "marlin") && marlin_add); simpl.
  - split; [ auto | ]. intros c E. injection E as <-.
    destruct (get_marlin_command self); [ congruence | reflexivity ].
  - destruct ((method =? "klipper") && klipper_add); simpl.
    + split; [ auto | ]. intros c E. injection E as <-.
      destruct k; [ congruence | reflexivity ].
    + split; [ exact I | discriminate ].
Qed.

(** X2.  Synchronising twice changes nothing the second time. *)
Theorem sync_start_gcode_idempotent (current_start_gcode : option string) (self : t)
    (method : string) (marlin_add klipper_add : bool) (new : string) :
  sync_start_gcode current_start_gcode self method marlin_add klipper_add = Some new ->
  sync_start_gcode (Some new) self method marlin_add klipper_add = None.
Proof.
  unfold sync_start_gcode.
  destruct (get_klipper_command self) as [k | e] eqn:Hk; [ | discriminate ].
  destruct (command_to_ensure_ok self k method marlin_add klipper_add Hk) as [Hok _].
  now apply new_start_gcode_idempotent.
Qed.

Lemma final_gcode_eq (current_start_gcode : option string) (command : option string) :
  final_gcode current_start_gcode
    (new_start_gcode match current_start_gcode with Some g => g | None => "" end command) =
  match new_start_gcode match current_start_gcode with Some g => g | None => "" end command with
  | Some new => new
  | None => match current_start_gcode with Some g => g | None => "" end
  end.
Proof.
  unfold final_gcode.
  destruct (new_start_gcode _ command); [ reflexivity | ].
  now destruct current_start_gcode.
Qed.

(** X3.  After a synchronisation every skew command of the plugin left in
    the start G-code is the command to ensure, and that command is there:
    with none to ensure, none is left. *)
Theorem sync_start_gcode_result (current_start_gcode : option string) (self : t)
    (method k : string) (marlin_add klipper_add : bool) :
  get_klipper_command self = Ok k ->
  let command := command_to_ensure (get_marlin_command self) k method marlin_add klipper_add in
  let final := final_gcode current_start_gcode
                 (sync_start_gcode current_start_gcode self method marlin_add klipper_add) in
  Forall (fun l => is_skew_command (strip l) = true -> Some (strip l) = command)
    (splitlines final) /\
  (forall c, command = Some c -> exists l, In l (splitlines final) /\ strip l = c).
Proof.
  intros Hk command final.
  destruct (command_to_ensure_ok self k method marlin_add klipper_add Hk) as [Hok Hset].
  fold command in Hok, Hset.
  assert (E : final = match new_start_gcode
                              match current_start_gcode with Some g => g | None => "" end
                              command with
                      | Some new => new
                      | None => match current_start_gcode with Some g => g | None => "" end
                      end).
  { unfold final, sync_start_gcode. rewrite Hk. apply final_gcode_eq. }
  destruct (new_start_gcode_final
              match current_start_gcode with Some g => g | None => "" end command Hok)
    as [K P].
  rewrite <- E in K, P. split.
  - eapply Forall_impl; [ | exact K ].
    intros l Hl Hs. unfold is_kept, is_other, is_correct in Hl. rewrite Hs in Hl.
    simpl in Hl. apply andb_prop in Hl. destruct Hl as [_ Hl].
    destruct command as [c | ]; [ | discriminate ].
    apply String.eqb_eq in Hl. now rewrite Hl.
  - intros c Ec. destruct (P (Hset c Ec)) as (l & c' & Ec' & Hin & Hl).
    exists l. split; [ assumption | ]. congruence.
Qed.


Lemma filter_filter_weaker {A : Type} (p q : A -> bool) (l : list A) :
  (forall x, p x = true -> q x = true) -> filter p (filter q l) = filter p l.
Proof.
  intros W. induction l as [ | x l IH]; simpl; [ reflexivity | ].
  destruct (q x) eqn:Q; simpl.
  - now rewrite IH.
  - destruct (p x) eqn:P; [ | exact IH ]. rewrite (W x P) in Q. discriminate.
Qed.

Lemma filter_drop_last_empty (p : string -> bool) (l : list string) :
  p "" = false -> filter p (drop_last_empty l) = filter p l.
Proof.
  intros E. induction l as [ | x l IH]; [ reflexivity | ].
  destruct l as [ | y l'].
  - simpl. destruct (x =? "") eqn:X; [ | reflexivity ].
    apply String.eqb_eq in X. subst x. now rewrite E.
  - change (drop_last_empty (x :: y :: l')) with (x :: drop_last_empty (y :: l')).
    change (filter p (x :: drop_last_empty (y :: l')))
      with (if p x then x :: filter p (drop_last_empty (y :: l'))
            else filter p (drop_last_empty (y :: l'))).
    rewrite IH. reflexivity.
Qed.

(** The lines of the start G-code after a synchronisation: those the loop
    keeps, and the command when it is added. *)
Lemma new_start_gcode_lines (current : string) (command : option string) :
  command_ok command ->
  let final := match new_start_gcode current command with
               | Some new => new
               | None => current
               end in
  exists tail,
    (tail = [] \/ exists c, command = Some c /\ c <> "" /\ tail = [c]) /\
    (splitlines final = (filter (is_kept command) (splitlines current) ++ tail)%list \/
     splitlines final =
       drop_last_empty (filter (is_kept command) (splitlines current) ++ tail)%list).
Proof.
  intros Hok.
  pose proof (splitlines_no_linebreak current) as NL.
  set (lines := splitlines current) in *.
  set (K := filter (is_kept command) lines).
  assert (KN : Forall (fun l => no_linebreak l = true) K) by now apply Forall_filter.
  assert (A : exists tail,
             (tail = [] /\
              add_command command (scan_lines command lines) = scan_lines command lines \/
              exists c, command = Some c /\ c <> "" /\ tail = [c] /\
                        add_command command (scan_lines command lines) =
                        mk_scan (K ++ tail)%list true
                          (existing_command_found_and_correct (scan_lines command lines))) /\
             Forall (fun l => no_linebreak l = true) tail).
  { unfold add_command. rewrite scan_lines_spec. fold K. simpl.
    destruct command as [c | ]; [ | exists []; split; [ left; auto | constructor ] ].
    destruct Hok as [_ Hn]. simpl.
    destruct (negb (c =? "")) eqn:S; simpl;
      [ | exists []; split; [ left; auto | constructor ] ].
    destruct (existsb (is_correct (Some c)) lines); simpl;
      [ exists []; split; [ left; auto | constructor ] | ].
    destruct (existsb (fun line => strip line =? c) K);
      [ exists []; split; [ left; auto | constructor ] | ].
    exists [c]. split; [ | now repeat constructor ].
    right. exists c. repeat split.
    apply negb_true_iff in S. now apply String.eqb_neq in S. }
  destruct A as (tail & A & TN).
  exists tail. split; [ destruct A as [[-> _] | (c & E & N & -> & _)]; eauto | ].
  assert (LN : Forall (fun l => no_linebreak l = true) (K ++ tail)%list)
    by (apply Forall_app; auto).
  unfold new_start_gcode. fold lines.
  destruct A as [[-> A] | (c & E & N & -> & A)]; rewrite A.
  - rewrite scan_lines_spec. fold K. simpl. rewrite app_nil_r in *.
    destruct (existsb (fun l => negb (is_kept command l)) lines) eqn:C.
    + right. destruct (join_lines K =? current) eqn:J; simpl.
      * apply String.eqb_eq in J. rewrite <- J at 1. now apply splitlines_join_lines.
      * now apply splitlines_join_lines.
    + left. fold lines. unfold K. symmetry. apply filter_all. now apply existsb_none_inv.
  - simpl. right. destruct (join_lines (K ++ [c]) =? current) eqn:J; simpl.
    + apply String.eqb_eq in J. rewrite <- J at 1. now apply splitlines_join_lines.
    + now apply splitlines_join_lines.
Qed.


(** The lines that are neither empty nor a skew command of the plugin
    after a synchronisation: those there were, and at most the error text
    of the Klipper command. *)
Lemma other_lines_after_sync (current_start_gcode : option string) (self : t)
    (method : string) (marlin_add klipper_add : bool) :
  let current := match current_start_gcode with Some g => g | None => "" end in
  let final := final_gcode current_start_gcode
                 (sync_start_gcode current_start_gcode self method marlin_add klipper_add) in
  exists tail,
    filter is_foreign (splitlines final) =
      (filter is_foreign (splitlines current) ++ tail)%list /\
    (tail = [] \/
     tail = [klipper_error] /\ get_klipper_command self = Ok klipper_error).
Proof.
  intros current final. unfold final, sync_start_gcode.
  destruct (get_klipper_command self) as [k | e] eqn:Hk.
  2: { exists []. rewrite app_nil_r. split; [ | now left ].
       unfold final_gcode, current. now destruct current_start_gcode. }
  destruct (command_to_ensure_ok self k method marlin_add klipper_add Hk) as [Hok _].
  set (command := command_to_ensure (get_marlin_command self) k method marlin_add klipper_add)
    in *.
  rewrite final_gcode_eq. fold current.
  destruct (new_start_gcode_lines current command Hok) as (tail & T & S).
  assert (F : filter is_foreign
                (splitlines match new_start_gcode current command with
                            | Some new => new
                            | None => current
                            end) =
              (filter is_foreign (splitlines current) ++ filter is_foreign tail)%list).
  { destruct S as [-> | ->]; [ | rewrite filter_drop_last_empty by reflexivity ];
      rewrite filter_app; f_equal; apply filter_filter_weaker;
      intros l Hl; unfold is_foreign in Hl; apply andb_prop in Hl; destruct Hl as [Hl _];
      unfold is_kept; now rewrite Hl. }
  exists (filter is_foreign tail). split; [ exact F | ].
  destruct T as [-> | (c & Ec & Nc & ->)]; [ now left | ].
  simpl. destruct (is_foreign c) eqn:Fc; [ | now left ].
  right.
  unfold is_foreign, is_other in Fc. apply andb_prop in Fc. destruct Fc as [Fc _].
  apply negb_true_iff in Fc.
  unfold command, command_to_ensure in Ec.
  destruct ((method =? "marlin") && marlin_add).
  - injection Ec as <-. destruct (marlin_command_text self) as (M1 & _ & M3 & _).
    rewrite M1 in Fc. congruence.
  - destruct ((method =? "klipper") && klipper_add); [ | discriminate ].
    injection Ec as <-. destruct (klipper_command_text self k Hk) as (K1 & _ & _ & K4).
    rewrite K1, K4 in Fc. apply negb_false_iff in Fc. apply String.eqb_eq in Fc.
    subst k. split; reflexivity.
Qed.

(** X4.  A synchronisation keeps every line that is not empty and not a
    skew command of the plugin, in its order; the one such line it can
    add is the error text of the Klipper command. *)
Theorem sync_start_gcode_other_lines (current_start_gcode : option string) (self : t)
    (method : string) (marlin_add klipper_add : bool) :
  let current := match current_start_gcode with Some g => g | None => "" end in
  let final := final_gcode current_start_gcode
                 (sync_start_gcode current_start_gcode self method marlin_add klipper_add) in
  exists tail,
    filter is_foreign (splitlines final) =
      (filter is_foreign (splitlines current) ++ tail)%list /\
    (tail = [] \/ tail = [klipper_error]).
Proof.
  intros current final.
  destruct (other_lines_after_sync current_start_gcode self method marlin_add klipper_add)
    as (tail & E & T).
  exists tail. split; [ exact E | ].
  destruct T as [T | [T _]]; [ now left | now right ].
Qed.

Lemma is_float_py_float (v : obj) : is_float v = true -> exists f, v = PyFloat f.
Proof. destruct v; try discriminate. eauto. Qed.

(** With float measurements the Klipper command is not the error text. *)
Lemma float_measurements_klipper (self : t) :
  holds_floats self = true ->
  exists c, get_klipper_command self = Ok c /\ (c =? klipper_error) = false.
Proof.
  unfold holds_floats. intros H.
  repeat (apply andb_prop in H; destruct H as [H ?]).
  repeat match goal with
         | K : is_float _ = true |- _ => apply is_float_py_float in K; destruct K as [? K]
         end.
  unfold get_klipper_command, klipper_part.
  repeat match goal with K : _ = PyFloat _ |- _ => rewrite K; clear K end.
  cbn [py_float bind]. eexists. split; reflexivity.
Qed.

(** X18.  With float measurements, which is what [__init__], the
    configuration and the dialog store, the Klipper command is a
    [SET_SKEW] command that [sync_start_gcode] recognises, and a
    synchronisation leaves the lines that are neither empty nor a skew
    command of the plugin exactly as they were. *)
Theorem float_measurements_sync (self : t) :
  holds_floats self = true ->
  (exists c, get_klipper_command self = Ok c /\ is_skew_command (strip c) = true) /\
  forall (current_start_gcode : option string) (method : string)
         (marlin_add klipper_add : bool),
    filter is_foreign
      (splitlines (final_gcode current_start_gcode
                     (sync_start_gcode current_start_gcode self method marlin_add klipper_add)))
    = filter is_foreign
        (splitlines match current_start_gcode with Some g => g | None => "" end).
Proof.
  intros H. destruct (float_measurements_klipper self H) as (c & Ec & Nc). split.
  - exists c. split; [ exact Ec | ].
    destruct (klipper_command_text self c Ec) as (K1 & _ & _ & K4).
    rewrite K1, K4, Nc. reflexivity.
  - intros current_start_gcode method marlin_add klipper_add.
    destruct (other_lines_after_sync current_start_gcode self method marlin_add klipper_add)
      as (tail & E & T).
    cbv zeta in E. rewrite E.
    destruct T as [-> | [_ T]]; [ apply app_nil_r | ].
    rewrite Ec in T. injection T as ->. discriminate.
Qed.

End SyncStartGcode.

(** ** The commands and the controller *)

Section Recognition.

Import SkewCalculator GCodeManager.

Lemma py_float_raises (v : obj) (e : exn) :
  py_float v = Raise e -> caught_conversion e = true \/ e = OverflowError.
Proof.
  destruct v as [f | n | s | ]; simpl.
  - discriminate.
  - unfold float_of_int. destruct (is_infinity _); [ | discriminate ].
    intros H. injection H as <-. now right.
  - destruct (float_of_str s); [ discriminate | ]. intros H. injection H as <-. now left.
  - intros H. injection H as <-. now left.
Qed.

Lemma klipper_part_raises (plane : string) (ac bd ad : obj) (e : exn) :
  klipper_part plane ac bd ad = Raise e -> caught_conversion e = true \/ e = OverflowError.
Proof.
  unfold klipper_part.
  destruct (py_float ac) as [a | e1] eqn:E1; simpl.
  2: { intros H. injection H as <-. now apply py_float_raises in E1. }
  destruct (py_float bd) as [b | e2] eqn:E2; simpl.
  2: { intros H. injection H as <-. now apply py_float_raises in E2. }
  destruct (py_float ad) as [d | e3] eqn:E3; simpl; [ discriminate | ].
  intros H. injection H as <-. now apply py_float_raises in E3.
Qed.

(** X5.  [sync_start_gcode] recognises the Marlin command as a skew
    command of the plugin, and the Klipper command too unless it is the
    text returned on an error; the one exception that escapes
    [get_klipper_command] is [OverflowError]. *)
Theorem skew_commands_recognised (self : t) :
  is_skew_command (strip (get_marlin_command self)) = true /\
  match get_klipper_command self with
  | Ok c => is_skew_command (strip c) = negb (c =? klipper_error)
  | Raise e => e = OverflowError
  end.
Proof.
  split.
  - destruct (marlin_command_text self) as (M1 & _ & M3 & _). now rewrite M1.
  - destruct (get_klipper_command self) as [c | e] eqn:Hk.
    + destruct (klipper_command_text self c Hk) as (K1 & _ & _ & K4). now rewrite K1.
    + unfold get_klipper_command in Hk.
      destruct (klipper_part "XY" _ _ _) as [xy | e1] eqn:E1; simpl in Hk.
      2: { apply klipper_part_raises in E1. destruct E1 as [E1 | ->].
           - rewrite E1 in Hk. discriminate.
           - simpl in Hk. congruence. }
      destruct (klipper_part "XZ" _ _ _) as [xz | e2] eqn:E2; simpl in Hk.
      2: { apply klipper_part_raises in E2. destruct E2 as [E2 | ->].
           - rewrite E2 in Hk. discriminate.
           - simpl in Hk. congruence. }
      destruct (klipper_part "YZ" _ _ _) as [yz | e3] eqn:E3; simpl in Hk; [ discriminate | ].
      apply klipper_part_raises in E3. destruct E3 as [E3 | ->].
      * rewrite E3 in Hk. discriminate.
      * simpl in Hk. congruence.
Qed.

End Recognition.

Section ControllerProperties.

Import GCodeManager PluginController.

(** X6.  The two places that synchronise the start G-code, the one with
    the effective method and flags and the one with the stored ones, set
    the same. *)
Theorem sync_calls_agree (self : t) (current_start_gcode : option string) :
  _sync_gcode_based_on_state self current_start_gcode =
  _on_dialog_settings_saved self current_start_gcode.
Proof.
  unfold _sync_gcode_based_on_state, _on_dialog_settings_saved.
  destruct (enabled self); [ | reflexivity ].
  unfold sync_start_gcode.
  destruct (SkewCalculator.get_klipper_command (_skew_calculator self)) as [k | e].
  - destruct ((method self =? "marlin") && marlin_add_to_gcode self) eqn:M.
    + unfold command_to_ensure. rewrite M.
      apply andb_prop in M. destruct M as [M _]. now rewrite M.
    + destruct ((method self =? "klipper") && klipper_add_to_gcode self) eqn:K.
      * unfold command_to_ensure. rewrite M, K.
        apply andb_prop in K. destruct K as [K _]. now rewrite K, andb_false_r.
      * unfold command_to_ensure. now rewrite M, K, !andb_false_r.
  - destruct ((method self =? "marlin") && marlin_add_to_gcode self);
      [ | destruct ((method self =? "klipper") && klipper_add_to_gcode self) ];
      unfold sync_start_gcode; reflexivity.
Qed.


(** X7.  When compensation is disabled, or no firmware command is switched
    on, synchronising leaves no skew command of the plugin in the start
    G-code. *)
Theorem inactive_removes_commands (self : t) (current_start_gcode : option string)
    (k : string) :
  SkewCalculator.get_klipper_command (_skew_calculator self) = Ok k ->
  enabled self &&
  ((method self =? "marlin") && marlin_add_to_gcode self ||
   (method self =? "klipper") && klipper_add_to_gcode self) = false ->
  Forall (fun l => is_skew_command (strip l) = false)
    (splitlines (final_gcode current_start_gcode
                   (_sync_gcode_based_on_state self current_start_gcode))).
Proof.
  intros Hk H.
  assert (E : _sync_gcode_based_on_state self current_start_gcode =
              new_start_gcode match current_start_gcode with Some g => g | None => "" end
                None).
  { unfold _sync_gcode_based_on_state, sync_start_gcode. rewrite Hk.
    destruct (enabled self); [ | reflexivity ].
    rewrite andb_true_l in H. apply orb_false_elim in H. destruct H as [M K]. rewrite M, K.
    unfold command_to_ensure. now rewrite !andb_false_r. }
  rewrite E, final_gcode_eq.
  destruct (new_start_gcode_final
              match current_start_gcode with Some g => g | None => "" end None I)
    as [F _].
  eapply Forall_impl; [ | exact F ].
  intros l Hl. unfold is_kept, is_other, is_correct in Hl.
  rewrite andb_false_r, orb_false_r in Hl. now apply negb_true_iff in Hl.
Qed.

(** X8.  With compensation enabled and the Marlin command switched on,
    synchronising leaves the M852 command of the current factors in the
    start G-code, and no other skew command of the plugin. *)
Theorem marlin_command_synchronised (self : t) (current_start_gcode : option string)
    (k : string) :
  SkewCalculator.get_klipper_command (_skew_calculator self) = Ok k ->
  enabled self = true -> method self = "marlin" -> marlin_add_to_gcode self = true ->
  let command := SkewCalculator.get_marlin_command (_skew_calculator self) in
  let final := final_gcode current_start_gcode
                 (_sync_gcode_based_on_state self current_start_gcode) in
  (exists l, In l (splitlines final) /\ strip l = command) /\
  Forall (fun l => is_skew_command (strip l) = true -> strip l = command) (splitlines final).
Proof.
  intros Hk He Hm Ha command final.
  assert (E : _sync_gcode_based_on_state self current_start_gcode =
              new_start_gcode match current_start_gcode with Some g => g | None => "" end
                (Some command)).
  { unfold _sync_gcode_based_on_state, sync_start_gcode. rewrite Hk, He, Hm, Ha. reflexivity. }
  unfold final. rewrite E, final_gcode_eq.
  destruct (marlin_command_text (_skew_calculator self)) as (M1 & M2 & _ & M4).
  fold command in M1, M2, M4.
  destruct (new_start_gcode_final
              match current_start_gcode with Some g => g | None => "" end
              (Some command) (conj M1 M2))
    as [F P].
  split.
  - destruct P as (l & c & Ec & Hin & Hl).
    + simpl. destruct command; [ congruence | reflexivity ].
    + exists l. split; [ assumption | ]. congruence.
  - eapply Forall_impl; [ | exact F ].
    intros l Hl Hs. unfold is_kept, is_other, is_correct in Hl. rewrite Hs in Hl.
    simpl in Hl. now apply String.eqb_eq.
Qed.

End ControllerProperties.

(** ** The requests of the menu dialog *)

Section RequestProperties.

Import GCodeManager PluginController.

Variable missing_at_request missing_at_update : bool.

(** The start G-code after [_sync_gcode_based_on_state]: its skew commands
    of the plugin are the command of the controller's state. *)
Lemma state_synchronised (self : t) (current_start_gcode : option string) (k : string) :
  SkewCalculator.get_klipper_command (_skew_calculator self) = Ok k ->
  let command := active_command self k in
  let final := final_gcode current_start_gcode
                 (_sync_gcode_based_on_state self current_start_gcode) in
  Forall (fun l => is_skew_command (strip l) = true -> Some (strip l) = command)
    (splitlines final) /\
  (forall c, command = Some c -> exists l, In l (splitlines final) /\ strip l = c).
Proof.
  intros Hk command final.
  set (current := match current_start_gcode with Some g => g | None => "" end).
  assert (E : _sync_gcode_based_on_state self current_start_gcode =
              new_start_gcode current command).
  { unfold _sync_gcode_based_on_state, sync_start_gcode, command, active_command.
    rewrite Hk. fold current.
    destruct (enabled self); [ | reflexivity ].
    unfold command_to_ensure.
    destruct ((method self =? "marlin") && marlin_add_to_gcode self) eqn:M.
    - apply andb_prop in M. destruct M as [M _]. now rewrite M.
    - destruct ((method self =? "klipper") && klipper_add_to_gcode self) eqn:K.
      + apply andb_prop in K. destruct K as [K _]. now rewrite K, andb_false_r.
      + now rewrite !andb_false_r. }
  assert (Hok : command_ok command /\ (forall c, command = Some c -> is_set command = true)).
  { unfold command, active_command. destruct (enabled self).
    - exact (command_to_ensure_ok (_skew_calculator self) k (method self)
               (marlin_add_to_gcode self) (klipper_add_to_gcode self) Hk).
    - split; [ exact I | discriminate ]. }
  destruct Hok as [Hok Hset].
  unfold final. rewrite E. unfold current. rewrite final_gcode_eq. fold current.
  destruct (new_start_gcode_final current command Hok) as [K P].
  split.
  - eapply Forall_impl; [ | exact K ].
    intros l Hl Hs. unfold is_kept, is_other, is_correct in Hl. rewrite Hs in Hl.
    simpl in Hl. apply andb_prop in Hl. destruct Hl as [_ Hl].
    destruct command as [c | ]; [ | discriminate ].
    apply String.eqb_eq in Hl. now rewrite Hl.
  - intros c Ec. destruct (P (Hset c Ec)) as (l & c' & Ec' & Hin & Hl).
    exists l. split; [ assumption | ]. congruence.
Qed.

(** The handlers leave the calculator alone. *)
Lemma handle_calculator (menu_open : bool) (self : t) (r : request)
    (current_start_gcode : option string) :
  _skew_calculator
    (fst (fst (handle menu_open missing_at_request missing_at_update self r
                 current_start_gcode))) = _skew_calculator self.
Proof.
  destruct r as [enable | enable | enable | enable];
    unfold handle, _handle_add_marlin_gcode_request, _handle_add_klipper_gcode_request,
      _handle_toggle_post_processing_script, _handle_enable_compensation_toggle,
      _save_current_settings, _update_plugin_menu_dialog_state, _ensure_pp_script_state;
    destruct menu_open, (enabled self), enable, missing_at_request, missing_at_update;
    cbn;
    repeat match goal with
           | |- context [SkewCalculator.get_klipper_command ?c] =>
               destruct (SkewCalculator.get_klipper_command c)
           | |- context [if ?b then _ else _] => destruct b
           end; reflexivity.
Qed.

(** What a handler sets in the start G-code is what
    [_sync_gcode_based_on_state] sets for the state it leaves. *)
Lemma handle_synchronises (self : t) (r : request) (current_start_gcode : option string)
    (k : string) :
  SkewCalculator.get_klipper_command (_skew_calculator self) = Ok k ->
  exists self',
    handle true missing_at_request missing_at_update self r current_start_gcode =
      (self', _sync_gcode_based_on_state self' current_start_gcode, Returned).
Proof.
  intros Hk.
  assert (U : forall s : t,
            _skew_calculator s = _skew_calculator self ->
            exists self',
              _update_plugin_menu_dialog_state true missing_at_update s current_start_gcode =
                (self', _sync_gcode_based_on_state self' current_start_gcode, Returned)).
  { intros s Hs. unfold _update_plugin_menu_dialog_state. rewrite Hs, Hk. eauto. }
  destruct r as [enable | enable | enable | enable];
    unfold handle, _handle_add_marlin_gcode_request, _handle_add_klipper_gcode_request,
      _handle_toggle_post_processing_script, _handle_enable_compensation_toggle,
      _save_current_settings;
    apply U; unfold _ensure_pp_script_state;
    destruct (enabled self), enable, missing_at_request; reflexivity.
Qed.

(** X20.  With the menu dialog open, every request of the dialog ends
    with the start G-code in step with the controller: the skew commands
    of the plugin in it are exactly the command of the method that is
    switched on after the request, none when the compensation is disabled
    or no firmware command is switched on. *)
Theorem request_synchronised (self : t) (r : request) (current_start_gcode : option string)
    (k : string) :
  SkewCalculator.get_klipper_command (_skew_calculator self) = Ok k ->
  let result := handle true missing_at_request missing_at_update self r current_start_gcode in
  let self' := fst (fst result) in
  let final := final_gcode current_start_gcode (snd (fst result)) in
  snd result = Returned /\
  Forall (fun l => is_skew_command (strip l) = true -> Some (strip l) = active_command self' k)
    (splitlines final) /\
  (forall c, active_command self' k = Some c ->
             exists l, In l (splitlines final) /\ strip l = c).
Proof.
  intros Hk result self' final.
  destruct (handle_synchronises self r current_start_gcode k Hk) as [s E].
  unfold final, self', result. rewrite E. cbn [fst snd].
  split; [ reflexivity | ].
  apply state_synchronised.
  replace s with (fst (fst (handle true missing_at_request missing_at_update self r
                              current_start_gcode))) by now rewrite E.
  now rewrite handle_calculator.
Qed.

(** X21.  On an enabled controller the three requests for a method keep
    the switches exclusive: of the Marlin flag, the Klipper flag and the
    state of the script at most one is on afterwards, a firmware flag
    that is on has its method selected, and a request to switch off
    leaves all three off and the method [none]. *)
Theorem request_switches (menu_open : bool) (self : t) (r : request)
    (current_start_gcode : option string) :
  enabled self = true ->
  (forall enable, r <> EnableCompensation enable) ->
  let self' := fst (fst (handle menu_open missing_at_request missing_at_update self r
                           current_start_gcode)) in
  marlin_add_to_gcode self' && klipper_add_to_gcode self' = false /\
  marlin_add_to_gcode self' && pp_script_checkbox_state self' = false /\
  klipper_add_to_gcode self' && pp_script_checkbox_state self' = false /\
  (marlin_add_to_gcode self' = true -> method self' = "marlin") /\
  (klipper_add_to_gcode self' = true -> method self' = "klipper") /\
  (r = AddMarlin true -> marlin_add_to_gcode self' = true) /\
  (r = AddKlipper true -> klipper_add_to_gcode self' = true) /\
  (r = AddMarlin false \/ r = AddKlipper false \/ r = TogglePostProcessing false ->
   marlin_add_to_gcode self' = false /\ klipper_add_to_gcode self' = false /\
   pp_script_checkbox_state self' = false /\ method self' = "none").
Proof.
  intros He Hr self'. unfold self'.
  destruct self as [e m ma ka pp calc]. cbn in He. subst e.
  destruct r as [enable | enable | enable | enable]; [ | | | now destruct (Hr enable) ];
    unfold handle, _handle_add_marlin_gcode_request, _handle_add_klipper_gcode_request,
      _handle_toggle_post_processing_script, _save_current_settings,
      _update_plugin_menu_dialog_state, _ensure_pp_script_state;
    destruct menu_open, enable, missing_at_request, missing_at_update; cbn;
    try destruct (SkewCalculator.get_klipper_command calc); cbn;
    repeat split; intros; try reflexivity; try discriminate;
    match goal with
    | H : _ \/ _ |- _ => destruct H as [H | [H | H]]; discriminate
    end.
Qed.

End RequestProperties.

(** ** The state read from the configuration *)

Section ConfigurationState.

Import PrintSkewCompensationCKM.

Variable pow_2 : float -> float.

(** The type of a value of the settings. *)
Lemma get_typed_value_type (current_settings_source : dict) (key_name : string)
    (default : value) :
  match default, PluginController.get_typed_value current_settings_source key_name default with
  | VBool _, VBool _ | VFloat _, VFloat _ | VStr _, VStr _ => True
  | _, _ => False
  end.
Proof.
  unfold PluginController.get_typed_value.
  destruct default as [b' | f' | s'];
    destruct (PluginController.get_default current_settings_source key_name _)
      as [b | f | s]; try exact I.
  destruct (float_of_str s); exact I.
Qed.

Lemma calculate_skew_factors_measurements (self : SkewCalculator.t) :
  SkewCalculator.holds_floats (fst (SkewCalculator.calculate_skew_factors pow_2 self))
  = SkewCalculator.holds_floats self.
Proof.
  unfold SkewCalculator.calculate_skew_factors.
  destruct (SkewCalculator.try_except (SkewCalculator.body_I pow_2 _ _ _)); [ | reflexivity ].
  destruct (SkewCalculator.try_except (SkewCalculator.body_JK pow_2 _ _ _)); [ | reflexivity ].
  destruct (SkewCalculator.try_except (SkewCalculator.body_JK pow_2 _ _ _)); reflexivity.
Qed.

Lemma typed_float (current_settings_source : dict) (key_name : string) (d : float) :
  exists f,
    PluginController.get_typed_value current_settings_source key_name (VFloat d) = VFloat f.
Proof.
  generalize (get_typed_value_type current_settings_source key_name (VFloat d)).
  destruct (PluginController.get_typed_value current_settings_source key_name (VFloat d));
    cbn; intros T; try contradiction; eauto.
Qed.

Lemma typed_bool (current_settings_source : dict) (key_name : string) (d : bool) :
  exists b,
    PluginController.get_typed_value current_settings_source key_name (VBool d) = VBool b.
Proof.
  generalize (get_typed_value_type current_settings_source key_name (VBool d)).
  destruct (PluginController.get_typed_value current_settings_source key_name (VBool d));
    cbn; intros T; try contradiction; eauto.
Qed.

Lemma typed_str (current_settings_source : dict) (key_name : string) (d : string) :
  exists s,
    PluginController.get_typed_value current_settings_source key_name (VStr d) = VStr s.
Proof.
  generalize (get_typed_value_type current_settings_source key_name (VStr d)).
  destruct (PluginController.get_typed_value current_settings_source key_name (VStr d));
    cbn; intros T; try contradiction; eauto.
Qed.

(** X19.  Whatever the configuration holds, [_update_internal_state_from_printer_config]
    assigns values of the types of the defaults: bools to [enabled], the
    two flags and the checkbox state, a string to [method], and floats to
    the nine measurements of the calculator. *)
Theorem configuration_state_types (_skew_calculator : SkewCalculator.t)
    (current_settings_source : dict) :
  let r := PluginController._update_internal_state_from_printer_config pow_2
             _skew_calculator current_settings_source in
  (exists (enabled marlin_add klipper_add checkbox : bool) (method : string),
     PluginController.new_enabled r = VBool enabled /\
     PluginController.new_method r = VStr method /\
     PluginController.new_marlin_add_to_gcode r = VBool marlin_add /\
     PluginController.new_klipper_add_to_gcode r = VBool klipper_add /\
     PluginController.new_pp_script_checkbox_state r = VBool checkbox) /\
  SkewCalculator.holds_floats (fst (PluginController.new_skew_calculator r)) = true.
Proof.
  intros r. unfold r, PluginController._update_internal_state_from_printer_config.
  cbv zeta.
  cbn [PluginController.new_enabled PluginController.new_method
       PluginController.new_marlin_add_to_gcode PluginController.new_klipper_add_to_gcode
       PluginController.new_pp_script_checkbox_state PluginController.new_skew_calculator].
  split.
  - change (PluginController.get_default PluginController._get_default_settings
              "compensation_enabled" (VStr "")) with (VBool false).
    change (PluginController.get_default PluginController._get_default_settings
              "compensation_method" (VStr "")) with (VStr "none").
    change (PluginController.get_default PluginController._get_default_settings
              "marlin_add_to_gcode" (VStr "")) with (VBool false).
    change (PluginController.get_default PluginController._get_default_settings
              "klipper_add_to_gcode" (VStr "")) with (VBool false).
    change (PluginController.get_default PluginController._get_default_settings
              "pp_script_checkbox_state" (VStr "")) with (VBool false).
    destruct (typed_bool current_settings_source "compensation_enabled" false) as [e E].
    destruct (typed_str current_settings_source "compensation_method" "none") as [m M].
    destruct (typed_bool current_settings_source "marlin_add_to_gcode" false) as [a A].
    destruct (typed_bool current_settings_source "klipper_add_to_gcode" false) as [k K].
    destruct (typed_bool current_settings_source "pp_script_checkbox_state" false) as [c C].
    exists e, a, k, c, m. repeat split; assumption.
  - unfold SkewCalculator.set_measurements.
    rewrite calculate_skew_factors_measurements.
    change (PluginController.get_default PluginController._get_default_settings
              "xy_ac_measurement" (VStr "")) with (VFloat 141.42).
    change (PluginController.get_default PluginController._get_default_settings
              "xy_bd_measurement" (VStr "")) with (VFloat 141.42).
    change (PluginController.get_default PluginController._get_default_settings
              "xy_ad_measurement" (VStr "")) with (VFloat 100.0).
    change (PluginController.get_default PluginController._get_default_settings
              "xz_ac_measurement" (VStr "")) with (VFloat 141.42).
    change (PluginController.get_default PluginController._get_default_settings
              "xz_bd_measurement" (VStr "")) with (VFloat 141.42).
    change (PluginController.get_default PluginController._get_default_settings
              "xz_ad_measurement" (VStr "")) with (VFloat 100.0).
    change (PluginController.get_default PluginController._get_default_settings
              "yz_ac_measurement" (VStr "")) with (VFloat 141.42).
    change (PluginController.get_default PluginController._get_default_settings
              "yz_bd_measurement" (VStr "")) with (VFloat 141.42).
    change (PluginController.get_default PluginController._get_default_settings
              "yz_ad_measurement" (VStr "")) with (VFloat 100.0).
    unfold SkewCalculator.holds_floats.
    cbn [SkewCalculator.xy_ac SkewCalculator.xy_bd SkewCalculator.xy_ad
         SkewCalculator.xz_ac SkewCalculator.xz_bd SkewCalculator.xz_ad
         SkewCalculator.yz_ac SkewCalculator.yz_bd SkewCalculator.yz_ad].
    repeat match goal with
           | |- context [PluginController.get_typed_value ?s ?k (VFloat ?d)] =>
               let f := fresh "f" in let E := fresh "E" in
               destruct (typed_float s k d) as [f E]; rewrite E; clear E
           end.
    reflexivity.
Qed.

End ConfigurationState.

(** ** [execute] of the script *)

Section ExecuteProperties.

Import PrintSkewCompensationCKM.

Variable acos tan : float -> float.
Variable getValue : string -> string -> option number.


(** X9.  After [_calculate_factors_from_configuration] the script counts as
    enabled exactly when the settings enable the compensation and the
    measurements of some plane have been found, now or in an earlier call.
    Then each factor is the one of its plane, [0.0] for a plane with a
    measurement missing or no number; otherwise the three factors are
    zero. *)
Theorem factors_from_configuration (self : script) (settings : dict) :
  let self' := _calculate_factors_from_configuration acos tan self settings in
  let factor (plane : string) :=
    match plane_factor acos tan settings plane with Some f => f | None => 0%float end in
  let found (plane : string) :=
    match plane_factor acos tan settings plane with Some _ => true | None => false end in
  found_in_configuration self' =
    found_in_configuration self || found "xy" || found "xz" || found "yz" /\
  _plugin_enabled self' =
    Some (compensation_enabled settings && found_in_configuration self') /\
  _calculated_factors self' =
    (if compensation_enabled settings && found_in_configuration self'
     then mk_factors (factor "xy") (factor "xz") (factor "yz")
     else mk_factors 0 0 0) /\
  _plugin_settings self' = settings.
Proof.
  unfold _calculate_factors_from_configuration.
  destruct (plane_factor acos tan settings "xy") as [fxy | ];
    destruct (plane_factor acos tan settings "xz") as [fxz | ];
    destruct (plane_factor acos tan settings "yz") as [fyz | ];
    destruct (compensation_enabled settings);
    destruct (found_in_configuration self); simpl;
    repeat split; reflexivity.
Qed.

Lemma calculate_disabled (self : script) (settings : dict) :
  compensation_enabled settings = false ->
  _plugin_enabled (_calculate_factors_from_configuration acos tan self settings) = Some false /\
  _calculated_factors (_calculate_factors_from_configuration acos tan self settings) =
    mk_factors 0 0 0.
Proof.
  intros H. unfold _calculate_factors_from_configuration. rewrite H.
  destruct (plane_factor acos tan settings "xy") as [fxy | ];
    destruct (plane_factor acos tan settings "xz") as [fxz | ];
    destruct (plane_factor acos tan settings "yz") as [fyz | ];
    destruct (found_in_configuration self); simpl; auto.
Qed.

Lemma calculate_no_factor (self : script) (settings : dict) :
  compensation_enabled settings = false ->
  let F := _calculated_factors (_calculate_factors_from_configuration acos tan self settings) in
  nonzero (xy F) || nonzero (xz F) || nonzero (yz F) = false.
Proof.
  intros H. destruct (calculate_disabled self settings H) as [_ E]. simpl. now rewrite E.
Qed.

(** X10.  With the script's own setting on, [execute] returns the document
    as it got it whenever the settings do not enable the compensation or
    the three factors come out zero: [cura_compensation] is never run
    with all factors zero.  The call ends normally, or with [IndexError]
    on an empty document. *)
Theorem execute_unchanged (self : script) (settings : dict) (data : list string) :
  let F := _calculated_factors (_calculate_factors_from_configuration acos tan self settings) in
  compensation_enabled settings = false \/
  nonzero (xy F) || nonzero (xz F) || nonzero (yz F) = false ->
  exists self',
    execute acos tan getValue self true settings data =
      (self', data,
       match _plugin_enabled self, data with
       | Some false, _ => Done
       | _, [] => IndexError
       | _, _ => Done
       end).
Proof.
  intros F H.
  assert (Z : nonzero (xy F) || nonzero (xz F) || nonzero (yz F) = false)
    by (destruct H as [H | H]; [ now apply calculate_no_factor | exact H ]).
  subst F. unfold execute.
  destruct (_plugin_enabled self) as [[ | ] | ]; try (eexists; reflexivity);
    destruct data as [ | first rest]; try (eexists; reflexivity);
    cbn [negb]; destruct (contains first ";POSTPROCESSED"); try (eexists; reflexivity);
    cbv zeta; rewrite Z, andb_false_r; eexists; reflexivity.
Qed.

(** X11.  Once a run has found the compensation not enabled, every later
    call of [execute] on the same object returns its document unchanged,
    whatever the settings then hold. *)
Theorem execute_stays_disabled (self : script) (settings : dict)
    (first : string) (rest : list string) :
  compensation_enabled settings = false ->
  contains first ";POSTPROCESSED" = false ->
  let self' := fst (fst (execute acos tan getValue self true settings (first :: rest))) in
  _plugin_enabled self' = Some false /\
  forall (enable_print_skew_comp : bool) (settings' : dict) (data : list string),
    execute acos tan getValue self' enable_print_skew_comp settings' data = (self', data, Done).
Proof.
  intros H P self'.
  assert (E : _plugin_enabled self' = Some false).
  { unfold self', execute.
    destruct (calculate_disabled self settings H) as [E F].
    destruct (_plugin_enabled self) as [[ | ] | ] eqn:S; simpl; try assumption;
      rewrite P, F; simpl; rewrite andb_false_r; exact E. }
  split; [ exact E | ].
  intros b settings' data. unfold execute. now rewrite E.
Qed.


Lemma process_layers_length (F : factors) (cura_data : list string) :
  forall (i : nat) (fr : locals),
    List.length (fst (process_layers getValue F i fr cura_data)) = List.length cura_data.
Proof.
  induction cura_data as [ | layer rest IH]; intros i fr; simpl; [ reflexivity | ].
  destruct (process_lines getValue F i fr (split_lines layer)) as [[fr' lines] | e];
    [ | reflexivity ].
  specialize (IH (S i) fr').
  destruct (process_layers getValue F (S i) fr' rest) as [rest' r]. simpl in *.
  now rewrite IH.
Qed.

(** The first two layers of a document come out of [cura_compensation]
    as they went in, and no layer is added or lost. *)
Lemma cura_compensation_head (F : factors) (l0 l1 : string) (rest : list string) :
  exists body,
    fst (cura_compensation getValue F (l0 :: l1 :: rest)) = l0 :: l1 :: body /\
    List.length body = List.length rest.
Proof.
  assert (E : fst (cura_compensation getValue F (l0 :: l1 :: rest)) =
              fst (process_layers getValue F 0 initial_locals (l0 :: l1 :: rest))).
  { unfold cura_compensation. now destruct (process_layers _ _ _ _ _). }
  rewrite E.
  pose proof (process_layers_length F (l0 :: l1 :: rest) 0 initial_locals) as L.
  destruct (process_layers_skipped getValue F 0 initial_locals l0 (l1 :: rest))
    as (r0 & o0 & E0 & H0); [ lia | ].
  rewrite E0 in L |- *. cbn [fst] in L |- *.
  destruct H0 as [-> | [fr1 ->]].
  - exists rest. auto.
  - destruct (process_layers_skipped getValue F 1 fr1 l1 rest) as (r1 & o1 & E1 & _);
      [ lia | ].
    rewrite E1 in L |- *. cbn [fst List.length] in L |- *.
    exists r1. split; [ reflexivity | lia ].
Qed.

(** X12.  When [execute] does compensate, it adds its note to the first
    layer, leaves the second layer as it is, keeps the number of the
    layers after it, and appends the block of the settings at the end. *)
Theorem execute_compensates (self : script) (settings : dict)
    (first second : string) (rest : list string) :
  _plugin_enabled self <> Some false ->
  contains first ";POSTPROCESSED" = false ->
  let self' := _calculate_factors_from_configuration acos tan self settings in
  let F := _calculated_factors self' in
  found_in_configuration self' = true ->
  nonzero (xy F) || nonzero (xz F) || nonzero (yz F) = true ->
  let note :=
    ";  [Print Skew Compensation] Applying skew compensation using values from: " ++
    match _settings_source self' with Some src => src | None => "None" end ++ newline in
  exists (body : list string) (e : ending),
    execute acos tan getValue self true settings (first :: second :: rest) =
      (self', (first ++ note) :: second :: body, e) /\
    e <> IndexError /\
    (e = Done ->
     exists layers, body = (layers ++ [setting_string self'])%list /\
                    List.length layers = List.length rest).
Proof.
  intros Hs Hp self' F Hf Hn note.
  destruct (cura_compensation_head F (first ++ note) second rest) as (body & Eb & Lb).
  assert (E : execute acos tan getValue self true settings (first :: second :: rest) =
              match cura_compensation getValue F ((first ++ note) :: second :: rest) with
              | (data, Returned) => (self', (data ++ [setting_string self'])%list, Done)
              | (data, Raised e) => (self', data, Escaped e)
              end).
  { subst note F self'. unfold execute.
    destruct (_plugin_enabled self) as [[ | ] | ] eqn:S; [ | congruence | ];
      cbn [negb]; rewrite Hp; cbv zeta; rewrite Hf, Hn; reflexivity. }
  rewrite E.
  destruct (cura_compensation getValue F ((first ++ note) :: second :: rest))
    as [doc [ | e]]; cbn [fst] in Eb; subst doc.
  - exists (body ++ [setting_string self'])%list, Done.
    split; [ reflexivity | ]. split; [ discriminate | ]. intros _. exists body. auto.
  - exists body, (Escaped e). split; [ reflexivity | ]. split; discriminate.
Qed.

End ExecuteProperties.

(** ** The lines of the document *)

Section LineCounts.

Import PrintSkewCompensationCKM.

Variable getValue : string -> string -> option number.
Variable F : factors.

Lemma all_chars_take (p : ascii -> bool) (n : nat) (s : string) :
  all_chars p s = true -> all_chars p (take n s) = true.
Proof.
  revert n. induction s as [ | c s IH]; intros [ | n]; simpl; try reflexivity.
  intros H. apply andb_prop in H. destruct H as [Hc Hs]. now rewrite Hc, IH.
Qed.

Lemma all_chars_drop (p : ascii -> bool) (n : nat) (s : string) :
  all_chars p s = true -> all_chars p (drop n s) = true.
Proof.
  revert n. induction s as [ | c s IH]; intros [ | n]; simpl; try reflexivity.
  - auto.
  - intros H. apply andb_prop in H. destruct H as [_ Hs]. now apply IH.
Qed.

Lemma digits_repr_chars (s : string) :
  all_chars is_digit s = true -> all_chars is_repr_char s = true.
Proof.
  apply all_chars_weaken. intros c H. unfold is_repr_char, is_number_char. now rewrite H.
Qed.

Lemma repr_float_chars (x : float) : all_chars is_repr_char (repr_float x) = true.
Proof.
  unfold repr_float.
  destruct (Prim2SF x) as [s | s | | s m e]; try (now destruct s); [ reflexivity | ].
  destruct (scaled (Z.pos m) 1 (- e)) as [p q].
  destruct (shortest_decimal 17 1 s x p q (log10_floor p q)) as [d0 c0].
  destruct (strip_zeros 400 d0 c0) as [d c].
  set (ds := NilZero.string_of_uint (N.to_uint (Z.to_N d))).
  assert (D : all_chars is_repr_char ds = true)
    by apply digits_repr_chars, nilzero_string_of_uint_digits.
  assert (Z0 : forall n, all_chars is_repr_char (zeros n) = true)
    by (intros n; apply digits_repr_chars, zeros_digits).
  cbv zeta. rewrite all_chars_app.
  replace (all_chars is_repr_char (if s then "-" else "")) with true by now destruct s.
  rewrite andb_true_l.
  destruct ((_ <=? -4)%Z || _).
  - rewrite !all_chars_app.
    rewrite (all_chars_take _ 1 _ D).
    assert (T : all_chars is_repr_char
                  (if (1 <? Z.of_nat (String.length ds))%Z then "." ++ drop 1 ds else "") = true).
    { destruct (1 <? _)%Z; [ | reflexivity ].
      rewrite all_chars_app. now rewrite (all_chars_drop _ 1 _ D). }
    rewrite T.
    assert (P : all_chars is_repr_char
                  (digits_padded (Z.abs (Z.of_nat (String.length ds) + c - 1)) 2) = true).
    { unfold digits_padded. rewrite all_chars_app, Z0.
      apply digits_repr_chars, nilzero_string_of_uint_digits. }
    rewrite P. now destruct (_ <? 0)%Z.
  - destruct (_ <=? 0)%Z.
    + rewrite !all_chars_app. now rewrite Z0, D.
    + destruct (_ <=? _)%Z.
      * rewrite !all_chars_app. now rewrite Z0, D.
      * rewrite !all_chars_app.
        now rewrite (all_chars_take _ _ _ D), (all_chars_drop _ _ _ D).
Qed.

Lemma repr_float_no_newline (x : float) : no_newline (repr_float x) = true.
Proof.
  unfold no_newline. apply (all_chars_weaken is_repr_char); [ | apply repr_float_chars ].
  intros c. unfold is_repr_char, is_number_char, is_digit.
  destruct c as [[] [] [] [] [] [] [] []]; vm_compute; intros H; try discriminate; auto.
Qed.

Lemma replace_from_chars (p : ascii -> bool) (old new : string) (s : string) :
  forall skip : nat,
    all_chars p s = true -> all_chars p new = true ->
    all_chars p (replace_from skip s old new) = true.
Proof.
  induction s as [ | c s IH]; intros skip Hs Hn; [ reflexivity | ].
  cbn [all_chars] in Hs. apply andb_prop in Hs. destruct Hs as [Hc Hs].
  cbn [replace_from]. destruct skip as [ | k]; [ | now apply IH ].
  destruct (String.prefix old (String c s)).
  - rewrite all_chars_app, Hn. now apply IH.
  - cbn [all_chars]. rewrite Hc. now apply IH.
Qed.

Lemma no_newline_cons (c : ascii) (s : string) :
  no_newline (String c s) = negb (Ascii.eqb c (ascii_of_nat 10)) && no_newline s.
Proof. reflexivity. Qed.

Lemma split_lines_no_newline (s : string) :
  Forall (fun l => no_newline l = true) (split_lines s).
Proof.
  induction s as [ | c s IH]; [ repeat constructor | ].
  cbn [split_lines]. destruct (Ascii.eqb c (ascii_of_nat 10)) eqn:E.
  - constructor; [ reflexivity | exact IH ].
  - destruct (split_lines s) as [ | l ls].
    + constructor; [ | constructor ]. rewrite no_newline_cons, E. reflexivity.
    + inversion IH as [ | ? ? Hl Hls]; subst.
      constructor; [ | exact Hls ]. rewrite no_newline_cons, E. exact Hl.
Qed.

Lemma split_lines_line (l : string) : no_newline l = true -> split_lines l = [l].
Proof.
  induction l as [ | c l IH]; [ reflexivity | ].
  rewrite no_newline_cons. intros H. apply andb_prop in H. destruct H as [Hc Hl].
  cbn [split_lines]. apply negb_true_iff in Hc. rewrite Hc, (IH Hl). reflexivity.
Qed.

Lemma split_lines_app (l rest : string) :
  no_newline l = true ->
  split_lines (l ++ newline ++ rest) = l :: split_lines rest.
Proof.
  induction l as [ | c l IH]; [ reflexivity | ].
  rewrite no_newline_cons. intros H. apply andb_prop in H. destruct H as [Hc Hl].
  change (String c l ++ newline ++ rest) with (String c (l ++ newline ++ rest)).
  cbn [split_lines]. apply negb_true_iff in Hc. rewrite Hc, (IH Hl). reflexivity.
Qed.

Lemma split_join_lines (lines : list string) :
  lines <> [] -> Forall (fun l => no_newline l = true) lines ->
  split_lines (join_lines lines) = lines.
Proof.
  induction lines as [ | l rest IH]; [ congruence | ].
  intros _ H. inversion H as [ | ? ? Hl Hr]; subst.
  destruct rest as [ | l' rest'].
  - unfold join_lines. cbn [concat]. now apply split_lines_line.
  - rewrite join_lines_cons by discriminate.
    rewrite split_lines_app by exact Hl.
    rewrite IH; [ reflexivity | discriminate | exact Hr ].
Qed.

Lemma process_line_no_newline (i : nat) (fr fr' : locals) (line line' : string) :
  process_line getValue F i fr line = Ok (fr', line') ->
  no_newline line = true -> no_newline line' = true.
Proof.
  unfold process_line. destruct (is_motion line); [ | now intros [= _ <-] ].
  destruct (shear _ _ (xy F)) as [x1 | ]; [ | discriminate ]. cbn [bind].
  destruct (shear _ _ (xz F)) as [x2 | ]; [ | discriminate ]. cbn [bind].
  destruct (shear _ _ (yz F)) as [y1 | ]; [ | discriminate ]. cbn [bind].
  destruct (i <? 2)%nat; [ now intros [= _ <-] | ].
  intros [= _ <-] Hl.
  assert (H1 : no_newline match getValue line "X" with
                          | Some v => replace line ("X" ++ str v) ("X" ++ repr_float (round x2 3))
                          | None => line
                          end = true).
  { destruct (getValue line "X"); [ | exact Hl ].
    apply replace_from_chars; [ exact Hl | apply repr_float_no_newline ]. }
  destruct (getValue line "Y"); [ | exact H1 ].
  apply replace_from_chars; [ exact H1 | apply repr_float_no_newline ].
Qed.

Lemma process_lines_no_newline (i : nat) (lines : list string) :
  forall (fr fr' : locals) (out : list string),
    process_lines getValue F i fr lines = Ok (fr', out) ->
    Forall (fun l => no_newline l = true) lines ->
    List.length out = List.length lines /\ Forall (fun l => no_newline l = true) out.
Proof.
  induction lines as [ | line rest IH]; intros fr fr' out; cbn [process_lines].
  - intros [= _ <-] _. split; [ reflexivity | constructor ].
  - destruct (process_line getValue F i fr line) as [[fr1 l1] | ] eqn:E1; [ | discriminate ].
    cbn [bind].
    destruct (process_lines getValue F i fr1 rest) as [[fr2 r2] | ] eqn:E2; [ | discriminate ].
    cbn [bind]. intros [= _ <-] H. inversion H as [ | ? ? Hl Hr]; subst.
    destruct (IH _ _ _ E2 Hr) as [L N].
    split; [ cbn [List.length]; now rewrite L | ].
    constructor; [ | exact N ]. exact (process_line_no_newline _ _ _ _ _ E1 Hl).
Qed.

Lemma process_layers_line_counts (cura_data : list string) :
  forall (i : nat) (fr : locals),
    line_counts (fst (process_layers getValue F i fr cura_data)) = line_counts cura_data.
Proof.
  induction cura_data as [ | layer rest IH]; intros i fr; [ reflexivity | ].
  cbn [process_layers].
  destruct (process_lines getValue F i fr (split_lines layer)) as [[fr' lines] | e] eqn:E;
    [ | reflexivity ].
  specialize (IH (S i) fr').
  destruct (process_layers getValue F (S i) fr' rest) as [rest' r].
  cbn [fst] in *. unfold line_counts in *. cbn [map]. rewrite IH. f_equal.
  destruct (process_lines_no_newline _ _ _ _ _ E (split_lines_no_newline layer)) as [L N].
  rewrite split_join_lines; [ exact L | | exact N ].
  intros ->. cbn [List.length] in L. symmetry in L. apply length_zero_iff_nil in L.
  now apply (split_lines_not_nil layer).
Qed.

(** X17.  [cura_compensation] adds and removes no line: the document it
    leaves, also when an exception ends it, has the layers of the one it
    got, each with as many lines. *)
Theorem cura_compensation_line_counts (cura_data : list string) :
  line_counts (fst (cura_compensation getValue F cura_data)) = line_counts cura_data /\
  List.length (fst (cura_compensation getValue F cura_data)) = List.length cura_data.
Proof.
  assert (E : fst (cura_compensation getValue F cura_data)
              = fst (process_layers getValue F 0 initial_locals cura_data)).
  { unfold cura_compensation.
    now destruct (process_layers getValue F 0 initial_locals cura_data). }
  rewrite E. split.
  - apply process_layers_line_counts.
  - apply process_layers_length.
Qed.

End LineCounts.

(** ** The document that comes out *)

Section DocumentProperties.

Variable getValue : string -> string -> option number.
Variable F : factors.

Lemma process_line_expected (i : nat) (fr fr' : locals) (line line' : string) :
  process_line getValue F i fr line = Ok (fr', line') ->
  line' = expected_line getValue F i (z_input fr) line.
Proof.
  intros H. unfold expected_line. destruct (is_motion line) eqn:Hm.
  - destruct (process_line_motion getValue F i fr fr' line line' Hm H)
      as (x1 & x2 & y1 & H1 & H2 & H3 & _ & ->).
    cbn [andb].
    destruct (2 <=? i)%nat eqn:Hi.
    + apply Nat.leb_le in Hi.
      assert (Hlt : (i <? 2)%nat = false) by (apply Nat.ltb_ge; assumption).
      rewrite Hlt.
      apply shear_Ok in H1. destruct H1 as (x & y & Hx & Hy & ->).
      apply shear_Ok in H2. destruct H2 as (r & z & Hr & Hz & ->).
      apply shear_Ok in H3. destruct H3 as (y' & z' & Hy' & Hz' & ->).
      cbn [to_float] in Hr. injection Hr as <-.
      assert (y' = y) by congruence. assert (z' = z) by congruence. subst y' z'.
      unfold corrected, line_x, line_y, line_z. rewrite Hx, Hy, Hz. reflexivity.
    + apply Nat.leb_gt in Hi.
      assert (Hlt : (i <? 2)%nat = true) by (apply Nat.ltb_lt; assumption).
      now rewrite Hlt.
  - rewrite (process_line_other getValue F i fr line Hm) in H. cbn [andb]. congruence.
Qed.

Lemma tracked_z_cons (z : number) (line : string) (rest : list string) :
  tracked_z getValue z (line :: rest) = tracked_z getValue (track_z getValue z line) rest.
Proof. reflexivity. Qed.

Lemma tracked_z_app (z : number) (a b : list string) :
  tracked_z getValue z (a ++ b) = tracked_z getValue (tracked_z getValue z a) b.
Proof. unfold tracked_z. apply fold_left_app. Qed.

(** The lines of a layer after the inner loop, each at its place. *)
Lemma process_lines_expected (i : nat) (lines : list string) :
  forall (fr fr' : locals) (out : list string),
    process_lines getValue F i fr lines = Ok (fr', out) ->
    forall (j : nat) (line : string),
      nth_error lines j = Some line ->
      nth_error out j =
        Some (expected_line getValue F i
                (tracked_z getValue (z_input fr) (firstn j lines)) line).
Proof.
  induction lines as [ | l rest IH]; intros fr fr' out H j line Hj.
  - destruct j; discriminate.
  - cbn [process_lines] in H.
    destruct (process_line getValue F i fr l) as [[fr1 l1] | ] eqn:E1; [ | discriminate ].
    cbn [bind] in H.
    destruct (process_lines getValue F i fr1 rest) as [[fr2 r2] | ] eqn:E2; [ | discriminate ].
    cbn [bind] in H. injection H as _ <-.
    destruct j as [ | j].
    + cbn [nth_error] in Hj |- *. injection Hj as <-.
      f_equal. exact (process_line_expected i fr fr1 l l1 E1).
    + cbn [nth_error firstn] in Hj |- *. rewrite tracked_z_cons.
      rewrite <- (process_line_z getValue F i fr fr1 l l1 E1).
      exact (IH fr1 fr2 r2 E2 j line Hj).
Qed.

Lemma all_lines_cons (layer : string) (rest : list string) :
  all_lines (layer :: rest) = (split_lines layer ++ all_lines rest)%list.
Proof. reflexivity. Qed.

(** The layers of a document after the outer loop, line by line. *)
Lemma process_layers_expected (cura_data : list string) :
  forall (i : nat) (fr fr' : locals) (doc : list string),
    process_layers getValue F i fr cura_data = (doc, Ok fr') ->
    forall (k : nat) (layer : string),
      nth_error cura_data k = Some layer ->
      exists layer' : string,
        nth_error doc k = Some layer' /\
        List.length (split_lines layer') = List.length (split_lines layer) /\
        forall (j : nat) (line : string),
          nth_error (split_lines layer) j = Some line ->
          nth_error (split_lines layer') j =
            Some (expected_line getValue F (i + k)
                    (tracked_z getValue (z_input fr)
                       (all_lines (firstn k cura_data) ++ firstn j (split_lines layer)))
                    line).
Proof.
  induction cura_data as [ | l rest IH]; intros i fr fr' doc H k layer Hk.
  - destruct k; discriminate.
  - cbn [process_layers] in H.
    destruct (process_lines getValue F i fr (split_lines l)) as [[fr1 lines] | e] eqn:E;
      [ | discriminate ].
    destruct (process_layers getValue F (S i) fr1 rest) as [rest' r] eqn:E'.
    injection H as <- ->.
    destruct k as [ | k].
    + cbn [nth_error] in Hk |- *. injection Hk as <-.
      exists (join_lines lines). split; [ reflexivity | ].
      destruct (process_lines_no_newline getValue F i _ _ _ _ E (split_lines_no_newline l))
        as [L N].
      assert (S : split_lines (join_lines lines) = lines).
      { apply split_join_lines; [ | exact N ].
        intros ->. cbn [List.length] in L. symmetry in L. apply length_zero_iff_nil in L.
        now apply (split_lines_not_nil l). }
      rewrite S. split; [ exact L | ].
      intros j line Hj. rewrite Nat.add_0_r. cbn [firstn all_lines app].
      change (all_lines []) with (@nil string). cbn [app].
      exact (process_lines_expected i _ _ _ _ E j line Hj).
    + cbn [nth_error] in Hk |- *.
      destruct (IH (S i) fr1 fr' rest' E' k layer Hk) as (layer' & Hd & Hl & Hj).
      exists layer'. split; [ exact Hd | ]. split; [ exact Hl | ].
      intros j line Hline. rewrite (Hj j line Hline).
      cbn [firstn]. rewrite all_lines_cons, (process_lines_z getValue F i _ _ _ _ E).
      rewrite <- app_assoc, !tracked_z_app.
      replace (i + S k)%nat with (S i + k)%nat by lia. reflexivity.
Qed.

Lemma nth_error_nth_default (l : list string) (i : nat) (x : string) :
  nth_error l i = Some x -> nth i l "" = x.
Proof. intros H. now apply nth_error_nth. Qed.

Lemma nth_error_split {A : Type} (l : list A) (j : nat) (x : A) :
  nth_error l j = Some x -> l = (firstn j l ++ x :: skipn (S j) l)%list.
Proof.
  revert j. induction l as [ | y l IH]; intros [ | j] H; try discriminate.
  - injection H as ->. reflexivity.
  - cbn [nth_error] in H. cbn [firstn skipn app]. f_equal. now apply IH.
Qed.

Lemma all_lines_app (a b : list string) :
  all_lines (a ++ b) = (all_lines a ++ all_lines b)%list.
Proof.
  unfold all_lines. now rewrite map_app, concat_app.
Qed.

Lemma lines_convert_at (a : list string) :
  forall (z : number) (line : string) (b : list string),
    lines_convert getValue z (a ++ line :: b) = true ->
    numbers_convert getValue (tracked_z getValue z a) line = true.
Proof.
  induction a as [ | l a IH]; intros z line b H.
  - cbn [app lines_convert] in H. apply andb_prop in H. now destruct H.
  - cbn [app lines_convert] in H. apply andb_prop in H. destruct H as [_ H].
    rewrite tracked_z_cons. exact (IH _ line b H).
Qed.

(** The document taken apart at the line [j] of the layer [i]. *)
Lemma all_lines_at (cura_data : list string) (i j : nat) (layer line : string) :
  nth_error cura_data i = Some layer ->
  nth_error (split_lines layer) j = Some line ->
  exists rest : list string,
    all_lines cura_data =
      ((all_lines (firstn i cura_data) ++ firstn j (split_lines layer)) ++ line :: rest)%list.
Proof.
  intros Hi Hj.
  exists (skipn (S j) (split_lines layer) ++ all_lines (skipn (S i) cura_data))%list.
  rewrite (nth_error_split cura_data i layer Hi) at 1.
  rewrite all_lines_app, all_lines_cons.
  rewrite (nth_error_split (split_lines layer) j line Hj) at 1.
  rewrite <- !app_assoc. reflexivity.
Qed.

(** A motion line whose numbers convert has its corrected coordinates. *)
Lemma expected_line_converts (i : nat) (z : number) (line : string) :
  numbers_convert getValue z line = true ->
  if is_motion line && (2 <=? i)%nat then
    exists xo yo : float,
      corrected getValue F z line = Some (xo, yo) /\
      expected_line getValue F i z line = rewritten getValue line xo yo
  else expected_line getValue F i z line = line.
Proof.
  intros H. unfold expected_line, numbers_convert in *.
  destruct (is_motion line); [ | reflexivity ]. cbn [andb].
  destruct (2 <=? i)%nat; [ | reflexivity ].
  apply andb_prop in H. destruct H as [H Hz].
  apply andb_prop in H. destruct H as [Hx Hy].
  apply converts_Ok in Hx, Hy, Hz.
  destruct Hx as [x Hx], Hy as [y Hy], Hz as [zf Hz].
  unfold corrected. rewrite Hx, Hy, Hz. eexists. eexists. split; reflexivity.
Qed.

(** C8 (as amended).  When the numbers of the document fit a float,
    [cura_compensation] returns a document of as many layers, each of as
    many lines, in which the line [j] of the layer [i] is this.  A line
    that does not start with [G0] or [G1], and any line of the layers 0
    and 1, is the line that went in.  A line that starts with [G0] or
    [G1] (as [G10] or [G1X] do too) in a layer of index [>= 2] is the
    line with every occurrence of ["X" + str(cur_x)] replaced by
    ["X" + str(x_out)] when it has an X, and then every occurrence of
    ["Y" + str(cur_y)] by ["Y" + str(y_out)] when it has a Y, where
    [x_out] and [y_out] are the corrected coordinates for the cumulative
    z at that line; [str] of a float is its shortest representation, not
    a fixed three decimals, and nothing else of the line changes. *)
Theorem rewritten_document (cura_data : list string) :
  lines_convert getValue (Int 0) (all_lines cura_data) = true ->
  exists doc : list string,
    cura_compensation getValue F cura_data = (doc, Returned) /\
    List.length doc = List.length cura_data /\
    forall (i : nat) (layer : string),
      nth_error cura_data i = Some layer ->
      exists layer' : string,
        nth_error doc i = Some layer' /\
        List.length (split_lines layer') = List.length (split_lines layer) /\
        forall (j : nat) (line : string),
          nth_error (split_lines layer) j = Some line ->
          exists line' : string,
            nth_error (split_lines layer') j = Some line' /\
            if is_motion line && (2 <=? i)%nat then
              exists xo yo : float,
                corrected getValue F (z_before getValue cura_data i j) line = Some (xo, yo) /\
                line' = rewritten getValue line xo yo
            else line' = line.
Proof.
  intros Hc.
  destruct (process_layers_returns getValue F cura_data 0 initial_locals Hc)
    as (doc & fr' & E).
  exists doc. split; [ unfold cura_compensation; now rewrite E | ].
  split.
  - pose proof (process_layers_length getValue F cura_data 0 initial_locals) as L.
    now rewrite E in L.
  - intros i layer Hi.
    destruct (process_layers_expected cura_data 0 initial_locals fr' doc E i layer Hi)
      as (layer' & Hd & Hl & Hj).
    exists layer'. split; [ exact Hd | ]. split; [ exact Hl | ].
    intros j line Hline. eexists. split; [ exact (Hj j line Hline) | ].
    destruct (all_lines_at cura_data i j layer line Hi Hline) as [rest A].
    rewrite A in Hc. apply lines_convert_at in Hc.
    unfold z_before. rewrite (nth_error_nth_default cura_data i layer Hi).
    cbn [Nat.add].
    pose proof (expected_line_converts i _ line Hc) as Z.
    destruct (is_motion line && (2 <=? i)%nat); exact Z.
Qed.

Lemma lines_finite_convert (lines : list string) :
  forall z : number,
    lines_finite getValue z lines = true -> lines_convert getValue z lines = true.
Proof.
  assert (C : forall v, is_finite_number v = true -> converts v = true).
  { intros v. unfold is_finite_number, converts. now destruct (to_float v). }
  induction lines as [ | line rest IH]; intros z; [ reflexivity | ].
  cbn [lines_finite lines_convert]. intros H. apply andb_prop in H. destruct H as [H1 H2].
  rewrite (IH _ H2), andb_true_r.
  unfold numbers_finite in H1. unfold numbers_convert.
  destruct (is_motion line); [ | reflexivity ].
  apply andb_prop in H1. destruct H1 as [H1 Hz].
  apply andb_prop in H1. destruct H1 as [Hx Hy].
  now rewrite (C _ Hx), (C _ Hy), (C _ Hz).
Qed.

Lemma lines_finite_at (a : list string) :
  forall (z : number) (line : string) (b : list string),
    lines_finite getValue z (a ++ line :: b) = true ->
    numbers_finite getValue (tracked_z getValue z a) line = true.
Proof.
  induction a as [ | l a IH]; intros z line b H.
  - cbn [app lines_finite] in H. apply andb_prop in H. now destruct H.
  - cbn [app lines_finite] in H. apply andb_prop in H. destruct H as [_ H].
    rewrite tracked_z_cons. exact (IH _ line b H).
Qed.

(** The numbers of the line [j] of the layer [i] are finite when those
    of the document are. *)
Lemma document_finite_at (cura_data : list string) (i j : nat) (layer line : string) :
  lines_finite getValue (Int 0) (all_lines cura_data) = true ->
  nth_error cura_data i = Some layer ->
  nth_error (split_lines layer) j = Some line ->
  numbers_finite getValue (z_before getValue cura_data i j) line = true.
Proof.
  intros H Hi Hj. unfold z_before.
  rewrite (nth_error_nth_default cura_data i layer Hi).
  destruct (all_lines_at cura_data i j layer line Hi Hj) as [rest A].
  rewrite A in H. exact (lines_finite_at _ _ _ _ H).
Qed.

(** With zero factors the values written are the line's own, rounded. *)
Lemma expected_line_zero (i : nat) (z : number) (line : string) :
  xy F = 0%float -> xz F = 0%float -> yz F = 0%float ->
  numbers_finite getValue z line = true ->
  if is_motion line && (2 <=? i)%nat then
    exists x y xo yo : float,
      to_float (line_x getValue line) = Ok x /\
      to_float (line_y getValue line) = Ok y /\
      (xo =? round x 3)%float = true /\
      (yo =? round y 3)%float = true /\
      expected_line getValue F i z line = rewritten getValue line xo yo
  else expected_line getValue F i z line = line.
Proof.
  intros Fxy Fxz Fyz H. unfold expected_line, numbers_finite in *.
  destruct (is_motion line); [ | reflexivity ]. cbn [andb].
  destruct (2 <=? i)%nat; [ | reflexivity ].
  apply andb_prop in H. destruct H as [H Hz].
  apply andb_prop in H. destruct H as [Hx Hy].
  apply to_float_finite in Hx, Hy, Hz.
  destruct Hx as (x & Hx & Fx), Hy as (y & Hy & Fy), Hz as (zf & Hz & Fz).
  unfold corrected. rewrite Hx, Hy, Hz, Fxy, Fxz, Fyz.
  exists x, y, (round (round (x - y * 0) 3 - zf * 0) 3)%float, (round (y - zf * 0) 3)%float.
  split; [ reflexivity | ]. split; [ reflexivity | ].
  split; [ now apply zero_shear_x | ]. split; [ now apply zero_shear_y | reflexivity ].
Qed.

(** C9 (as amended).  With all three factors [0.0] and every number of
    the document finite, [cura_compensation] returns a document of as
    many layers, each of as many lines.  A line that does not start with
    [G0] or [G1], and any line of the layers 0 and 1, comes out as it
    went in.  On a line that starts with [G0] or [G1] in a layer of index
    [>= 2] the values written, [xo] and [yo], are numerically the line's
    X and Y rounded to three decimals, and the line comes out with every
    occurrence of ["X" + str(cur_x)] replaced by ["X" + str(xo)] and every
    occurrence of ["Y" + str(cur_y)] by ["Y" + str(yo)]: a number that the
    line writes as [str] does comes out rounded, one that it writes in
    another way stays as it is. *)
Theorem zero_factors_document (cura_data : list string) :
  xy F = 0%float -> xz F = 0%float -> yz F = 0%float ->
  lines_finite getValue (Int 0) (all_lines cura_data) = true ->
  exists doc : list string,
    cura_compensation getValue F cura_data = (doc, Returned) /\
    List.length doc = List.length cura_data /\
    forall (i : nat) (layer : string),
      nth_error cura_data i = Some layer ->
      exists layer' : string,
        nth_error doc i = Some layer' /\
        List.length (split_lines layer') = List.length (split_lines layer) /\
        forall (j : nat) (line : string),
          nth_error (split_lines layer) j = Some line ->
          exists line' : string,
            nth_error (split_lines layer') j = Some line' /\
            if is_motion line && (2 <=? i)%nat then
              exists x y xo yo : float,
                to_float (line_x getValue line) = Ok x /\
                to_float (line_y getValue line) = Ok y /\
                (xo =? round x 3)%float = true /\
                (yo =? round y 3)%float = true /\
                line' = rewritten getValue line xo yo
            else line' = line.
Proof.
  intros Fxy Fxz Fyz Hf.
  pose proof (lines_finite_convert _ _ Hf) as Hc.
  destruct (process_layers_returns getValue F cura_data 0 initial_locals Hc)
    as (doc & fr' & E).
  exists doc. split; [ unfold cura_compensation; now rewrite E | ].
  split.
  - pose proof (process_layers_length getValue F cura_data 0 initial_locals) as L.
    now rewrite E in L.
  - intros i layer Hi.
    destruct (process_layers_expected cura_data 0 initial_locals fr' doc E i layer Hi)
      as (layer' & Hd & Hl & Hj).
    exists layer'. split; [ exact Hd | ]. split; [ exact Hl | ].
    intros j line Hline. eexists. split; [ exact (Hj j line Hline) | ].
    pose proof (document_finite_at cura_data i j layer line Hf Hi Hline) as N.
    unfold z_before in N. rewrite (nth_error_nth_default cura_data i layer Hi) in N.
    cbn [Nat.add].
    pose proof (expected_line_zero i _ line Fxy Fxz Fyz N) as Z.
    destruct (is_motion line && (2 <=? i)%nat); exact Z.
Qed.

End DocumentProperties.

(** The document at work, with the host's [getValue]. *)

Lemma rewritten_document_witness :
  exists (doc : list string) (layer' : string),
    cura_compensation host_getValue some_skew sample_document = (doc, Returned) /\
    nth_error doc 2 = Some layer' /\
    nth_error (split_lines layer') 0 = Some "G1 X10.480 Y1.015 Z5" /\
    nth_error (split_lines layer') 1 = Some "G10 P1 X4.94 Y5.015" /\
    nth_error (split_lines layer') 2 = Some "M104 S200".
Proof.
  destruct (rewritten_document host_getValue some_skew sample_document eq_refl)
    as (doc & E & _ & P).
  destruct (P 2%nat sample_layer eq_refl) as (layer' & Hd & _ & Hj).
  exists doc, layer'. split; [ exact E | ]. split; [ exact Hd | ].
  destruct (Hj 0%nat "G1 X10.50 Y1 Z5" eq_refl) as (l0 & H0 & R0).
  destruct (Hj 1%nat "G10 P1 X5 Y5" eq_refl) as (l1 & H1 & R1).
  destruct (Hj 2%nat "M104 S200" eq_refl) as (l2 & H2 & R2).
  change (is_motion "G1 X10.50 Y1 Z5" && (2 <=? 2)%nat) with true in R0.
  change (is_motion "G10 P1 X5 Y5" && (2 <=? 2)%nat) with true in R1.
  change (is_motion "M104 S200" && (2 <=? 2)%nat) with false in R2.
  cbv iota in R0, R1, R2.
  destruct R0 as (x0 & y0 & C0 & ->). destruct R1 as (x1 & y1 & C1 & ->). subst l2.
  vm_compute in C0. injection C0 as <- <-.
  vm_compute in C1. injection C1 as <- <-.
  rewrite H0, H1, H2. repeat split.
Defined.

(** C8, as stated, fails three times over.  The corrected values are not
    written with exactly three decimals: 10 and 20 come out as [10.0] and
    [20.0].  Other content of the line can change: the replacement
    reaches every occurrence of the text, here the one in the comment.
    And a line that is no G0/G1 move is rewritten when its text starts
    with [G1], as that of a [G10] does. *)
Lemma rewritten_document_counterexample :
  cura_compensation host_getValue no_skew [""; ""; "G1 X10 Y20"]
    = ([""; ""; "G1 X10.0 Y20.0"], Returned) /\
  fraction_digits (str (Float 10)) = Some 1%nat /\
  cura_compensation host_getValue no_skew [""; ""; "G1 X1 Y2 ;X1"]
    = ([""; ""; "G1 X1.0 Y2.0 ;X1.0"], Returned) /\
  cura_compensation host_getValue no_skew [""; ""; "G10 P1 X5 Y5"]
    = ([""; ""; "G10 P1 X5.0 Y5.0"], Returned).
Proof. repeat split. Qed.

Lemma zero_factors_document_witness :
  exists (doc : list string) (x xo : float),
    cura_compensation host_getValue no_skew [";start"; "G1 Z0.2"; "G1 X10.1234 Y-3"]
      = (doc, Returned) /\
    to_float (line_x host_getValue "G1 X10.1234 Y-3") = Ok x /\
    (xo =? round x 3)%float = true /\
    nth_error doc 2 = Some "G1 X10.123 Y-3.0".
Proof.
  destruct (zero_factors_document host_getValue no_skew
              [";start"; "G1 Z0.2"; "G1 X10.1234 Y-3"] eq_refl eq_refl eq_refl eq_refl)
    as (doc & E & _ & P).
  destruct (P 2%nat "G1 X10.1234 Y-3" eq_refl) as (layer' & _ & _ & Hj).
  destruct (Hj 0%nat "G1 X10.1234 Y-3" eq_refl) as (l0 & _ & R0).
  change (is_motion "G1 X10.1234 Y-3" && (2 <=? 2)%nat) with true in R0.
  cbv iota in R0. destruct R0 as (x & y & xo & yo & Hx & _ & Ex & _).
  exists doc, x, xo.
  split; [ exact E | ]. split; [ exact Hx | ]. split; [ exact Ex | ].
  vm_compute in E. injection E as <-. reflexivity.
Defined.

(** C9, as stated, fails twice.  A Y of four hundred digits is read as
    an infinity, its product with the factor [0.0] is nan, and nan is what
    is written for X, not the line's X rounded to three decimals.  And a
    finite Y written as [0.00001] is read as the float that [str] writes
    [1e-05]: the text [Y1e-05] is not in the line, nothing is replaced,
    and the Y of the output is still [0.00001], not its rounding [0.0]. *)
Lemma zero_factors_document_counterexample :
  cura_compensation host_getValue no_skew [""; ""; huge_y_line]
    = ([""; ""; "G1 Xnan Y" ++ nines 400 ++ ".5"], Returned) /\
  host_getValue huge_y_line "X" = Some (Int 1) /\
  (nan =? round 1 3)%float = false /\
  cura_compensation host_getValue no_skew [""; ""; "G1 X1 Y0.00001"]
    = ([""; ""; "G1 X1.0 Y0.00001"], Returned) /\
  host_getValue "G1 X1 Y0.00001" "Y" = Some (Float 1e-05) /\
  host_getValue "G1 X1.0 Y0.00001" "Y" = Some (Float 1e-05) /\
  round 1e-05 3 = 0%float /\
  (1e-05 =? round 1e-05 3)%float = false.
Proof.
  split; [ vm_compute; reflexivity | ].
  vm_compute. repeat split.
Qed.

(** ** The name of the settings file *)

Section FileNameProperties.

Import PrintSkewCompensationCKM.

Lemma all_chars_lstrip_by (p q : ascii -> bool) (s : string) :
  all_chars p s = true -> all_chars p (lstrip_by q s) = true.
Proof.
  induction s as [ | c s IH]; simpl; [ auto | ]. intros H.
  destruct (q c); [ | exact H ]. apply andb_prop in H. now apply IH.
Qed.

Lemma all_chars_rstrip_by (p q : ascii -> bool) (s : string) :
  all_chars p s = true -> all_chars p (rstrip_by q s) = true.
Proof.
  induction s as [ | c s IH]; simpl; [ auto | ]. intros H.
  apply andb_prop in H. destruct H as [Hc Hs]. specialize (IH Hs).
  destruct (rstrip_by q s) as [ | d r].
  - destruct (q c); simpl; [ reflexivity | now rewrite Hc ].
  - change (all_chars p (String c (String d r))) with (p c && all_chars p (String d r)).
    now rewrite Hc, IH.
Qed.

Lemma sub_other_chars_name (s : string) : all_chars is_name_char (sub_other_chars s) = true.
Proof.
  induction s as [ | c s IH]; simpl; [ reflexivity | ].
  rewrite IH. destruct (is_name_char c) eqn:E; [ now rewrite E | reflexivity ].
Qed.

Lemma sub_underscores_cons (c : ascii) (s : string) :
  sub_underscores (String c s) =
  if Ascii.eqb c "_" then
    match s with
    | String d _ => if Ascii.eqb d "_" then sub_underscores s else String c (sub_underscores s)
    | EmptyString => String c EmptyString
    end
  else String c (sub_underscores s).
Proof. reflexivity. Qed.

Lemma all_chars_sub_underscores (p : ascii -> bool) (s : string) :
  all_chars p s = true -> all_chars p (sub_underscores s) = true.
Proof.
  induction s as [ | c s IH]; [ auto | ]. intros H.
  change (all_chars p (String c s)) with (p c && all_chars p s) in H.
  apply andb_prop in H. destruct H as [Hc Hs]. specialize (IH Hs).
  rewrite sub_underscores_cons.
  destruct (Ascii.eqb c "_").
  - destruct s as [ | d t]; [ simpl; now rewrite Hc | ].
    destruct (Ascii.eqb d "_"); [ exact IH | ].
    change (all_chars p (String c (sub_underscores (String d t))))
      with (p c && all_chars p (sub_underscores (String d t))).
    now rewrite Hc, IH.
  - change (all_chars p (String c (sub_underscores s)))
      with (p c && all_chars p (sub_underscores s)).
    now rewrite Hc, IH.
Qed.

(** The head of [sub_underscores s] is the head of [s]. *)
Lemma sub_underscores_head (s : string) :
  match s, sub_underscores s with
  | String c _, String d _ => c = d
  | EmptyString, EmptyString => True
  | _, _ => False
  end.
Proof.
  induction s as [ | c s IH]; [ exact I | ].
  rewrite sub_underscores_cons.
  destruct (Ascii.eqb c "_") eqn:E; [ | reflexivity ].
  destruct s as [ | d t]; [ reflexivity | ].
  destruct (Ascii.eqb d "_") eqn:E'; [ | reflexivity ].
  destruct (sub_underscores (String d t)); [ contradiction | ].
  apply Ascii.eqb_eq in E, E'. congruence.
Qed.

Lemma no_underscore_run_cons (c : ascii) (s : string) :
  no_underscore_run (String c s) =
  match s with
  | String d _ => negb (Ascii.eqb c "_" && Ascii.eqb d "_") && no_underscore_run s
  | EmptyString => true
  end.
Proof. destruct s; reflexivity. Qed.

Lemma sub_underscores_no_run (s : string) : no_underscore_run (sub_underscores s) = true.
Proof.
  induction s as [ | c s IH]; [ reflexivity | ].
  rewrite sub_underscores_cons.
  pose proof (sub_underscores_head s) as Hd.
  destruct (Ascii.eqb c "_") eqn:E.
  - destruct s as [ | d t]; [ reflexivity | ].
    destruct (Ascii.eqb d "_") eqn:E'; [ exact IH | ].
    rewrite no_underscore_run_cons.
    destruct (sub_underscores (String d t)) as [ | d' r]; [ reflexivity | ].
    subst d'. now rewrite E', andb_false_r, IH.
  - rewrite no_underscore_run_cons.
    destruct (sub_underscores s) as [ | d' r]; [ reflexivity | ].
    now rewrite E, IH.
Qed.

Lemma no_underscore_run_tail (c : ascii) (s : string) :
  no_underscore_run (String c s) = true -> no_underscore_run s = true.
Proof.
  rewrite no_underscore_run_cons. destruct s; [ auto | ].
  intros H. apply andb_prop in H. tauto.
Qed.

Lemma no_underscore_run_lstrip_by (q : ascii -> bool) (s : string) :
  no_underscore_run s = true -> no_underscore_run (lstrip_by q s) = true.
Proof.
  induction s as [ | c s IH]; [ auto | ]. intros H. simpl lstrip_by.
  destruct (q c); [ | exact H ]. apply IH. now apply no_underscore_run_tail in H.
Qed.

Lemma rstrip_by_cons (q : ascii -> bool) (c : ascii) (s : string) :
  rstrip_by q (String c s) =
  match rstrip_by q s with
  | EmptyString => if q c then EmptyString else String c EmptyString
  | r => String c r
  end.
Proof. reflexivity. Qed.

(** The head of [rstrip_by q s], when there is one, is the head of [s]. *)
Lemma rstrip_by_head (q : ascii -> bool) (s : string) :
  match rstrip_by q s, s with
  | String d _, String c _ => c = d
  | String _ _, EmptyString => False
  | EmptyString, _ => True
  end.
Proof.
  destruct s as [ | c s]; [ exact I | ]. rewrite rstrip_by_cons.
  destruct (rstrip_by q s); [ destruct (q c) | ]; reflexivity.
Qed.

Lemma no_underscore_run_rstrip_by (q : ascii -> bool) (s : string) :
  no_underscore_run s = true -> no_underscore_run (rstrip_by q s) = true.
Proof.
  induction s as [ | c s IH]; [ auto | ]. intros H.
  pose proof (no_underscore_run_tail c s H) as Ht. specialize (IH Ht).
  rewrite rstrip_by_cons. pose proof (rstrip_by_head q s) as Hd.
  destruct (rstrip_by q s) as [ | d r]; [ now destruct (q c) | ].
  destruct s as [ | c' s']; [ contradiction | ]. subst d.
  rewrite no_underscore_run_cons in H |- *.
  apply andb_prop in H. destruct H as [H _]. now rewrite H, IH.
Qed.

Lemma lstrip_by_head (q : ascii -> bool) (s : string) :
  match lstrip_by q s with
  | String c _ => q c = false
  | EmptyString => True
  end.
Proof.
  induction s as [ | c s IH]; simpl; [ exact I | ].
  destruct (q c) eqn:E; [ exact IH | exact E ].
Qed.

Lemma rstrip_by_last (q : ascii -> bool) (c : ascii) (s : string) :
  q c = true -> last_is c (rstrip_by q s) = false.
Proof.
  intros Hc. induction s as [ | d s IH]; [ reflexivity | ].
  rewrite rstrip_by_cons.
  destruct (rstrip_by q s) as [ | e r].
  - destruct (q d) eqn:E; [ reflexivity | ]. simpl.
    apply Ascii.eqb_neq. intros ->. congruence.
  - exact IH.
Qed.

Lemma endswith_char (c : ascii) (s : string) :
  endswith s (String c EmptyString) = last_is c s.
Proof.
  unfold endswith. induction s as [ | d s IH]; [ reflexivity | ].
  destruct s as [ | e t].
  - simpl. destruct (Ascii.eqb d c); reflexivity.
  - change (last_is c (String d (String e t))) with (last_is c (String e t)).
    rewrite <- IH. simpl String.length.
    replace (S (S (String.length t)) - 1)%nat with (S (String.length t - 0)) by lia.
    replace (S (String.length t) - 1)%nat with (String.length t - 0)%nat by lia.
    reflexivity.
Qed.

Lemma prefix_cons (a b : ascii) (p s : string) :
  String.prefix (String a p) (String b s) = if ascii_dec a b then String.prefix p s else false.
Proof. reflexivity. Qed.

Lemma contains_underscores (s : string) :
  contains s "__" = negb (no_underscore_run s).
Proof.
  unfold contains. induction s as [ | c s IH]; [ reflexivity | ].
  rewrite find_cons, no_underscore_run_cons.
  destruct s as [ | d t].
  - rewrite prefix_cons. destruct (ascii_dec "_" c); reflexivity.
  - rewrite !prefix_cons.
    replace (String.prefix "" t) with true by now destruct t.
    destruct (ascii_dec "_" c) as [<- | Nc].
    + destruct (ascii_dec "_" d) as [<- | Nd]; [ reflexivity | ].
      assert (E : Ascii.eqb d "_" = false) by (apply Ascii.eqb_neq; congruence).
      rewrite E. change (negb (Ascii.eqb "_" "_" && false)) with true.
      rewrite andb_true_l, <- IH.
      now destruct (find (String d t) "__").
    + assert (E : Ascii.eqb c "_" = false) by (apply Ascii.eqb_neq; congruence).
      rewrite E, andb_false_l. change (negb false) with true.
      rewrite andb_true_l, <- IH.
      now destruct (find (String d t) "__").
Qed.

(** What the two substitutions and the stripping leave. *)
Lemma safe_name_facts (printer_name : string) :
  let name := safe_name printer_name in
  all_chars is_name_char name = true /\
  no_underscore_run name = true /\
  match name with String c _ => Ascii.eqb "_" c = false | EmptyString => True end /\
  last_is "_" name = false.
Proof.
  unfold safe_name, strip_char.
  set (u := sub_underscores (sub_other_chars printer_name)).
  assert (A : all_chars is_name_char u = true)
    by (apply all_chars_sub_underscores, sub_other_chars_name).
  assert (R : no_underscore_run u = true) by apply sub_underscores_no_run.
  repeat split.
  - now apply all_chars_rstrip_by, all_chars_lstrip_by.
  - now apply no_underscore_run_rstrip_by, no_underscore_run_lstrip_by.
  - pose proof (lstrip_by_head (Ascii.eqb "_") u) as H.
    pose proof (rstrip_by_head (Ascii.eqb "_") (lstrip_by (Ascii.eqb "_") u)) as H'.
    destruct (rstrip_by (Ascii.eqb "_") (lstrip_by (Ascii.eqb "_") u)) as [ | d r];
      [ exact I | ].
    destruct (lstrip_by (Ascii.eqb "_") u) as [ | c t]; [ contradiction | ]. now subst d.
  - apply rstrip_by_last. reflexivity.
Qed.

(** X13.  The part of a configuration file's name made from the printer's
    name holds only letters, digits, [.], [_] and [-], neither begins
    nor ends with [_], and has no two [_] in a row. *)
Theorem safe_name_shape (printer_name : string) :
  let name := safe_name printer_name in
  all_chars is_name_char name = true /\
  startswith name "_" = false /\
  endswith name "_" = false /\
  contains name "__" = false.
Proof.
  intros name. destruct (safe_name_facts printer_name) as (A & R & H & L). fold name in A, R, H, L.
  split; [ exact A | ]. split; [ | split ].
  - unfold startswith. destruct name as [ | c t]; [ reflexivity | ].
    rewrite prefix_cons. destruct (ascii_dec "_" c) as [<- | ]; [ discriminate | reflexivity ].
  - now rewrite endswith_char.
  - rewrite contains_underscores. now apply negb_false_iff.
Qed.

Lemma sub_other_chars_id (s : string) :
  all_chars is_name_char s = true -> sub_other_chars s = s.
Proof.
  induction s as [ | c s IH]; simpl; [ reflexivity | ]. intros H.
  apply andb_prop in H. destruct H as [Hc Hs]. now rewrite Hc, IH.
Qed.

Lemma sub_underscores_id (s : string) :
  no_underscore_run s = true -> sub_underscores s = s.
Proof.
  induction s as [ | c s IH]; [ reflexivity | ]. intros H.
  pose proof (no_underscore_run_tail c s H) as Ht.
  rewrite sub_underscores_cons, (IH Ht).
  rewrite no_underscore_run_cons in H.
  destruct s as [ | d t]; [ now destruct (Ascii.eqb c "_") | ].
  apply andb_prop in H. destruct H as [H _]. apply negb_true_iff in H.
  destruct (Ascii.eqb c "_"); [ | reflexivity ].
  rewrite andb_true_l in H. now rewrite H.
Qed.

Lemma lstrip_by_id (q : ascii -> bool) (s : string) :
  match s with String c _ => q c = false | EmptyString => True end -> lstrip_by q s = s.
Proof. destruct s as [ | c s]; simpl; [ reflexivity | ]. now intros ->. Qed.

Lemma rstrip_by_id (c : ascii) (s : string) :
  last_is c s = false -> rstrip_by (Ascii.eqb c) s = s.
Proof.
  induction s as [ | d s IH]; [ reflexivity | ]. intros H.
  rewrite rstrip_by_cons. destruct s as [ | e t].
  - simpl in *. rewrite Ascii.eqb_sym. now rewrite H.
  - rewrite (IH H). reflexivity.
Qed.

(** X14.  A printer's name that is made of these characters only, with no
    [_] at either end and no two in a row, is taken as it is. *)
Theorem safe_name_unchanged (printer_name : string) :
  all_chars is_name_char printer_name = true ->
  startswith printer_name "_" = false ->
  endswith printer_name "_" = false ->
  contains printer_name "__" = false ->
  safe_name printer_name = printer_name.
Proof.
  intros A S E C. unfold safe_name, strip_char.
  rewrite contains_underscores in C. apply negb_false_iff in C.
  rewrite endswith_char in E.
  rewrite (sub_other_chars_id _ A), (sub_underscores_id _ C).
  rewrite lstrip_by_id; [ now apply rstrip_by_id | ].
  destruct printer_name as [ | c t]; [ exact I | ].
  unfold startswith in S. rewrite prefix_cons in S.
  destruct (ascii_dec "_" c) as [<- | N]; [ | now apply Ascii.eqb_neq ].
  destruct t; discriminate.
Qed.

End FileNameProperties.

(** ** The measurement dialog *)

Section DialogProperties.

Import SkewCalculator.

Variable pow_2 : float -> float.

(** A call of [set_measurements] that returns leaves the same object
    whatever factors were stored before. *)
Lemma set_measurements_returned (s1 s2 r : t) (a b c d e f g h i : obj) :
  set_measurements pow_2 s1 a b c d e f g h i = (r, Returned) ->
  set_measurements pow_2 s2 a b c d e f g h i = (r, Returned).
Proof.
  unfold set_measurements, calculate_skew_factors. simpl.
  destruct (try_except (body_I pow_2 a b c)) as [x | ]; [ | discriminate ]. simpl.
  destruct (try_except (body_JK pow_2 d e f)) as [y | ]; [ | discriminate ]. simpl.
  destruct (try_except (body_JK pow_2 g h i)) as [z | ]; [ | discriminate ].
  intros H. injection H as <-. reflexivity.
Qed.

Lemma input_value_side (key text : string) (value : float) :
  MeasurementDialogUI.input_value key text = Some value ->
  float_of_str (strip text) = Some value /\
  (endswith key "_ad" = true -> (value <=? 0)%float = false).
Proof.
  unfold MeasurementDialogUI.input_value.
  destruct (strip text =? ""); [ discriminate | ].
  destruct (float_of_str (strip text)) as [v | ]; [ | discriminate ].
  destruct (endswith key "_ad") eqn:K; simpl.
  - destruct (v <=? 0)%float eqn:V; [ discriminate | ].
    intros H. injection H as <-. auto.
  - intros H. injection H as <-. split; [ reflexivity | discriminate ].
Qed.

(** X15.  The values the dialog accepts are what [float] reads in the nine
    texts, stripped, and none of the three sides is [<= 0]. *)
Theorem accepted_values (texts : MeasurementDialogUI.measurements string)
    (values : MeasurementDialogUI.measurements float) :
  MeasurementDialogUI._get_input_values texts = Some values ->
  let read (text : string) (value : float) := float_of_str (strip text) = Some value in
  read (MeasurementDialogUI.xy_ac texts) (MeasurementDialogUI.xy_ac values) /\
  read (MeasurementDialogUI.xy_bd texts) (MeasurementDialogUI.xy_bd values) /\
  read (MeasurementDialogUI.xy_ad texts) (MeasurementDialogUI.xy_ad values) /\
  read (MeasurementDialogUI.xz_ac texts) (MeasurementDialogUI.xz_ac values) /\
  read (MeasurementDialogUI.xz_bd texts) (MeasurementDialogUI.xz_bd values) /\
  read (MeasurementDialogUI.xz_ad texts) (MeasurementDialogUI.xz_ad values) /\
  read (MeasurementDialogUI.yz_ac texts) (MeasurementDialogUI.yz_ac values) /\
  read (MeasurementDialogUI.yz_bd texts) (MeasurementDialogUI.yz_bd values) /\
  read (MeasurementDialogUI.yz_ad texts) (MeasurementDialogUI.yz_ad values) /\
  (MeasurementDialogUI.xy_ad values <=? 0)%float = false /\
  (MeasurementDialogUI.xz_ad values <=? 0)%float = false /\
  (MeasurementDialogUI.yz_ad values <=? 0)%float = false.
Proof.
  unfold MeasurementDialogUI._get_input_values.
  destruct (MeasurementDialogUI.input_value "xy_ac" _) as [a | ] eqn:Ea; [ | discriminate ].
  destruct (MeasurementDialogUI.input_value "xy_bd" _) as [b | ] eqn:Eb; [ | discriminate ].
  destruct (MeasurementDialogUI.input_value "xy_ad" _) as [c | ] eqn:Ec; [ | discriminate ].
  destruct (MeasurementDialogUI.input_value "xz_ac" _) as [d | ] eqn:Ed; [ | discriminate ].
  destruct (MeasurementDialogUI.input_value "xz_bd" _) as [e | ] eqn:Ee; [ | discriminate ].
  destruct (MeasurementDialogUI.input_value "xz_ad" _) as [f | ] eqn:Ef; [ | discriminate ].
  destruct (MeasurementDialogUI.input_value "yz_ac" _) as [g | ] eqn:Eg; [ | discriminate ].
  destruct (MeasurementDialogUI.input_value "yz_bd" _) as [h | ] eqn:Eh; [ | discriminate ].
  destruct (MeasurementDialogUI.input_value "yz_ad" _) as [i | ] eqn:Ei; [ | discriminate ].
  intros H. injection H as <-. simpl.
  apply input_value_side in Ea, Eb, Ec, Ed, Ee, Ef, Eg, Eh, Ei.
  destruct Ea as [Ea _], Eb as [Eb _], Ec as [Ec Sc], Ed as [Ed _], Ee as [Ee _],
    Ef as [Ef Sf], Eg as [Eg _], Eh as [Eh _], Ei as [Ei Si].
  repeat split; auto.
Qed.

(** X16.  [_on_accept] never lets an exception of the controller's
    calculator escape.  When it accepts, the controller's calculator is
    in the state of the dialog's own: it holds the nine values read and
    the factors that fit them.  When it does not, the controller's
    calculator is as it was. *)
Theorem on_accept_result (_calculator controller : t)
    (texts : MeasurementDialogUI.measurements string) :
  match MeasurementDialogUI._on_accept pow_2 _calculator (Some controller) texts with
  | (calculator, Some controller', MeasurementDialogUI.Accepted) =>
      controller' = calculator /\
      consistent pow_2 controller' /\
      exists values,
        MeasurementDialogUI._get_input_values texts = Some values /\
        (controller', Returned) = MeasurementDialogUI.set_values pow_2 controller values
  | (_, Some controller', MeasurementDialogUI.Prevented) => controller' = controller
  | (_, _, _) => False
  end.
Proof.
  unfold MeasurementDialogUI._on_accept, MeasurementDialogUI._calculate_and_update_display.
  destruct (MeasurementDialogUI._get_input_values texts) as [values | ]; [ | reflexivity ].
  destruct (MeasurementDialogUI.set_values pow_2 _calculator values) as [calc [ | e]] eqn:E;
    [ | reflexivity ].
  cbv zeta. destruct (get_klipper_command calc) as [klipper_cmd | e]; [ | reflexivity ].
  unfold MeasurementDialogUI.set_values in *.
  rewrite (set_measurements_returned _ controller _ _ _ _ _ _ _ _ _ _ E).
  split; [ reflexivity | ]. split.
  - unfold set_measurements in E.
    apply (calculate_skew_factors_returned pow_2) in E. apply E.
  - exists values. split; [ reflexivity | ].
    symmetry. exact (set_measurements_returned _ controller _ _ _ _ _ _ _ _ _ _ E).
Qed.

End DialogProperties.

(** ** Runs of the plugin

    The properties above at concrete inputs, with [square], [acos_3],
    [tan_3] and the host's [getValue]. *)

Import GCodeManager.

Lemma sync_start_gcode_idempotent_witness :
  sync_start_gcode
    (Some ("G28" ++ newline ++ "G1 Z5" ++ newline ++
           "M852 I0.00000000 J0.00000000 K0.00000000 ; PrintSkewCompensation"))
    (fst (SkewCalculator.init square)) "marlin" true false = None.
Proof.
  apply (sync_start_gcode_idempotent (Some old_start_gcode)
           (fst (SkewCalculator.init square)) "marlin" true false).
  vm_compute. reflexivity.
Defined.

Lemma sync_start_gcode_result_witness :
  Forall (fun l => is_skew_command (strip l) = true ->
                   Some (strip l) =
                   Some "M852 I0.00000000 J0.00000000 K0.00000000 ; PrintSkewCompensation")
    (splitlines (final_gcode (Some old_start_gcode)
                   (sync_start_gcode (Some old_start_gcode)
                      (fst (SkewCalculator.init square)) "marlin" true false))).
Proof.
  apply (sync_start_gcode_result (Some old_start_gcode)
           (fst (SkewCalculator.init square)) "marlin"
           ("SET_SKEW XY=141.420,141.420,100.000 XZ=141.420,141.420,100.000 " ++
            "YZ=141.420,141.420,100.000 ; PrintSkewCompensation")
           true false).
  vm_compute. reflexivity.
Defined.

Lemma inactive_removes_commands_witness :
  Forall (fun l => is_skew_command (strip l) = false)
    (splitlines (final_gcode (Some old_start_gcode)
                   (PluginController._sync_gcode_based_on_state
                      PluginController.switched_off (Some old_start_gcode)))).
Proof.
  apply (inactive_removes_commands PluginController.switched_off (Some old_start_gcode)
           ("SET_SKEW XY=141.420,141.420,100.000 XZ=141.420,141.420,100.000 " ++
            "YZ=141.420,141.420,100.000 ; PrintSkewCompensation")).
  - vm_compute. reflexivity.
  - reflexivity.
Defined.

Lemma marlin_command_synchronised_witness :
  exists l,
    In l (splitlines (final_gcode (Some old_start_gcode)
                        (PluginController._sync_gcode_based_on_state
                           PluginController.marlin_on (Some old_start_gcode)))) /\
    strip l = "M852 I0.00000000 J0.00000000 K0.00000000 ; PrintSkewCompensation".
Proof.
  apply (marlin_command_synchronised PluginController.marlin_on (Some old_start_gcode)
           ("SET_SKEW XY=141.420,141.420,100.000 XZ=141.420,141.420,100.000 " ++
            "YZ=141.420,141.420,100.000 ; PrintSkewCompensation")).
  - vm_compute. reflexivity.
  - reflexivity.
  - reflexivity.
  - reflexivity.
Defined.

Lemma execute_unchanged_witness :
  exists self',
    execute acos_3 tan_3 host_getValue PrintSkewCompensationCKM.init true
      _get_default_settings [""; ""; "G1 X1 Y2"]
    = (self', [""; ""; "G1 X1 Y2"], Done).
Proof.
  apply (execute_unchanged acos_3 tan_3 host_getValue PrintSkewCompensationCKM.init
           _get_default_settings [""; ""; "G1 X1 Y2"]).
  left. reflexivity.
Defined.

Lemma execute_stays_disabled_witness :
  execute acos_3 tan_3 host_getValue
    (fst (fst (execute acos_3 tan_3 host_getValue PrintSkewCompensationCKM.init true
                 _get_default_settings [""; ""; "G1 X1 Y2"])))
    true skewed_settings [""; ""; "G1 X1 Y2 Z3"]
  = (fst (fst (execute acos_3 tan_3 host_getValue PrintSkewCompensationCKM.init true
                 _get_default_settings [""; ""; "G1 X1 Y2"])),
     [""; ""; "G1 X1 Y2 Z3"], Done).
Proof.
  apply (execute_stays_disabled acos_3 tan_3 host_getValue PrintSkewCompensationCKM.init
           _get_default_settings "" [""; "G1 X1 Y2"]); reflexivity.
Defined.

Lemma execute_compensates_witness :
  exists (body : list string) (e : ending),
    execute acos_3 tan_3 host_getValue PrintSkewCompensationCKM.init true skewed_settings
      ["a"; "b"; "G1 X1 Y2 Z3"] =
      (_calculate_factors_from_configuration acos_3 tan_3 PrintSkewCompensationCKM.init
         skewed_settings,
       ("a" ++ ";  [Print Skew Compensation] Applying skew compensation using values from: "
            ++ "configuration (calculated)" ++ newline)
         :: "b" :: body, e) /\
    e <> IndexError /\
    (e = Done ->
     exists layers,
       body = (layers ++ [setting_string
                            (_calculate_factors_from_configuration acos_3 tan_3
                               PrintSkewCompensationCKM.init skewed_settings)])%list /\
       List.length layers = 1%nat).
Proof.
  apply (execute_compensates acos_3 tan_3 host_getValue PrintSkewCompensationCKM.init
           skewed_settings "a" "b" ["G1 X1 Y2 Z3"]).
  - discriminate.
  - reflexivity.
  - vm_compute. reflexivity.
  - vm_compute. reflexivity.
Defined.

Lemma safe_name_unchanged_witness : safe_name "Ender-3_Pro.v2" = "Ender-3_Pro.v2".
Proof.
  apply safe_name_unchanged.
  - reflexivity.
  - reflexivity.
  - reflexivity.
  - reflexivity.
Defined.

Lemma accepted_values_witness :
  float_of_str (strip " 150 ") = Some 150%float /\
  (100 <=? 0)%float = false.
Proof.
  destruct (accepted_values
              (MeasurementDialogUI.mk_measurements " 150 " "130" "100.0" "141.42" "141.42"
                 "100" "141.42" "141.42" "100")
              (MeasurementDialogUI.mk_measurements 150 130 100 141.42 141.42
                 100 141.42 141.42 100)%float eq_refl)
    as (A & _ & _ & _ & _ & _ & _ & _ & _ & S & _).
  exact (conj A S).
Defined.

Lemma float_measurements_sync_witness :
  exists c,
    SkewCalculator.get_klipper_command (fst (SkewCalculator.init square)) = Ok c /\
    is_skew_command (strip c) = true.
Proof.
  apply (float_measurements_sync (fst (SkewCalculator.init square))).
  reflexivity.
Defined.

Lemma request_synchronised_witness :
  exists l,
    In l (splitlines
            (final_gcode (Some old_start_gcode)
               (snd (fst (PluginController.handle true false false
                            PluginController.switched_off
                            (PluginController.EnableCompensation true)
                            (Some old_start_gcode)))))) /\
    strip l = "M852 I0.00000000 J0.00000000 K0.00000000 ; PrintSkewCompensation".
Proof.
  destruct (request_synchronised false false PluginController.switched_off
              (PluginController.EnableCompensation true) (Some old_start_gcode)
              ("SET_SKEW XY=141.420,141.420,100.000 XZ=141.420,141.420,100.000 " ++
               "YZ=141.420,141.420,100.000 ; PrintSkewCompensation"))
    as (_ & _ & P).
  - vm_compute. reflexivity.
  - apply P. vm_compute. reflexivity.
Defined.

Lemma request_switches_witness :
  PluginController.method
    (fst (fst (PluginController.handle true false false PluginController.marlin_on
                 (PluginController.AddKlipper true) None))) = "klipper".
Proof.
  destruct (request_switches false false true PluginController.marlin_on
              (PluginController.AddKlipper true) None)
    as (_ & _ & _ & _ & K & _).
  - reflexivity.
  - discriminate.
  - apply K. reflexivity.
Defined.
